(** * Email Finder extension: employee aggregation, enrichment mapping,
      paid-lookup errors and the bounded search history

    A shallow embedding of the TypeScript sources of the extension
    (backend.ts, email-finder.tsx, history-storage.ts and
    company-employees.tsx) together with the properties the
    specification states about them.

    Conventions of the embedding:
    - an optional field ([x?: T]) and a value that may be [null] or
      [undefined] is an [option];
    - JavaScript numbers that the program only uses as counts (pages,
      balances, timestamps in milliseconds) are integers of [Z];
    - a call that may throw returns a [JS.Result] carrying the message of
      the thrown [Error];
    - host functions the sources call but do not define
      ([String.prototype.localeCompare], [Date], [Math.random]) are
      parameters of the definitions that use them. *)

From Stdlib Require Import ZArith String Ascii List Lia.
From Stdlib Require Import Sorting.Sorted Sorting.Permutation.
From stdpp Require Import gmap strings list pretty.

Local Open Scope string_scope.
Local Open Scope Z_scope.

(* ===================================================================== *)
(** ** The JavaScript operators the sources rely on                      *)
(* ===================================================================== *)

Module JS.

(** Completion of a call: a value, or a thrown [Error] with its message. *)
Inductive Result (A : Type) : Type :=
| Ok (value : A)
| Throw (message : string).
Arguments Ok {A} value.
Arguments Throw {A} message.

(** Truthiness of a string: only the empty string is falsy. *)
Definition truthy_string (s : string) : bool :=
  match s with
  | EmptyString => false
  | String _ _ => true
  end.

(** Truthiness of an optional string ([undefined] is falsy). *)
Definition truthy (o : option string) : bool :=
  match o with
  | Some s => truthy_string s
  | None => false
  end.

(** [o || d] where [o] is an optional string and [d] a string. *)
Definition or_string (o : option string) (d : string) : string :=
  match o with
  | Some s => if truthy_string s then s else d
  | None => d
  end.

(** [o || null] and [o || undefined] for an optional string. *)
Definition or_null (o : option string) : option string :=
  match o with
  | Some s => if truthy_string s then Some s else None
  | None => None
  end.

(** [o || d] where [o] is an optional number: [0] is falsy. *)
Definition or_number (o : option Z) (d : Z) : Z :=
  match o with
  | Some n => if n =? 0 then d else n
  | None => d
  end.

(** [o ?? d]: only [null] and [undefined] select the default. *)
Definition nullish {A : Type} (o : option A) (d : A) : A :=
  match o with
  | Some a => a
  | None => d
  end.

(** White space removed by [String.prototype.trim], on the ASCII range:
    tab, line feed, vertical tab, form feed, carriage return, space. *)
Definition is_whitespace (a : ascii) : bool :=
  let n := nat_of_ascii a in
  ((9 <=? n)%nat && (n <=? 13)%nat) || (n =? 32)%nat.

Fixpoint trimStart (s : string) : string :=
  match s with
  | EmptyString => EmptyString
  | String a s' => if is_whitespace a then trimStart s' else s
  end.

Definition trimEnd (s : string) : string :=
  String.rev (trimStart (String.rev s)).

Definition trim (s : string) : string := trimEnd (trimStart s).

(** [Array.prototype.sort(comparefn)].  The language fixes the result
    for a consistent comparator: the stable arrangement in which
    [comparefn a b <= 0] for [a] before [b].  The embedding computes it
    by stable insertion; an element is never compared with itself. *)
Section sort.
Context {A : Type} (comparefn : A -> A -> Z).

Fixpoint sort_insert (x : A) (l : list A) : list A :=
  match l with
  | [] => [x]
  | y :: l' =>
      if comparefn x y <=? 0 then x :: y :: l' else y :: sort_insert x l'
  end.

Definition sort (l : list A) : list A := foldr sort_insert [] l.
End sort.

(** [Map<string, V>]: the entries in insertion order, each key once.
    [map_set] keeps the position of a key that is already present and
    appends a new key at the end, which is the order [keys()] visits. *)
Fixpoint map_get {V : Type} (key : string) (m : list (string * V))
  : option V :=
  match m with
  | [] => None
  | (k, v) :: rest => if String.eqb k key then Some v else map_get key rest
  end.

Fixpoint map_set {V : Type} (key : string) (value : V)
    (m : list (string * V)) : list (string * V) :=
  match m with
  | [] => [(key, value)]
  | (k, v) :: rest =>
      if String.eqb k key then (k, value) :: rest
      else (k, v) :: map_set key value rest
  end.

Definition map_keys {V : Type} (m : list (string * V)) : list string :=
  map fst m.

(** [hay.includes(needle)] as a proposition. *)
Definition includes (hay needle : string) : Prop :=
  exists pre post : string, hay = pre +:+ needle +:+ post.

End JS.

(* ===================================================================== *)
(** ** backend.ts: response shapes                                       *)
(* ===================================================================== *)

Module SearchPersonJob.
Record t : Type := mk {
  title : string;
  company_name : string;
  current : bool;
  seniority : option string;
  departments : option (list string)
}.
End SearchPersonJob.

Module Location.
Record t : Type := mk { country : string; city : string }.
End Location.

Module SearchPersonResult.
Record t : Type := mk {
  person_id : string;
  first_name : string;
  last_name : string;
  full_name : string;
  headline : option string;
  linkedin_url : option string;
  current_job_title : option string;
  job_history : option (list SearchPersonJob.t);
  location : option Location.t
}.
End SearchPersonResult.

Module Pagination.
Record t : Type := mk {
  total_results : Z;
  page : Z;
  total_pages : Z
}.
End Pagination.

(** An element of [results]: [{ person: SearchPersonResult }]. *)
Module SearchResultItem.
Record t : Type := mk { person : SearchPersonResult.t }.
End SearchResultItem.

Module SearchPersonResponse.
Record t : Type := mk {
  error : option bool;
  error_code : option string;
  message : option string;
  balance : option Z;
  results : option (list SearchResultItem.t);
  pagination : option Pagination.t
}.
End SearchPersonResponse.

(** The body of an HTTP response once [response.json()] has parsed it.
    Numbers are the integer-valued ones; an object lists its own
    properties, each key once. *)
Module Json.
#[local] Set Warnings "-register-all".
Inductive t : Type :=
| Null
| Bool (b : bool)
| Num (n : Z)
| Str (s : string)
| Arr (items : list t)
| Obj (fields : list (string * t)).

(** Own property [name] of an object, [None] for [undefined]. *)
Fixpoint get (name : string) (fields : list (string * t)) : option t :=
  match fields with
  | [] => None
  | (k, v) :: rest => if String.eqb k name then Some v else get name rest
  end.

(** [data.name] for the property names the backend reads ([error],
    [error_code], [message], [balance]): reading a property of [null]
    throws a [TypeError], a primitive or an array has no such
    property. *)
Definition prop (data : t) (name : string) : JS.Result (option t) :=
  match data with
  | Null =>
      JS.Throw ("Cannot read properties of null (reading '" +:+ name +:+ "')")
  | Obj fields => JS.Ok (get name fields)
  | _ => JS.Ok None
  end.

(** [name in data] once [data] is known to be a non-null object. *)
Definition has (name : string) (data : t) : bool :=
  match data with
  | Obj fields => bool_decide (is_Some (get name fields))
  | _ => false
  end.

(** [typeof data === "object" && data !== null]. *)
Definition is_object (data : t) : bool :=
  match data with
  | Arr _ | Obj _ => true
  | _ => false
  end.

(** Truthiness of a parsed value. *)
Definition truthy (v : option t) : bool :=
  match v with
  | None | Some Null => false
  | Some (Bool b) => b
  | Some (Num n) => negb (n =? 0)
  | Some (Str s) => JS.truthy_string s
  | Some (Arr _) | Some (Obj _) => true
  end.

(** String conversion, as a template literal and [new Error] apply it. *)
Fixpoint ToString (v : t) : string :=
  match v with
  | Null => "null"
  | Bool true => "true"
  | Bool false => "false"
  | Num n => pretty n
  | Str s => s
  | Arr items =>
      String.concat ","
        (map (fun x => match x with Null => "" | _ => ToString x end) items)
  | Obj _ => "[object Object]"
  end.

Definition template (v : option t) : string :=
  match v with
  | None => "undefined"
  | Some x => ToString x
  end.
End Json.

Module Preferences.
Record t : Type := mk { apiKey : option string }.
End Preferences.

Module Request.
Record t : Type := mk {
  url : string;
  method : string;
  headers : list (string * string);
  body : Json.t
}.
End Request.

Module HttpResponse.
(** [json] is the completion of [response.json()]. *)
Record t : Type := mk {
  status : Z;
  json : JS.Result Json.t
}.

(** [response.ok]: the status is in the range 200-299. *)
Definition ok (r : t) : bool := (200 <=? status r) && (status r <=? 299).
End HttpResponse.

Module Backend.

(** Sequencing of calls that may throw. *)
Definition bind {A B : Type} (c : JS.Result A) (k : A -> JS.Result B)
  : JS.Result B :=
  match c with
  | JS.Ok a => k a
  | JS.Throw m => JS.Throw m
  end.

Notation "x <- c ;; k" := (bind c (fun x => k))
  (at level 100, c at next level, right associativity).

(** Check if response is an insufficient credits error. *)
Definition isInsufficientCreditsError (data : Json.t) : bool :=
  Json.is_object data &&
  Json.has "error_code" data &&
  match Json.prop data "error_code" with
  | JS.Ok (Some (Json.Str code)) => String.eqb code "INSUFFICIENT_CREDITS"
  | _ => false
  end.

(** Get API key from preferences. *)
Definition getApiKey (prefs : Preferences.t) : JS.Result string :=
  match Preferences.apiKey prefs with
  | Some key =>
      if JS.truthy_string (JS.trim key) then JS.Ok (JS.trim key)
      else JS.Throw "API key not configured"
  | None => JS.Throw "API key not configured"
  end.

Section calls.
(** [SUPABASE_URL] comes from a module outside the sources at hand;
    [fetch] is the network. *)
Variable SUPABASE_URL : string.
Variable fetch : Request.t -> JS.Result HttpResponse.t.
Variable prefs : Preferences.t.

Definition enrichRequest (apiKey firstName lastName companyWebsite : string)
  : Request.t :=
  {| Request.url := SUPABASE_URL +:+ "/functions/v1/spend-and-enrich-person";
     Request.method := "POST";
     Request.headers :=
       [("X-API-Key", apiKey); ("Content-Type", "application/json")];
     Request.body :=
       Json.Obj [("first_name", Json.Str firstName);
                 ("last_name", Json.Str lastName);
                 ("company_website", Json.Str companyWebsite)] |}.

(** Enrich person (find email). *)
Definition enrichPerson (firstName lastName companyWebsite : string)
  : JS.Result Json.t :=
  apiKey <- getApiKey prefs ;;
  response <- fetch (enrichRequest apiKey firstName lastName companyWebsite) ;;
  data <- HttpResponse.json response ;;
  (* Handle insufficient credits specifically *)
  if (HttpResponse.status response =? 402) && isInsufficientCreditsError data
  then
    balance <- Json.prop data "balance" ;;
    JS.Throw ("Insufficient credits. You have " +:+ Json.template balance
              +:+ " credits remaining.")
  else
    (* Handle other errors *)
    failed <- (if negb (HttpResponse.ok response) then JS.Ok true
               else (e <- Json.prop data "error" ;; JS.Ok (Json.truthy e))) ;;
    if (failed : bool) then
      message <- Json.prop data "message" ;;
      JS.Throw (if Json.truthy message then Json.template message
                else "Failed to enrich person")
    else JS.Ok data.

Definition searchRequest (apiKey domain : string) (page : Z) : Request.t :=
  {| Request.url := SUPABASE_URL +:+ "/functions/v1/spend-and-search-person";
     Request.method := "POST";
     Request.headers :=
       [("X-API-Key", apiKey); ("Content-Type", "application/json")];
     Request.body :=
       Json.Obj
         [("page", Json.Num page);
          ("filters",
           Json.Obj
             [("company",
               Json.Obj
                 [("websites",
                   Json.Obj [("include", Json.Arr [Json.Str domain])])])])] |}.

(** Search people by company domain. *)
Definition searchPerson (domain : string) (page : Z) : JS.Result Json.t :=
  apiKey <- getApiKey prefs ;;
  response <- fetch (searchRequest apiKey domain page) ;;
  data <- HttpResponse.json response ;;
  (* Handle insufficient credits specifically *)
  if (HttpResponse.status response =? 402) && isInsufficientCreditsError data
  then
    balance <- Json.prop data "balance" ;;
    JS.Throw ("Insufficient credits. You have " +:+ Json.template balance
              +:+ " credits remaining.")
  else
    (* Handle other errors *)
    failed <- (if negb (HttpResponse.ok response) then JS.Ok true
               else (e <- Json.prop data "error" ;; JS.Ok (Json.truthy e))) ;;
    if (failed : bool) then
      message <- Json.prop data "message" ;;
      JS.Throw (if Json.truthy message then Json.template message
                else "Failed to search people")
    else JS.Ok data.
End calls.

(** Company Search Result (Clearout API).  The four fields are copied
    from the parsed item as they are, [None] for [undefined]. *)
Module CompanySearchResult.
Record t : Type := mk {
  name : option Json.t;
  domain : option Json.t;
  confidence_score : option Json.t;
  logo_url : option Json.t
}.
End CompanySearchResult.

Section autocomplete.
(** [encodeURIComponent] is the host's; [fetchUrl url] is [fetch(url)],
    a GET without options. *)
Variable encodeURIComponent : string -> string.
Variable fetchUrl : string -> JS.Result HttpResponse.t.

Definition autocompleteUrl (query : string) : string :=
  "https://api.clearout.io/public/companies/autocomplete?query="
  +:+ encodeURIComponent (JS.trim query).

(** The arrow function mapped over [data.data]; reading a property of a
    [null] item throws. *)
Definition toCompanySearchResult (item : Json.t)
  : JS.Result CompanySearchResult.t :=
  name <- Json.prop item "name" ;;
  domain <- Json.prop item "domain" ;;
  confidence_score <- Json.prop item "confidence_score" ;;
  logo_url <- Json.prop item "logo_url" ;;
  JS.Ok {| CompanySearchResult.name := name;
           CompanySearchResult.domain := domain;
           CompanySearchResult.confidence_score := confidence_score;
           CompanySearchResult.logo_url := logo_url |}.

(** [items.map(...)]: the first item that throws ends the map. *)
Fixpoint mapItems (items : list Json.t)
  : JS.Result (list CompanySearchResult.t) :=
  match items with
  | [] => JS.Ok []
  | item :: rest =>
      result <- toCompanySearchResult item ;;
      results <- mapItems rest ;;
      JS.Ok (result :: results)
  end.

(** Search company by name using Clearout API (free, no credits).  The
    body of the [try] is [attempt]; the [catch] turns a throw into the
    empty list. *)
Definition searchCompanyByName (query : string)
  : list CompanySearchResult.t :=
  if negb (JS.truthy_string query)
     || (Z.of_nat (String.length (JS.trim query)) <? 2)
  then []
  else
    let attempt : JS.Result (list CompanySearchResult.t) :=
      response <- fetchUrl (autocompleteUrl query) ;;
      if negb (HttpResponse.ok response) then JS.Ok []
      else
        data <- HttpResponse.json response ;;
        status <- Json.prop data "status" ;;
        match status with
        | Some (Json.Str status) =>
            if String.eqb status "success" then
              items <- Json.prop data "data" ;;
              match items with
              | Some (Json.Arr items) => mapItems items
              | _ => JS.Ok []
              end
            else JS.Ok []
        | _ => JS.Ok []
        end in
    match attempt with
    | JS.Ok results => results
    | JS.Throw _ => []
    end.
End autocomplete.

End Backend.

(* ===================================================================== *)
(** ** credits.ts and auth.tsx                                           *)
(* ===================================================================== *)

Module Credits.
Import Backend.

Section calls.
Variable SUPABASE_URL : string.
Variable fetch : Request.t -> JS.Result HttpResponse.t.
Variable prefs : Preferences.t.

Definition creditsRequest (apiKey : string) : Request.t :=
  {| Request.url := SUPABASE_URL +:+ "/functions/v1/get-credits";
     Request.method := "POST";
     Request.headers :=
       [("X-API-Key", apiKey); ("Content-Type", "application/json")];
     Request.body := Json.Obj [] |}.

(** Fetch user's current credit balance: [data.balance] as the body has
    it. *)
Definition fetchCredits : JS.Result (option Json.t) :=
  match Preferences.apiKey prefs with
  | Some apiKey =>
      if JS.truthy_string (JS.trim apiKey) then
        response <- fetch (creditsRequest (JS.trim apiKey)) ;;
        data <- HttpResponse.json response ;;
        failed <- (if negb (HttpResponse.ok response) then JS.Ok true
                   else (e <- Json.prop data "error" ;; JS.Ok (Json.truthy e))) ;;
        if (failed : bool) then
          message <- Json.prop data "message" ;;
          JS.Throw (if Json.truthy message then Json.template message
                    else "Failed to fetch credits")
        else Json.prop data "balance"
      else JS.Throw "API key not configured"
  | None => JS.Throw "API key not configured"
  end.
End calls.

(** Format credits for display. *)
Definition formatCredits (balance : Z) : string :=
  pretty balance +:+ " credit" +:+ (if balance =? 1 then "" else "s").

(** Check if user has enough credits. *)
Definition hasEnoughCredits (balance required : Z) : bool :=
  required <=? balance.

End Credits.

Module Auth.

(** [AuthGate]: [true] when the children are rendered, [false] when the
    screen that asks for the API key is. *)
Definition AuthGate (prefs : Preferences.t) : bool :=
  JS.truthy (JS.trim <$> Preferences.apiKey prefs).

End Auth.

(* ===================================================================== *)
(** ** Enrichment: the response of the backend and the mapped record     *)
(* ===================================================================== *)

Module JobHistory.
Record t : Type := mk {
  title : string;
  company_name : string;
  current : bool;
  start_year : Z;
  start_month : Z;
  end_year : option Z;
  end_month : option Z;
  seniority : string;
  logo_url : option string;
  duration_in_months : option Z;
  departments : option (list string)
}.
End JobHistory.

Module FundingEvent.
Record t : Type := mk {
  amount : Z;
  amount_printed : string;
  raised_at : string;
  stage : string;
  link : string
}.
End FundingEvent.

Module Funding.
Record t : Type := mk {
  total_funding_printed : string;
  latest_funding_stage : string;
  latest_funding_date : string;
  funding_events : option (list FundingEvent.t)
}.
End Funding.

Module PersonLocation.
Record t : Type := mk {
  country : string;
  city : string;
  state : option string;
  country_code : option string
}.
End PersonLocation.

Module CompanyLocation.
Record t : Type := mk {
  country : string;
  city : string;
  raw_address : option string
}.
End CompanyLocation.

Module Mobile.
Record t : Type := mk {
  status : string;
  mobile_international : option string;
  mobile_country : option string
}.
End Mobile.

(** backend.ts, [EnrichPersonResponse].  The address of [person.email] is
    declared a string; it is optional here because the parsed body is
    cast, not checked, and the mappers test for its absence. *)
Module EnrichPersonResponse.
Module email.
Record t : Type := mk {
  status : string;
  email : option string;
  email_mx_provider : option string
}.
End email.

Module person.
Record t : Type := mk {
  first_name : string;
  last_name : string;
  full_name : string;
  headline : option string;
  linkedin_url : option string;
  current_job_title : option string;
  job_history : option (list JobHistory.t);
  mobile : option Mobile.t;
  email : option email.t;
  location : option PersonLocation.t
}.
End person.

Module company.
Record t : Type := mk {
  name : option string;
  website : option string;
  domain : option string;
  type : option string;
  industry : option string;
  description_ai : option string;
  employee_range : option string;
  employee_count : option Z;
  founded : option Z;
  linkedin_url : option string;
  twitter_url : option string;
  logo_url : option string;
  location : option CompanyLocation.t;
  revenue_range_printed : option string;
  funding : option Funding.t;
  keywords : option (list string)
}.
End company.

Record t : Type := mk {
  error : option bool;
  error_code : option string;
  message : option string;
  balance : option Z;
  person : option person.t;
  company : option company.t
}.
End EnrichPersonResponse.

(** email-finder.tsx, [EnrichedData]. *)
Module PersonData.
Module email.
Record t : Type := mk {
  status : string;
  email : string;
  email_mx_provider : option string
}.
End email.

Record t : Type := mk {
  first_name : string;
  last_name : string;
  full_name : string;
  headline : option string;
  linkedin_url : option string;
  job_history : list JobHistory.t;
  mobile : option Mobile.t;
  email : email.t;
  location : option PersonLocation.t;
  current_job_title : option string
}.
End PersonData.

Module CompanyData.
Record t : Type := mk {
  name : string;
  website : string;
  domain : string;
  type : option string;
  industry : string;
  description_ai : option string;
  employee_range : string;
  founded : Z;
  linkedin_url : option string;
  twitter_url : option string;
  logo_url : option string;
  location : option CompanyLocation.t;
  revenue_range_printed : option string;
  funding : option Funding.t;
  employee_count : option Z;
  keywords : option (list string)
}.
End CompanyData.

Module EnrichedData.
Record t : Type := mk {
  person : PersonData.t;
  company : CompanyData.t
}.
End EnrichedData.

(* ===================================================================== *)
(** ** email-finder.tsx                                                  *)
(* ===================================================================== *)

Module EmailFinder.

(** Map backend response to EnrichedData.  The guard
    [!response.person?.email?.email] is the chain of [match]es: any
    missing link, or an empty address, returns [null]. *)
Definition mapResponseToEnrichedData
    (response : EnrichPersonResponse.t) (domain : string)
  : option EnrichedData.t :=
  match EnrichPersonResponse.person response with
  | None => None
  | Some person =>
    match EnrichPersonResponse.person.email person with
    | None => None
    | Some email =>
      match EnrichPersonResponse.email.email email with
      | None => None
      | Some address =>
        if negb (JS.truthy_string address) then None
        else
          let company := EnrichPersonResponse.company response in
          Some {|
            EnrichedData.person := {|
              PersonData.first_name := EnrichPersonResponse.person.first_name person;
              PersonData.last_name := EnrichPersonResponse.person.last_name person;
              PersonData.full_name := EnrichPersonResponse.person.full_name person;
              PersonData.headline :=
                JS.or_null (EnrichPersonResponse.person.headline person);
              PersonData.linkedin_url :=
                JS.or_null (EnrichPersonResponse.person.linkedin_url person);
              PersonData.current_job_title :=
                JS.or_null (EnrichPersonResponse.person.current_job_title person);
              PersonData.job_history :=
                JS.nullish (EnrichPersonResponse.person.job_history person) [];
              PersonData.mobile :=
                match EnrichPersonResponse.person.mobile person with
                | Some mobile =>
                    Some {|
                      Mobile.status := Mobile.status mobile;
                      Mobile.mobile_international :=
                        JS.or_null (Mobile.mobile_international mobile);
                      Mobile.mobile_country := Mobile.mobile_country mobile |}
                | None => None
                end;
              PersonData.email := {|
                PersonData.email.status := EnrichPersonResponse.email.status email;
                PersonData.email.email := address;
                PersonData.email.email_mx_provider :=
                  EnrichPersonResponse.email.email_mx_provider email |};
              PersonData.location :=
                match EnrichPersonResponse.person.location person with
                | Some location =>
                    Some {|
                      PersonLocation.country := PersonLocation.country location;
                      PersonLocation.city := PersonLocation.city location;
                      PersonLocation.state := PersonLocation.state location;
                      PersonLocation.country_code :=
                        PersonLocation.country_code location |}
                | None => None
                end |};
            EnrichedData.company := {|
              CompanyData.name :=
                JS.or_string (company ≫= EnrichPersonResponse.company.name) domain;
              CompanyData.website :=
                JS.or_string (company ≫= EnrichPersonResponse.company.website)
                  ("https://" +:+ domain);
              CompanyData.domain :=
                JS.or_string (company ≫= EnrichPersonResponse.company.domain) domain;
              CompanyData.type :=
                JS.or_null (company ≫= EnrichPersonResponse.company.type);
              CompanyData.industry :=
                JS.or_string (company ≫= EnrichPersonResponse.company.industry) "";
              CompanyData.description_ai :=
                JS.or_null (company ≫= EnrichPersonResponse.company.description_ai);
              CompanyData.employee_range :=
                JS.or_string
                  (company ≫= EnrichPersonResponse.company.employee_range) "";
              CompanyData.employee_count :=
                company ≫= EnrichPersonResponse.company.employee_count;
              CompanyData.founded :=
                JS.or_number (company ≫= EnrichPersonResponse.company.founded) 0;
              CompanyData.linkedin_url :=
                JS.or_null (company ≫= EnrichPersonResponse.company.linkedin_url);
              CompanyData.twitter_url :=
                JS.or_null (company ≫= EnrichPersonResponse.company.twitter_url);
              CompanyData.logo_url :=
                JS.or_null (company ≫= EnrichPersonResponse.company.logo_url);
              CompanyData.location :=
                match company ≫= EnrichPersonResponse.company.location with
                | Some location =>
                    Some {|
                      CompanyLocation.country := CompanyLocation.country location;
                      CompanyLocation.city := CompanyLocation.city location;
                      CompanyLocation.raw_address :=
                        CompanyLocation.raw_address location |}
                | None => None
                end;
              CompanyData.revenue_range_printed :=
                JS.or_null
                  (company ≫= EnrichPersonResponse.company.revenue_range_printed);
              CompanyData.funding :=
                match company ≫= EnrichPersonResponse.company.funding with
                | Some funding =>
                    Some {|
                      Funding.total_funding_printed :=
                        Funding.total_funding_printed funding;
                      Funding.latest_funding_stage :=
                        Funding.latest_funding_stage funding;
                      Funding.latest_funding_date :=
                        Funding.latest_funding_date funding;
                      Funding.funding_events := Funding.funding_events funding |}
                | None => None
                end;
              CompanyData.keywords :=
                company ≫= EnrichPersonResponse.company.keywords |} |}
      end
    end
  end.

(** Markdown image helpers. *)
Definition COMPANY_LOGO_BASE : string :=
  "https://prospeo-static-assets.s3.us-east-1.amazonaws.com/company_logo/".

Definition resolveLogoUrl (logo : option string) : option string :=
  match logo with
  | None => None
  | Some logo =>
      if negb (JS.truthy_string logo) then None
      (* If already a full URL, return as-is *)
      else if String.prefix "http://" logo || String.prefix "https://" logo
      then Some logo
      (* Otherwise, it's a filename - prefix with S3 base *)
      else Some (COMPANY_LOGO_BASE +:+ logo)
  end.

Definition monthNames : list string :=
  ["Jan"; "Feb"; "Mar"; "Apr"; "May"; "Jun";
   "Jul"; "Aug"; "Sep"; "Oct"; "Nov"; "Dec"].

(** An element of an array in a template literal, ["undefined"] past
    the end. *)
Definition element (names : list string) (index : Z) : string :=
  match names !! Z.to_nat index with
  | Some name => name
  | None => "undefined"
  end.

Definition formatMonthYear (year month : Z) : string :=
  if year =? 0 then ""
  else if negb (month =? 0) && (1 <=? month) && (month <=? 12)
  then element monthNames (month - 1) +:+ " " +:+ pretty year
  else pretty year.

Definition formatJobPeriod (job : JobHistory.t) : string :=
  let start :=
    formatMonthYear (JobHistory.start_year job) (JobHistory.start_month job) in
  if JobHistory.current job then start +:+ " - Present"
  else
    let end_ :=
      formatMonthYear (JS.nullish (JobHistory.end_year job) 0)
        (JS.nullish (JobHistory.end_month job) 0) in
    if JS.truthy_string end_ then start +:+ " - " +:+ end_ else start.

End EmailFinder.

(* ===================================================================== *)
(** ** history-storage.ts                                                *)
(* ===================================================================== *)

Module Status.
Inductive t : Type := success | error.
End Status.

(** [Omit<SearchHistoryEntry, "id" | "createdAt" | "type">]. *)
Module SearchHistoryInput.
Record t : Type := mk {
  firstName : string;
  lastName : string;
  domain : string;
  status : Status.t;
  email : option string;
  error : option string;
  enrichedData : option EnrichedData.t
}.
End SearchHistoryInput.

(** A stored email entry; [type] is absent on entries written before the
    field existed. *)
Module SearchHistoryEntry.
Record t : Type := mk {
  id : string;
  type : option string;
  firstName : string;
  lastName : string;
  domain : string;
  createdAt : string;
  status : Status.t;
  email : option string;
  error : option string;
  enrichedData : option EnrichedData.t
}.
End SearchHistoryEntry.

Module CachedEmployee.
Record t : Type := mk {
  id : string;
  firstName : string;
  lastName : string;
  fullName : string;
  jobTitle : string;
  departments : list string;
  linkedinUrl : option string;
  location : option string;
  seniority : option string
}.
End CachedEmployee.

(** [Omit<CompanySearchHistoryEntry, "id" | "createdAt" | "type">]. *)
Module CompanySearchHistoryInput.
Record t : Type := mk {
  companyName : string;
  domain : string;
  confidenceScore : Z;
  logoUrl : option string;
  employees : option (list CachedEmployee.t);
  totalPages : option Z;
  currentPage : option Z
}.
End CompanySearchHistoryInput.

Module CompanySearchHistoryEntry.
Record t : Type := mk {
  id : string;
  type : string;
  companyName : string;
  domain : string;
  confidenceScore : Z;
  logoUrl : option string;
  createdAt : string;
  employees : option (list CachedEmployee.t);
  totalPages : option Z;
  currentPage : option Z
}.
End CompanySearchHistoryEntry.

(** [HistoryEntry = SearchHistoryEntry | CompanySearchHistoryEntry]. *)
Module HistoryEntry.
Inductive t : Type :=
| Email (entry : SearchHistoryEntry.t)
| Company (entry : CompanySearchHistoryEntry.t).

Definition createdAt (entry : t) : string :=
  match entry with
  | Email e => SearchHistoryEntry.createdAt e
  | Company c => CompanySearchHistoryEntry.createdAt c
  end.

Definition type (entry : t) : option string :=
  match entry with
  | Email e => SearchHistoryEntry.type e
  | Company c => Some (CompanySearchHistoryEntry.type c)
  end.
End HistoryEntry.

(** The key-value store of the host, restricted to the two keys the
    module uses.  An item is text: the text [JSON.stringify] writes for a
    log is [Json log] (so [JSON.parse] gives [log] back), text that
    [JSON.parse] rejects is [Text raw]. *)
Module LocalStorage.
Inductive item (A : Type) : Type :=
| Json (value : A)
| Text (raw : string).
Arguments Json {A} value.
Arguments Text {A} raw.

Record t : Type := mk {
  search_history : option (item (list SearchHistoryEntry.t));
  company_search_history : option (item (list CompanySearchHistoryEntry.t))
}.
End LocalStorage.

(** [Partial<Omit<CompanySearchHistoryEntry, "id" | "type" | "createdAt">>]:
    [None] for a key the object does not have.  The key of an optional
    field can be there with the value [undefined], which the write to the
    store drops: [Some None]. *)
Module CompanySearchHistoryUpdate.
Record t : Type := mk {
  companyName : option string;
  domain : option string;
  confidenceScore : option Z;
  logoUrl : option (option string);
  employees : option (option (list CachedEmployee.t));
  totalPages : option (option Z);
  currentPage : option (option Z)
}.
End CompanySearchHistoryUpdate.

Module HistoryStorage.

Definition MAX_ENTRIES : Z := 100.

(** [l.slice(0, stop)] for [0 <= stop]. *)
Definition slice0 {A : Type} (stop : Z) (l : list A) : list A :=
  take (Z.to_nat stop) l.

(** Generate unique ID: [now] is [Date.now()], [random] the digits
    [Math.random().toString(36).slice(2, 9)]. *)
Definition generateId (now : Z) (random : string) : string :=
  pretty now +:+ "-" +:+ random.

(** Load all history entries. *)
Definition loadSearchHistory (store : LocalStorage.t)
  : list SearchHistoryEntry.t :=
  match LocalStorage.search_history store with
  | None => []
  | Some (LocalStorage.Text _) => []
  | Some (LocalStorage.Json entries) => entries
  end.

(** Save history entries (internal). *)
Definition saveSearchHistory (entries : list SearchHistoryEntry.t)
    (store : LocalStorage.t) : LocalStorage.t :=
  {| LocalStorage.search_history := Some (LocalStorage.Json entries);
     LocalStorage.company_search_history :=
       LocalStorage.company_search_history store |}.

(** Load all company search history entries. *)
Definition loadCompanySearchHistory (store : LocalStorage.t)
  : list CompanySearchHistoryEntry.t :=
  match LocalStorage.company_search_history store with
  | None => []
  | Some (LocalStorage.Text _) => []
  | Some (LocalStorage.Json entries) => entries
  end.

(** Save company search history entries (internal). *)
Definition saveCompanySearchHistory
    (entries : list CompanySearchHistoryEntry.t) (store : LocalStorage.t)
  : LocalStorage.t :=
  {| LocalStorage.search_history := LocalStorage.search_history store;
     LocalStorage.company_search_history :=
       Some (LocalStorage.Json entries) |}.

Section clock.
(** [toISOString ms] is [new Date(ms).toISOString()]; [idNow] and
    [createdNow] are the two readings of the clock an addition makes,
    [random] the digits drawn for the id. *)
Variable toISOString : Z -> string.
Variables (idNow : Z) (random : string) (createdNow : Z).

(** Add a new entry (prepends, keeps bounded to MAX_ENTRIES); returns
    the new entry and the store after the write. *)
Definition addSearchHistoryEntry (entry : SearchHistoryInput.t)
    (store : LocalStorage.t) : SearchHistoryEntry.t * LocalStorage.t :=
  let entries := loadSearchHistory store in
  let newEntry :=
    {| SearchHistoryEntry.firstName := SearchHistoryInput.firstName entry;
       SearchHistoryEntry.lastName := SearchHistoryInput.lastName entry;
       SearchHistoryEntry.domain := SearchHistoryInput.domain entry;
       SearchHistoryEntry.status := SearchHistoryInput.status entry;
       SearchHistoryEntry.email := SearchHistoryInput.email entry;
       SearchHistoryEntry.error := SearchHistoryInput.error entry;
       SearchHistoryEntry.enrichedData :=
         SearchHistoryInput.enrichedData entry;
       SearchHistoryEntry.type := Some "email";
       SearchHistoryEntry.id := generateId idNow random;
       SearchHistoryEntry.createdAt := toISOString createdNow |} in
  (* Prepend and limit *)
  let updated := slice0 MAX_ENTRIES (newEntry :: entries) in
  (newEntry, saveSearchHistory updated store).

(** Add a new company search entry. *)
Definition addCompanySearchHistoryEntry
    (entry : CompanySearchHistoryInput.t) (store : LocalStorage.t)
  : CompanySearchHistoryEntry.t * LocalStorage.t :=
  let entries := loadCompanySearchHistory store in
  let newEntry :=
    {| CompanySearchHistoryEntry.companyName :=
         CompanySearchHistoryInput.companyName entry;
       CompanySearchHistoryEntry.domain :=
         CompanySearchHistoryInput.domain entry;
       CompanySearchHistoryEntry.confidenceScore :=
         CompanySearchHistoryInput.confidenceScore entry;
       CompanySearchHistoryEntry.logoUrl :=
         CompanySearchHistoryInput.logoUrl entry;
       CompanySearchHistoryEntry.employees :=
         CompanySearchHistoryInput.employees entry;
       CompanySearchHistoryEntry.totalPages :=
         CompanySearchHistoryInput.totalPages entry;
       CompanySearchHistoryEntry.currentPage :=
         CompanySearchHistoryInput.currentPage entry;
       CompanySearchHistoryEntry.type := "company";
       CompanySearchHistoryEntry.id := generateId idNow random;
       CompanySearchHistoryEntry.createdAt := toISOString createdNow |} in
  (* Prepend and limit *)
  let updated := slice0 MAX_ENTRIES (newEntry :: entries) in
  (newEntry, saveCompanySearchHistory updated store).
End clock.

(** Remove an entry by ID. *)
Definition removeSearchHistoryEntry (id : string) (store : LocalStorage.t)
  : LocalStorage.t :=
  let entries := loadSearchHistory store in
  let updated :=
    filter (fun e => SearchHistoryEntry.id e ≠ id) entries in
  saveSearchHistory updated store.

(** Clear all history. *)
Definition clearSearchHistory (store : LocalStorage.t) : LocalStorage.t :=
  {| LocalStorage.search_history := None;
     LocalStorage.company_search_history :=
       LocalStorage.company_search_history store |}.

(** Remove a company search entry by ID. *)
Definition removeCompanySearchHistoryEntry (id : string)
    (store : LocalStorage.t) : LocalStorage.t :=
  let entries := loadCompanySearchHistory store in
  let updated :=
    filter (fun e => CompanySearchHistoryEntry.id e ≠ id) entries in
  saveCompanySearchHistory updated store.

(** [{ ...e, ...updates }]: the keys of [updates] replace those of [e]. *)
Definition mergeUpdates (e : CompanySearchHistoryEntry.t)
    (updates : CompanySearchHistoryUpdate.t) : CompanySearchHistoryEntry.t :=
  {| CompanySearchHistoryEntry.id := CompanySearchHistoryEntry.id e;
     CompanySearchHistoryEntry.type := CompanySearchHistoryEntry.type e;
     CompanySearchHistoryEntry.companyName :=
       JS.nullish (CompanySearchHistoryUpdate.companyName updates)
         (CompanySearchHistoryEntry.companyName e);
     CompanySearchHistoryEntry.domain :=
       JS.nullish (CompanySearchHistoryUpdate.domain updates)
         (CompanySearchHistoryEntry.domain e);
     CompanySearchHistoryEntry.confidenceScore :=
       JS.nullish (CompanySearchHistoryUpdate.confidenceScore updates)
         (CompanySearchHistoryEntry.confidenceScore e);
     CompanySearchHistoryEntry.logoUrl :=
       JS.nullish (CompanySearchHistoryUpdate.logoUrl updates)
         (CompanySearchHistoryEntry.logoUrl e);
     CompanySearchHistoryEntry.createdAt :=
       CompanySearchHistoryEntry.createdAt e;
     CompanySearchHistoryEntry.employees :=
       JS.nullish (CompanySearchHistoryUpdate.employees updates)
         (CompanySearchHistoryEntry.employees e);
     CompanySearchHistoryEntry.totalPages :=
       JS.nullish (CompanySearchHistoryUpdate.totalPages updates)
         (CompanySearchHistoryEntry.totalPages e);
     CompanySearchHistoryEntry.currentPage :=
       JS.nullish (CompanySearchHistoryUpdate.currentPage updates)
         (CompanySearchHistoryEntry.currentPage e) |}.

(** Update a company search entry (e.g., add employees). *)
Definition updateCompanySearchHistoryEntry (id : string)
    (updates : CompanySearchHistoryUpdate.t) (store : LocalStorage.t)
  : LocalStorage.t :=
  let entries := loadCompanySearchHistory store in
  let updated :=
    map (fun e =>
           if String.eqb (CompanySearchHistoryEntry.id e) id
           then mergeUpdates e updates else e)
        entries in
  saveCompanySearchHistory updated store.

(** Clear all company search history. *)
Definition clearCompanySearchHistory (store : LocalStorage.t)
  : LocalStorage.t :=
  {| LocalStorage.search_history := LocalStorage.search_history store;
     LocalStorage.company_search_history := None |}.

(** [{ ...e, type: "email" }], the arrow function [loadAllHistory] maps
    over the email entries. *)
Definition withEmailType (e : SearchHistoryEntry.t) : SearchHistoryEntry.t :=
  {| SearchHistoryEntry.id := SearchHistoryEntry.id e;
     SearchHistoryEntry.firstName := SearchHistoryEntry.firstName e;
     SearchHistoryEntry.lastName := SearchHistoryEntry.lastName e;
     SearchHistoryEntry.domain := SearchHistoryEntry.domain e;
     SearchHistoryEntry.createdAt := SearchHistoryEntry.createdAt e;
     SearchHistoryEntry.status := SearchHistoryEntry.status e;
     SearchHistoryEntry.email := SearchHistoryEntry.email e;
     SearchHistoryEntry.error := SearchHistoryEntry.error e;
     SearchHistoryEntry.enrichedData := SearchHistoryEntry.enrichedData e;
     SearchHistoryEntry.type := Some "email" |}.

Section merge.
(** [getTime s] is [new Date(s).getTime()], [None] for [NaN]. *)
Variable getTime : string -> option Z.

(** The comparator of [loadAllHistory]; the sort reads a [NaN]
    difference as [+0]. *)
Definition byCreatedAtDesc (a b : HistoryEntry.t) : Z :=
  match getTime (HistoryEntry.createdAt b),
        getTime (HistoryEntry.createdAt a) with
  | Some tb, Some ta => tb - ta
  | _, _ => 0
  end.

(** Load all history (combined email + company, sorted by date). *)
Definition loadAllHistory (store : LocalStorage.t) : list HistoryEntry.t :=
  let emailEntries := loadSearchHistory store in
  let companyEntries := loadCompanySearchHistory store in
  (* Add type to legacy email entries that don't have it *)
  let typedEmailEntries := map withEmailType emailEntries in
  (* Combine and sort by createdAt descending *)
  let combined :=
    (map HistoryEntry.Email typedEmailEntries
     ++ map HistoryEntry.Company companyEntries)%list in
  JS.sort byCreatedAtDesc combined.
End merge.

End HistoryStorage.

(* ===================================================================== *)
(** ** company-employees.tsx                                             *)
(* ===================================================================== *)

(** Employee with department info for grouping. *)
Module Employee.
Record t : Type := mk {
  id : string;
  firstName : string;
  lastName : string;
  fullName : string;
  jobTitle : string;
  departments : list string;
  linkedinUrl : option string;
  location : option string;
  seniority : option string
}.

#[global] Instance eq_dec : EqDecision t.
Proof. solve_decision. Defined.
End Employee.

(** Department group. *)
Module DepartmentGroup.
Record t : Type := mk {
  name : string;
  employees : list Employee.t
}.
End DepartmentGroup.

(** The optional [company] argument of [searchCompany]. *)
Module CompanyInfo.
Record t : Type := mk {
  name : string;
  logoUrl : option string;
  confidenceScore : Z
}.
End CompanyInfo.

(** The state cells of [EmployeeListView]. *)
Module ViewState.
Record t : Type := mk {
  employees : list Employee.t;
  isLoading : bool;
  hasSearched : bool;
  currentPage : Z;
  totalPages : Z;
  credits : option Z;
  filterText : string
}.
End ViewState.

Module CompanyEmployees.

(** Map search response to employees. *)
Definition mapSearchResponseToEmployees (response : SearchPersonResponse.t)
  : list Employee.t :=
  match SearchPersonResponse.results response with
  | None | Some [] => []
  | Some results =>
      map (fun item =>
        let person := SearchResultItem.person item in
        (* Extract current job info *)
        let currentJob :=
          SearchPersonResult.job_history person
            ≫= List.find SearchPersonJob.current in
        let departments :=
          JS.nullish (currentJob ≫= SearchPersonJob.departments) [] in
        {| Employee.id := SearchPersonResult.person_id person;
           Employee.firstName := SearchPersonResult.first_name person;
           Employee.lastName := SearchPersonResult.last_name person;
           Employee.fullName := SearchPersonResult.full_name person;
           Employee.jobTitle :=
             JS.or_string (SearchPersonResult.current_job_title person)
               (JS.or_string (SearchPersonJob.title <$> currentJob) "");
           Employee.departments :=
             if (0 <? Z.of_nat (length departments)) then departments
             else ["Other"];
           Employee.linkedinUrl := SearchPersonResult.linkedin_url person;
           Employee.location :=
             match SearchPersonResult.location person with
             | Some location =>
                 Some (Location.city location +:+ ", "
                       +:+ Location.country location)
             | None => None
             end;
           Employee.seniority := currentJob ≫= SearchPersonJob.seniority |})
        results
  end.

(** Map enrich response to EnrichedData.  The guard
    [!response.person?.email?.email] is the chain of [match]es: any
    missing link, or an empty address, returns [null]. *)
Definition mapEnrichResponseToData
    (response : EnrichPersonResponse.t) (domain : string)
  : option EnrichedData.t :=
  match EnrichPersonResponse.person response with
  | None => None
  | Some person =>
    match EnrichPersonResponse.person.email person with
    | None => None
    | Some email =>
      match EnrichPersonResponse.email.email email with
      | None => None
      | Some address =>
        if negb (JS.truthy_string address) then None
        else
          let company := EnrichPersonResponse.company response in
          Some {|
            EnrichedData.person := {|
              PersonData.first_name := EnrichPersonResponse.person.first_name person;
              PersonData.last_name := EnrichPersonResponse.person.last_name person;
              PersonData.full_name := EnrichPersonResponse.person.full_name person;
              PersonData.headline :=
                JS.or_null (EnrichPersonResponse.person.headline person);
              PersonData.linkedin_url :=
                JS.or_null (EnrichPersonResponse.person.linkedin_url person);
              PersonData.current_job_title :=
                JS.or_null (EnrichPersonResponse.person.current_job_title person);
              PersonData.job_history :=
                JS.nullish (EnrichPersonResponse.person.job_history person) [];
              PersonData.mobile :=
                match EnrichPersonResponse.person.mobile person with
                | Some mobile =>
                    Some {|
                      Mobile.status := Mobile.status mobile;
                      Mobile.mobile_international :=
                        JS.or_null (Mobile.mobile_international mobile);
                      Mobile.mobile_country := Mobile.mobile_country mobile |}
                | None => None
                end;
              PersonData.email := {|
                PersonData.email.status := EnrichPersonResponse.email.status email;
                PersonData.email.email := address;
                PersonData.email.email_mx_provider :=
                  EnrichPersonResponse.email.email_mx_provider email |};
              PersonData.location :=
                match EnrichPersonResponse.person.location person with
                | Some location =>
                    Some {|
                      PersonLocation.country := PersonLocation.country location;
                      PersonLocation.city := PersonLocation.city location;
                      PersonLocation.state := PersonLocation.state location;
                      PersonLocation.country_code :=
                        PersonLocation.country_code location |}
                | None => None
                end |};
            EnrichedData.company := {|
              CompanyData.name :=
                JS.or_string (company ≫= EnrichPersonResponse.company.name) domain;
              CompanyData.website :=
                JS.or_string (company ≫= EnrichPersonResponse.company.website)
                  ("https://" +:+ domain);
              CompanyData.domain :=
                JS.or_string (company ≫= EnrichPersonResponse.company.domain) domain;
              CompanyData.type :=
                JS.or_null (company ≫= EnrichPersonResponse.company.type);
              CompanyData.industry :=
                JS.or_string (company ≫= EnrichPersonResponse.company.industry) "";
              CompanyData.description_ai :=
                JS.or_null (company ≫= EnrichPersonResponse.company.description_ai);
              CompanyData.employee_range :=
                JS.or_string
                  (company ≫= EnrichPersonResponse.company.employee_range) "";
              CompanyData.employee_count :=
                company ≫= EnrichPersonResponse.company.employee_count;
              CompanyData.founded :=
                JS.or_number (company ≫= EnrichPersonResponse.company.founded) 0;
              CompanyData.linkedin_url :=
                JS.or_null (company ≫= EnrichPersonResponse.company.linkedin_url);
              CompanyData.twitter_url :=
                JS.or_null (company ≫= EnrichPersonResponse.company.twitter_url);
              CompanyData.logo_url :=
                JS.or_null (company ≫= EnrichPersonResponse.company.logo_url);
              CompanyData.location :=
                match company ≫= EnrichPersonResponse.company.location with
                | Some location =>
                    Some {|
                      CompanyLocation.country := CompanyLocation.country location;
                      CompanyLocation.city := CompanyLocation.city location;
                      CompanyLocation.raw_address :=
                        CompanyLocation.raw_address location |}
                | None => None
                end;
              CompanyData.revenue_range_printed :=
                JS.or_null
                  (company ≫= EnrichPersonResponse.company.revenue_range_printed);
              CompanyData.funding :=
                match company ≫= EnrichPersonResponse.company.funding with
                | Some funding =>
                    Some {|
                      Funding.total_funding_printed :=
                        Funding.total_funding_printed funding;
                      Funding.latest_funding_stage :=
                        Funding.latest_funding_stage funding;
                      Funding.latest_funding_date :=
                        Funding.latest_funding_date funding;
                      Funding.funding_events := Funding.funding_events funding |}
                | None => None
                end;
              CompanyData.keywords :=
                company ≫= EnrichPersonResponse.company.keywords |} |}
      end
    end
  end.

Section grouping.
(** [localeCompare a b] is [a.localeCompare(b)] in the locale of the
    host: negative, zero or positive. *)
Variable localeCompare : string -> string -> Z.

(** Sort departments alphabetically, but put "Other" at the end.  The
    comparator answers 1 for "Other" against itself; the keys of a map
    are distinct, so the sort never asks. *)
Definition compareDepartments (a b : string) : Z :=
  if String.eqb a "Other" then 1
  else if String.eqb b "Other" then -1
  else localeCompare a b.

(** The loop that fills [departmentMap]: put employee in each
    department they belong to. *)
Definition addEmployee (departmentMap : list (string * list Employee.t))
    (employee : Employee.t) : list (string * list Employee.t) :=
  foldl (fun m dept =>
           let existing := JS.nullish (JS.map_get dept m) [] in
           JS.map_set dept (existing ++ [employee])%list m)
        departmentMap (Employee.departments employee).

Definition departmentMap (employees : list Employee.t)
  : list (string * list Employee.t) :=
  foldl addEmployee [] employees.

(** Group employees by department. *)
Definition groupByDepartment (employees : list Employee.t)
  : list DepartmentGroup.t :=
  let departmentMap := departmentMap employees in
  let sortedDepts :=
    JS.sort compareDepartments (JS.map_keys departmentMap) in
  map (fun name =>
         {| DepartmentGroup.name := name;
            DepartmentGroup.employees :=
              JS.nullish (JS.map_get name departmentMap) [] |})
      sortedDepts.
End grouping.

Section view.
(** [searchPerson domain page] is the backend call, its parsed body
    cast to [SearchPersonResponse]; [fetchCredits] is the completion
    of the balance refresh a failure triggers.  The clock and the
    random digits are those of the history module.  Toasts are
    display only and left out. *)
Variable searchPerson : string -> Z -> JS.Result SearchPersonResponse.t.
Variable fetchCredits : JS.Result Z.
Variable toISOString : Z -> string.
Variables (idNow : Z) (random : string) (createdNow : Z).
Variable initialDomain : string.

Definition refreshCredits (credits : option Z) : option Z :=
  match fetchCredits with
  | JS.Ok balance => Some balance
  | JS.Throw _ => credits
  end.

Definition toCachedEmployee (e : Employee.t) : CachedEmployee.t :=
  {| CachedEmployee.id := Employee.id e;
     CachedEmployee.firstName := Employee.firstName e;
     CachedEmployee.lastName := Employee.lastName e;
     CachedEmployee.fullName := Employee.fullName e;
     CachedEmployee.jobTitle := Employee.jobTitle e;
     CachedEmployee.departments := Employee.departments e;
     CachedEmployee.linkedinUrl := Employee.linkedinUrl e;
     CachedEmployee.location := Employee.location e;
     CachedEmployee.seniority := Employee.seniority e |}.

(** [searchCompany]: the state and the store once the call has
    settled. *)
Definition searchCompany (searchDomain : string)
    (company : option CompanyInfo.t)
    (st : ViewState.t) (store : LocalStorage.t)
  : ViewState.t * LocalStorage.t :=
  if negb (JS.truthy_string (JS.trim searchDomain)) then (st, store)
  else
    match searchPerson searchDomain 1 with
    | JS.Ok response =>
        let mappedEmployees := mapSearchResponseToEmployees response in
        let pagination := SearchPersonResponse.pagination response in
        let st' :=
          {| ViewState.employees := mappedEmployees;
             ViewState.isLoading := false;
             ViewState.hasSearched := true;
             ViewState.currentPage :=
               JS.nullish (Pagination.page <$> pagination) 1;
             ViewState.totalPages :=
               JS.nullish (Pagination.total_pages <$> pagination) 0;
             ViewState.credits :=
               match SearchPersonResponse.balance response with
               | Some balance => Some balance
               | None => ViewState.credits st
               end;
             ViewState.filterText := ViewState.filterText st |} in
        (* Save to history with employee data *)
        if (0 <? Z.of_nat (length mappedEmployees)) then
          let entry :=
            {| CompanySearchHistoryInput.companyName :=
                 JS.or_string (CompanyInfo.name <$> company) searchDomain;
               CompanySearchHistoryInput.domain := searchDomain;
               CompanySearchHistoryInput.confidenceScore :=
                 JS.nullish (CompanyInfo.confidenceScore <$> company) 100;
               CompanySearchHistoryInput.logoUrl :=
                 company ≫= CompanyInfo.logoUrl;
               CompanySearchHistoryInput.employees :=
                 Some (map toCachedEmployee mappedEmployees);
               CompanySearchHistoryInput.totalPages :=
                 Some (JS.nullish (Pagination.total_pages <$> pagination) 1);
               CompanySearchHistoryInput.currentPage :=
                 Some (JS.nullish (Pagination.page <$> pagination) 1) |} in
          (st', snd (HistoryStorage.addCompanySearchHistoryEntry
                       toISOString idNow random createdNow entry store))
        else (st', store)
    | JS.Throw _ =>
        ({| ViewState.employees := [];
            ViewState.isLoading := false;
            ViewState.hasSearched := true;
            ViewState.currentPage := 0;
            ViewState.totalPages := 0;
            ViewState.credits := refreshCredits (ViewState.credits st);
            ViewState.filterText := ViewState.filterText st |}, store)
    end.

(** [loadMoreEmployees]: the state once the call has settled. *)
Definition loadMoreEmployees (st : ViewState.t) : ViewState.t :=
  let employees := ViewState.employees st in
  let currentPage := ViewState.currentPage st in
  if (ViewState.totalPages st <=? currentPage) || ViewState.isLoading st
  then st
  else
    match searchPerson initialDomain (currentPage + 1) with
    | JS.Ok response =>
        let newMappedEmployees := mapSearchResponseToEmployees response in
        (* Dedupe by employee id *)
        let existingIds : gset string :=
          list_to_set (map Employee.id employees) in
        let newEmployees :=
          filter (fun e => Employee.id e ∉ existingIds) newMappedEmployees in
        {| ViewState.employees := (employees ++ newEmployees)%list;
           ViewState.isLoading := false;
           ViewState.hasSearched := ViewState.hasSearched st;
           ViewState.currentPage :=
             JS.nullish
               (Pagination.page
                  <$> SearchPersonResponse.pagination response)
               (currentPage + 1);
           ViewState.totalPages := ViewState.totalPages st;
           ViewState.credits :=
             match SearchPersonResponse.balance response with
             | Some balance => Some balance
             | None => ViewState.credits st
             end;
           ViewState.filterText := ViewState.filterText st |}
    | JS.Throw _ =>
        {| ViewState.employees := employees;
           ViewState.isLoading := false;
           ViewState.hasSearched := ViewState.hasSearched st;
           ViewState.currentPage := currentPage;
           ViewState.totalPages := ViewState.totalPages st;
           ViewState.credits := refreshCredits (ViewState.credits st);
           ViewState.filterText := ViewState.filterText st |}
    end.
End view.

End CompanyEmployees.

(* ===================================================================== *)
(** ** The lookup flows: EmailFormView and EnrichedEmployeeView          *)
(* ===================================================================== *)

(** The state cells of [EmailFormView]. *)
Module FormState.
Record t : Type := mk {
  credits : option Z;
  isLoading : bool;
  error : option string
}.
End FormState.

(** The state cells of [EnrichedEmployeeView]. *)
Module RevealState.
Record t : Type := mk {
  enrichedData : option EnrichedData.t;
  isLoading : bool;
  error : option string;
  credits : option Z
}.
End RevealState.

Module LookupFlows.

Section flows.
(** [enrichPerson] is the backend call, its parsed body cast to
    [EnrichPersonResponse]; [fetchCredits] is the completion of the
    balance refresh a failure triggers; the clock and the random digits
    are those of the history module.  Toasts are display only and left
    out. *)
Variable enrichPerson :
  string -> string -> string -> JS.Result EnrichPersonResponse.t.
Variable fetchCredits : JS.Result Z.
Variable toISOString : Z -> string.
Variables (idNow : Z) (random : string) (createdNow : Z).

Definition addEntry (entry : SearchHistoryInput.t) (store : LocalStorage.t)
  : LocalStorage.t :=
  snd (HistoryStorage.addSearchHistoryEntry toISOString idNow random
         createdNow entry store).

Definition successEntry (firstName lastName domain : string)
    (enrichedData : EnrichedData.t) : SearchHistoryInput.t :=
  {| SearchHistoryInput.firstName := firstName;
     SearchHistoryInput.lastName := lastName;
     SearchHistoryInput.domain := domain;
     SearchHistoryInput.status := Status.success;
     SearchHistoryInput.email :=
       Some (PersonData.email.email
               (PersonData.email (EnrichedData.person enrichedData)));
     SearchHistoryInput.error := None;
     SearchHistoryInput.enrichedData := Some enrichedData |}.

Definition errorEntry (firstName lastName domain message : string)
  : SearchHistoryInput.t :=
  {| SearchHistoryInput.firstName := firstName;
     SearchHistoryInput.lastName := lastName;
     SearchHistoryInput.domain := domain;
     SearchHistoryInput.status := Status.error;
     SearchHistoryInput.email := None;
     SearchHistoryInput.error := Some message;
     SearchHistoryInput.enrichedData := None |}.

Definition refreshed (credits : option Z) : option Z :=
  match fetchCredits with
  | JS.Ok balance => Some balance
  | JS.Throw _ => credits
  end.

(** [EmailFormView.handleSubmit]: the state and the store once the call
    has settled, and the record handed to the pushed [ResultsView]. *)
Definition handleSubmit (firstName lastName domain : string)
    (st : FormState.t) (store : LocalStorage.t)
  : FormState.t * LocalStorage.t * option EnrichedData.t :=
  let failed (credits : option Z) (message : string) :=
    ({| FormState.credits := refreshed credits;
        FormState.isLoading := false;
        FormState.error := Some message |},
     addEntry (errorEntry firstName lastName domain message) store,
     None) in
  match enrichPerson firstName lastName domain with
  | JS.Ok response =>
      let credits :=
        match EnrichPersonResponse.balance response with
        | Some balance => Some balance
        | None => FormState.credits st
        end in
      match EmailFinder.mapResponseToEnrichedData response domain with
      | Some enrichedData =>
          ({| FormState.credits := credits;
              FormState.isLoading := false;
              FormState.error := None |},
           addEntry (successEntry firstName lastName domain enrichedData)
             store,
           Some enrichedData)
      | None => failed credits "No email found for this person"
      end
  | JS.Throw message => failed (FormState.credits st) message
  end.

(** [EnrichedEmployeeView]'s [fetchEnrichedData]; [cancelled] tells that
    the view was torn down before the call settled. *)
Definition fetchEnrichedData (cancelled : bool) (employee : Employee.t)
    (domain : string) (st : RevealState.t) (store : LocalStorage.t)
  : RevealState.t * LocalStorage.t :=
  let firstName := Employee.firstName employee in
  let lastName := Employee.lastName employee in
  let failed (credits : option Z) (message : string) :=
    ({| RevealState.enrichedData := RevealState.enrichedData st;
        RevealState.isLoading := false;
        RevealState.error := Some message;
        RevealState.credits := refreshed credits |},
     (* Save failed search to history too *)
     addEntry (errorEntry firstName lastName domain message) store) in
  if cancelled then (st, store)
  else
    match enrichPerson firstName lastName domain with
    | JS.Ok response =>
        let credits :=
          match EnrichPersonResponse.balance response with
          | Some balance => Some balance
          | None => RevealState.credits st
          end in
        match CompanyEmployees.mapEnrichResponseToData response domain with
        | Some mappedData =>
            ({| RevealState.enrichedData := Some mappedData;
                RevealState.isLoading := false;
                RevealState.error := RevealState.error st;
                RevealState.credits := credits |},
             (* Save to email search history *)
             addEntry (successEntry firstName lastName domain mappedData)
               store)
        | None => failed credits "No email found for this person"
        end
    | JS.Throw message => failed (RevealState.credits st) message
    end.
End flows.

End LookupFlows.

(* ===================================================================== *)
(** ** search-history.tsx                                                *)
(* ===================================================================== *)

Module FilterType.
Inductive t : Type := all | email | company | success | error.
End FilterType.

(** Department group of the cached view. *)
Module CachedDepartmentGroup.
Record t : Type := mk {
  name : string;
  employees : list CachedEmployee.t
}.
End CachedDepartmentGroup.

Module SearchHistory.

(** [String(n).padStart(2, "0")]. *)
Definition padStart2 (s : string) : string :=
  match String.length s with
  | 0%nat => "00"
  | 1%nat => "0" +:+ s
  | _ => s
  end.

Section relative_time.
(** [getTime s] is [new Date(s).getTime()], [None] for [NaN]; [now] is
    [new Date().getTime()]; [getMonth], [getDate] and [getFullYear] read
    a time in the time zone of the host. *)
Variable getTime : string -> option Z.
Variable now : Z.
Variables getMonth getDate getFullYear : Z -> Z.

(** Format relative time.  With a date that does not parse every
    difference is [NaN], no comparison holds and every part prints as
    ["NaN"]. *)
Definition formatRelativeTime (isoString : string) : string :=
  match getTime isoString with
  | None => "NaN/NaN/NaN"
  | Some date =>
      let diffMs := now - date in
      let diffMins := diffMs / 60000 in
      let diffHours := diffMs / 3600000 in
      let diffDays := diffMs / 86400000 in
      if diffMins <? 1 then "Just now"
      else if diffMins <? 60 then pretty diffMins +:+ "m ago"
      else if diffHours <? 24 then pretty diffHours +:+ "h ago"
      else if diffDays <? 7 then pretty diffDays +:+ "d ago"
      else
        (* Format as MM/DD/YYYY (US English locale-stable) *)
        let month := padStart2 (pretty (getMonth date + 1)) in
        let day := padStart2 (pretty (getDate date)) in
        let year := getFullYear date in
        month +:+ "/" +:+ day +:+ "/" +:+ pretty year
  end.
End relative_time.

(** Type guards: [entry.type] is the [type] key of the stored object. *)
Definition isEmailEntry (entry : HistoryEntry.t) : bool :=
  match HistoryEntry.type entry with
  | Some type => String.eqb type "email"
  | None => true
  end.

Definition isCompanyEntry (entry : HistoryEntry.t) : bool :=
  match HistoryEntry.type entry with
  | Some type => String.eqb type "company"
  | None => false
  end.

(** [entry.status === filter], for the filters "success" and "error";
    a company entry has no [status]. *)
Definition statusIs (filter : FilterType.t) (entry : HistoryEntry.t) : bool :=
  match entry, filter with
  | HistoryEntry.Email e, FilterType.success =>
      match SearchHistoryEntry.status e with
      | Status.success => true
      | Status.error => false
      end
  | HistoryEntry.Email e, FilterType.error =>
      match SearchHistoryEntry.status e with
      | Status.success => false
      | Status.error => true
      end
  | _, _ => false
  end.

(** Filter entries based on dropdown selection. *)
Definition filteredEntries (filter : FilterType.t)
    (entries : list HistoryEntry.t) : list HistoryEntry.t :=
  List.filter
    (fun entry =>
       match filter with
       | FilterType.all => true
       | FilterType.email => isEmailEntry entry
       | FilterType.company => isCompanyEntry entry
       | _ => if isEmailEntry entry then statusIs filter entry else false
       end)
    entries.

Definition entryId (entry : HistoryEntry.t) : string :=
  match entry with
  | HistoryEntry.Email e => SearchHistoryEntry.id e
  | HistoryEntry.Company c => CompanySearchHistoryEntry.id c
  end.

Definition handleRemove (entry : HistoryEntry.t) (store : LocalStorage.t)
  : LocalStorage.t :=
  if isCompanyEntry entry
  then HistoryStorage.removeCompanySearchHistoryEntry (entryId entry) store
  else HistoryStorage.removeSearchHistoryEntry (entryId entry) store.

(** [confirmed] is the answer to the alert. *)
Definition handleClearAll (confirmed : bool) (store : LocalStorage.t)
  : LocalStorage.t :=
  if confirmed
  then HistoryStorage.clearCompanySearchHistory
         (HistoryStorage.clearSearchHistory store)
  else store.

Section grouping.
Variable localeCompare : string -> string -> Z.

(** The comparator of the cached view, "Other" at the end. *)
Definition compareDepartments (a b : string) : Z :=
  if String.eqb a "Other" then 1
  else if String.eqb b "Other" then -1
  else localeCompare a b.

(** The loop that fills [departmentMap] in the cached view. *)
Definition addEmployee (departmentMap : list (string * list CachedEmployee.t))
    (employee : CachedEmployee.t) : list (string * list CachedEmployee.t) :=
  foldl (fun m dept =>
           let existing := JS.nullish (JS.map_get dept m) [] in
           JS.map_set dept (existing ++ [employee])%list m)
        departmentMap (CachedEmployee.departments employee).

Definition departmentMap (employees : list CachedEmployee.t)
  : list (string * list CachedEmployee.t) :=
  foldl addEmployee [] employees.

(** Group employees by department, for [CachedCompanyEmployeesView]. *)
Definition groupByDepartment (employees : list CachedEmployee.t)
  : list CachedDepartmentGroup.t :=
  let departmentMap := departmentMap employees in
  let sortedDepts :=
    JS.sort compareDepartments (JS.map_keys departmentMap) in
  map (fun name =>
         {| CachedDepartmentGroup.name := name;
            CachedDepartmentGroup.employees :=
              JS.nullish (JS.map_get name departmentMap) [] |})
      sortedDepts.
End grouping.

End SearchHistory.

(* ===================================================================== *)
(** ** A reference host                                                  *)
(* ===================================================================== *)

(** One host the parameters can be read in: strings collate by character
    code, and a date is read from the 24 characters [toISOString] writes
    ([YYYY-MM-DDTHH:mm:ss.sssZ]). *)
Module ReferenceHost.

Fixpoint ordinalCompare (a b : string) : Z :=
  match a, b with
  | EmptyString, EmptyString => 0
  | EmptyString, String _ _ => -1
  | String _ _, EmptyString => 1
  | String x a', String y b' =>
      let d := Z.of_nat (nat_of_ascii x) - Z.of_nat (nat_of_ascii y) in
      if d =? 0 then ordinalCompare a' b' else d
  end.

Definition digit (a : ascii) : option Z :=
  let n := Z.of_nat (nat_of_ascii a) in
  if (48 <=? n) && (n <=? 57) then Some (n - 48) else None.

Fixpoint digits (acc : Z) (l : list ascii) : option Z :=
  match l with
  | [] => Some acc
  | a :: l' => d ← digit a; digits (10 * acc + d) l'
  end.

(** Days from 1970-01-01 to the civil date [y]-[m]-[d]. *)
Definition daysFromCivil (y m d : Z) : Z :=
  let y' := if m <=? 2 then y - 1 else y in
  let era := y' / 400 in
  let yoe := y' - era * 400 in
  let doy := (153 * ((m + 9) mod 12) + 2) / 5 + d - 1 in
  let doe := yoe * 365 + yoe / 4 - yoe / 100 + doy in
  era * 146097 + doe - 719468.

Definition isChar (c : string) (a : ascii) : bool :=
  String.eqb c (String a EmptyString).

Definition parseISO (s : string) : option Z :=
  match list_ascii_of_string s with
  | [y1; y2; y3; y4; p1; m1; m2; p2; d1; d2; t; h1; h2; c1; n1; n2; c2;
     s1; s2; dot; f1; f2; f3; z] =>
      if isChar "-" p1 && isChar "-" p2 && isChar "T" t && isChar ":" c1
         && isChar ":" c2 && isChar "." dot && isChar "Z" z
      then
        year ← digits 0 [y1; y2; y3; y4];
        month ← digits 0 [m1; m2];
        day ← digits 0 [d1; d2];
        hours ← digits 0 [h1; h2];
        minutes ← digits 0 [n1; n2];
        seconds ← digits 0 [s1; s2];
        millis ← digits 0 [f1; f2; f3];
        if (1 <=? month) && (month <=? 12) && (1 <=? day) && (day <=? 31)
           && (hours <=? 23) && (minutes <=? 59) && (seconds <=? 59)
        then
          Some ((((daysFromCivil year month day * 24 + hours) * 60 + minutes)
                 * 60 + seconds) * 1000 + millis)
        else None
      else None
  | _ => None
  end.

End ReferenceHost.

(* ===================================================================== *)
(** ** Sample data                                                       *)
(* ===================================================================== *)

Module Sample.

Definition person (id : string) (jobs : option (list SearchPersonJob.t))
  : SearchResultItem.t :=
  SearchResultItem.mk
  {| SearchPersonResult.person_id := id;
     SearchPersonResult.first_name := id;
     SearchPersonResult.last_name := "Doe";
     SearchPersonResult.full_name := id +:+ " Doe";
     SearchPersonResult.headline := None;
     SearchPersonResult.linkedin_url := None;
     SearchPersonResult.current_job_title := None;
     SearchPersonResult.job_history := jobs;
     SearchPersonResult.location := None |}.

Definition page (people : list SearchResultItem.t)
    (pagination : option Pagination.t) : SearchPersonResponse.t :=
  {| SearchPersonResponse.error := None;
     SearchPersonResponse.error_code := None;
     SearchPersonResponse.message := None;
     SearchPersonResponse.balance := Some 41;
     SearchPersonResponse.results := Some people;
     SearchPersonResponse.pagination := pagination |}.

Definition employee (id : string) (departments : list string) : Employee.t :=
  {| Employee.id := id;
     Employee.firstName := id;
     Employee.lastName := "Doe";
     Employee.fullName := id +:+ " Doe";
     Employee.jobTitle := "";
     Employee.departments := departments;
     Employee.linkedinUrl := None;
     Employee.location := None;
     Employee.seniority := None |}.

(** The view after page 1 of 2 brought the employees a and b. *)
Definition afterPage1 : ViewState.t :=
  {| ViewState.employees := [employee "a" ["Other"]; employee "b" ["Other"]];
     ViewState.isLoading := false;
     ViewState.hasSearched := true;
     ViewState.currentPage := 1;
     ViewState.totalPages := 2;
     ViewState.credits := Some 42;
     ViewState.filterText := "" |}.

(** Page 2 of 2 brings b again, and c. *)
Definition page2 : SearchPersonResponse.t :=
  page [person "b" None; person "c" None]
       (Some {| Pagination.total_results := 3;
                Pagination.page := 2;
                Pagination.total_pages := 2 |}).

(** A page 2 whose metadata announce 5 pages in all. *)
Definition page2of5 : SearchPersonResponse.t :=
  page [person "c" None]
       (Some {| Pagination.total_results := 9;
                Pagination.page := 2;
                Pagination.total_pages := 5 |}).

(** A page without pagination metadata. *)
Definition bare : SearchPersonResponse.t := page [person "c" None] None.

(** The view before any search. *)
Definition initial : ViewState.t :=
  {| ViewState.employees := [];
     ViewState.isLoading := false;
     ViewState.hasSearched := false;
     ViewState.currentPage := 0;
     ViewState.totalPages := 0;
     ViewState.credits := None;
     ViewState.filterText := "" |}.

Definition emptyStore : LocalStorage.t :=
  {| LocalStorage.search_history := None;
     LocalStorage.company_search_history := None |}.

(** A stored email entry from before the [type] field, created at
    t = 10, and a company entry created at t = 20. *)
Definition legacyEmailEntry : SearchHistoryEntry.t :=
  {| SearchHistoryEntry.id := "10-aaaaaaa";
     SearchHistoryEntry.type := None;
     SearchHistoryEntry.firstName := "Ada";
     SearchHistoryEntry.lastName := "Lovelace";
     SearchHistoryEntry.domain := "acme.com";
     SearchHistoryEntry.createdAt := "1970-01-01T00:00:00.010Z";
     SearchHistoryEntry.status := Status.success;
     SearchHistoryEntry.email := Some "ada@acme.com";
     SearchHistoryEntry.error := None;
     SearchHistoryEntry.enrichedData := None |}.

Definition companyEntry : CompanySearchHistoryEntry.t :=
  {| CompanySearchHistoryEntry.id := "20-bbbbbbb";
     CompanySearchHistoryEntry.type := "company";
     CompanySearchHistoryEntry.companyName := "Acme";
     CompanySearchHistoryEntry.domain := "acme.com";
     CompanySearchHistoryEntry.confidenceScore := 100;
     CompanySearchHistoryEntry.logoUrl := None;
     CompanySearchHistoryEntry.createdAt := "1970-01-01T00:00:00.020Z";
     CompanySearchHistoryEntry.employees := None;
     CompanySearchHistoryEntry.totalPages := None;
     CompanySearchHistoryEntry.currentPage := None |}.

Definition history : LocalStorage.t :=
  {| LocalStorage.search_history :=
       Some (LocalStorage.Json [legacyEmailEntry]);
     LocalStorage.company_search_history :=
       Some (LocalStorage.Json [companyEntry]) |}.

(** A store whose two logs are full. *)
Definition fullHistory : LocalStorage.t :=
  {| LocalStorage.search_history :=
       Some (LocalStorage.Json (replicate 100 legacyEmailEntry));
     LocalStorage.company_search_history :=
       Some (LocalStorage.Json (replicate 100 companyEntry)) |}.

Definition failedLookup : SearchHistoryInput.t :=
  {| SearchHistoryInput.firstName := "Grace";
     SearchHistoryInput.lastName := "Hopper";
     SearchHistoryInput.domain := "acme.com";
     SearchHistoryInput.status := Status.error;
     SearchHistoryInput.email := None;
     SearchHistoryInput.error := Some "No email found for this person";
     SearchHistoryInput.enrichedData := None |}.

Definition companyLookup : CompanySearchHistoryInput.t :=
  {| CompanySearchHistoryInput.companyName := "Acme";
     CompanySearchHistoryInput.domain := "acme.com";
     CompanySearchHistoryInput.confidenceScore := 100;
     CompanySearchHistoryInput.logoUrl := None;
     CompanySearchHistoryInput.employees := Some [];
     CompanySearchHistoryInput.totalPages := Some 1;
     CompanySearchHistoryInput.currentPage := Some 1 |}.

(** Enrichment responses: a person whose email record is as given, and
    a fully described company. *)
Definition rawEmail (address : option string) : EnrichPersonResponse.email.t :=
  {| EnrichPersonResponse.email.status := "VERIFIED";
     EnrichPersonResponse.email.email := address;
     EnrichPersonResponse.email.email_mx_provider := Some "Google" |}.

Definition rawPerson (email : option EnrichPersonResponse.email.t)
  : EnrichPersonResponse.person.t :=
  {| EnrichPersonResponse.person.first_name := "Ada";
     EnrichPersonResponse.person.last_name := "Lovelace";
     EnrichPersonResponse.person.full_name := "Ada Lovelace";
     EnrichPersonResponse.person.headline := Some "Engineer at Acme";
     EnrichPersonResponse.person.linkedin_url :=
       Some "https://linkedin.com/in/ada";
     EnrichPersonResponse.person.current_job_title := Some "Engineer";
     EnrichPersonResponse.person.job_history := Some [];
     EnrichPersonResponse.person.mobile :=
       Some {| Mobile.status := "VERIFIED";
               Mobile.mobile_international := Some "+44 20 7946 0000";
               Mobile.mobile_country := Some "GB" |};
     EnrichPersonResponse.person.email := email;
     EnrichPersonResponse.person.location :=
       Some {| PersonLocation.country := "United Kingdom";
               PersonLocation.city := "London";
               PersonLocation.state := None;
               PersonLocation.country_code := Some "GB" |} |}.

Definition rawCompany : EnrichPersonResponse.company.t :=
  {| EnrichPersonResponse.company.name := Some "Acme Corporation";
     EnrichPersonResponse.company.website := Some "https://www.acme.com";
     EnrichPersonResponse.company.domain := Some "acme.com";
     EnrichPersonResponse.company.type := Some "Private";
     EnrichPersonResponse.company.industry := Some "Manufacturing";
     EnrichPersonResponse.company.description_ai := None;
     EnrichPersonResponse.company.employee_range := Some "51-200";
     EnrichPersonResponse.company.employee_count := Some 120;
     EnrichPersonResponse.company.founded := Some 1949;
     EnrichPersonResponse.company.linkedin_url := None;
     EnrichPersonResponse.company.twitter_url := None;
     EnrichPersonResponse.company.logo_url := Some "acme.png";
     EnrichPersonResponse.company.location := None;
     EnrichPersonResponse.company.revenue_range_printed := None;
     EnrichPersonResponse.company.funding := None;
     EnrichPersonResponse.company.keywords := Some ["anvils"] |}.

Definition enriched (person : option EnrichPersonResponse.person.t)
    (company : option EnrichPersonResponse.company.t)
  : EnrichPersonResponse.t :=
  {| EnrichPersonResponse.error := None;
     EnrichPersonResponse.error_code := None;
     EnrichPersonResponse.message := None;
     EnrichPersonResponse.balance := Some 41;
     EnrichPersonResponse.person := person;
     EnrichPersonResponse.company := company |}.

(** The preferences of a configured user, and the response of the
    backend to a paid lookup when 3 credits are left. *)
Definition prefs : Preferences.t := {| Preferences.apiKey := Some " sk-test " |}.

Definition insufficientBody : list (string * Json.t) :=
  [("error", Json.Bool true);
   ("error_code", Json.Str "INSUFFICIENT_CREDITS");
   ("message", Json.Str "Insufficient credits");
   ("balance", Json.Num 3)].

Definition insufficient : HttpResponse.t :=
  {| HttpResponse.status := 402;
     HttpResponse.json := JS.Ok (Json.Obj insufficientBody) |}.

(** Employees of several departments. *)
Definition staff : list Employee.t :=
  [employee "a" ["Sales"; "Marketing"]; employee "b" ["Other"];
   employee "c" ["Sales"]].

(** Employees whose departments come up as Other, Zeta, Alpha. *)
Definition roster : list Employee.t :=
  [employee "o" ["Other"]; employee "z" ["Zeta"]; employee "al" ["Alpha"]].

End Sample.

(* ===================================================================== *)
(** ** More sample data                                                  *)
(* ===================================================================== *)

Module Fixture.

(** Preferences without a usable key. *)
Definition blankPrefs : Preferences.t := {| Preferences.apiKey := Some "   " |}.

(** A failure of the backend that names its reason, and one that does
    not. *)
Definition serverErrorBody : list (string * Json.t) :=
  [("error", Json.Bool true); ("message", Json.Str "Rate limit exceeded")].

Definition serverError : HttpResponse.t :=
  {| HttpResponse.status := 429;
     HttpResponse.json := JS.Ok (Json.Obj serverErrorBody) |}.

Definition silentError : HttpResponse.t :=
  {| HttpResponse.status := 500; HttpResponse.json := JS.Ok (Json.Obj []) |}.

(** The balance as the credits endpoint answers it. *)
Definition creditsBody : Json.t :=
  Json.Obj [("balance", Json.Num 42);
            ("created_at", Json.Str "2024-01-01T00:00:00.000Z");
            ("updated_at", Json.Str "2024-06-01T00:00:00.000Z")].

Definition creditsResponse : HttpResponse.t :=
  {| HttpResponse.status := 200; HttpResponse.json := JS.Ok creditsBody |}.

(** An answer of the autocomplete service with two companies. *)
Definition acme : Json.t :=
  Json.Obj [("name", Json.Str "Acme"); ("domain", Json.Str "acme.com");
            ("confidence_score", Json.Num 95);
            ("logo_url", Json.Str "https://logo.example/acme.png")].

Definition acmeLabs : Json.t :=
  Json.Obj [("name", Json.Str "Acme Labs"); ("domain", Json.Str "acmelabs.io");
            ("confidence_score", Json.Num 60)].

Definition autocompleteResponse : HttpResponse.t :=
  {| HttpResponse.status := 200;
     HttpResponse.json :=
       JS.Ok (Json.Obj [("status", Json.Str "success");
                        ("data", Json.Arr [acme; acmeLabs])]) |}.

(** A company entry with another id, and a store whose company log
    lists both. *)
Definition otherCompanyEntry : CompanySearchHistoryEntry.t :=
  {| CompanySearchHistoryEntry.id := "15-ccccccc";
     CompanySearchHistoryEntry.type := "company";
     CompanySearchHistoryEntry.companyName := "Globex";
     CompanySearchHistoryEntry.domain := "globex.com";
     CompanySearchHistoryEntry.confidenceScore := 80;
     CompanySearchHistoryEntry.logoUrl := None;
     CompanySearchHistoryEntry.createdAt := "1970-01-01T00:00:00.015Z";
     CompanySearchHistoryEntry.employees := None;
     CompanySearchHistoryEntry.totalPages := None;
     CompanySearchHistoryEntry.currentPage := None |}.

Definition twoCompanies : LocalStorage.t :=
  {| LocalStorage.search_history :=
       Some (LocalStorage.Json [Sample.legacyEmailEntry]);
     LocalStorage.company_search_history :=
       Some (LocalStorage.Json [Sample.companyEntry; otherCompanyEntry]) |}.

(** An update that attaches an employee snapshot of two pages. *)
Definition snapshot : CompanySearchHistoryUpdate.t :=
  {| CompanySearchHistoryUpdate.companyName := None;
     CompanySearchHistoryUpdate.domain := None;
     CompanySearchHistoryUpdate.confidenceScore := None;
     CompanySearchHistoryUpdate.logoUrl := None;
     CompanySearchHistoryUpdate.employees := Some (Some []);
     CompanySearchHistoryUpdate.totalPages := Some (Some 2);
     CompanySearchHistoryUpdate.currentPage := Some (Some 1) |}.

(** A company entry created at the time of the email entry, and a store
    that holds the two. *)
Definition sameTimeCompanyEntry : CompanySearchHistoryEntry.t :=
  {| CompanySearchHistoryEntry.id := "10-ddddddd";
     CompanySearchHistoryEntry.type := "company";
     CompanySearchHistoryEntry.companyName := "Initech";
     CompanySearchHistoryEntry.domain := "initech.com";
     CompanySearchHistoryEntry.confidenceScore := 70;
     CompanySearchHistoryEntry.logoUrl := None;
     CompanySearchHistoryEntry.createdAt := "1970-01-01T00:00:00.010Z";
     CompanySearchHistoryEntry.employees := None;
     CompanySearchHistoryEntry.totalPages := None;
     CompanySearchHistoryEntry.currentPage := None |}.

Definition tiedHistory : LocalStorage.t :=
  {| LocalStorage.search_history :=
       Some (LocalStorage.Json [Sample.legacyEmailEntry]);
     LocalStorage.company_search_history :=
       Some (LocalStorage.Json [sameTimeCompanyEntry]) |}.

(** A person with a past job and two jobs flagged current. *)
Definition pastJob : SearchPersonJob.t :=
  {| SearchPersonJob.title := "Intern";
     SearchPersonJob.company_name := "Globex";
     SearchPersonJob.current := false;
     SearchPersonJob.seniority := Some "Entry";
     SearchPersonJob.departments := Some ["Support"] |}.

Definition salesJob : SearchPersonJob.t :=
  {| SearchPersonJob.title := "Account Executive";
     SearchPersonJob.company_name := "Acme";
     SearchPersonJob.current := true;
     SearchPersonJob.seniority := Some "Senior";
     SearchPersonJob.departments := Some ["Sales"; "Marketing"] |}.

Definition boardJob : SearchPersonJob.t :=
  {| SearchPersonJob.title := "Advisor";
     SearchPersonJob.company_name := "Initech";
     SearchPersonJob.current := true;
     SearchPersonJob.seniority := None;
     SearchPersonJob.departments := Some ["Board"] |}.

Definition busyPage : SearchPersonResponse.t :=
  Sample.page [Sample.person "d" (Some [pastJob; salesJob; boardJob]);
               Sample.person "e" (Some [pastJob])]
    None.

End Fixture.

(* ===================================================================== *)
(** ** Pagination: accumulation of pages                                 *)
(* ===================================================================== *)

Section accumulation.
Import CompanyEmployees.

Variable searchPerson : string -> Z -> JS.Result SearchPersonResponse.t.
Variable fetchCredits : JS.Result Z.
Variable initialDomain : string.

Local Abbreviation loadMore :=
  (loadMoreEmployees searchPerson fetchCredits initialDomain).

(** The employees a settled load-more leaves in the view. *)
Lemma loadMoreEmployees_employees (st : ViewState.t) response :
  ViewState.currentPage st < ViewState.totalPages st ->
  ViewState.isLoading st = false ->
  searchPerson initialDomain (ViewState.currentPage st + 1) = JS.Ok response ->
  ViewState.employees (loadMore st) =
    (ViewState.employees st ++
     filter (fun e => Employee.id e ∉ Employee.id <$> ViewState.employees st)
            (mapSearchResponseToEmployees response))%list.
Proof.
  intros Hpage Hidle Hfetch. unfold loadMoreEmployees.
  rewrite Hidle, Hfetch, orb_false_r.
  destruct (Z.leb_spec (ViewState.totalPages st) (ViewState.currentPage st));
    [lia |]. cbn [ViewState.employees]. f_equal.
  apply list_filter_iff. intros e. by rewrite elem_of_list_to_set.
Qed.

(** C1: a settled load-more keeps the accumulated employees, in their
    order, as a prefix and appends after them, in the order of the
    fetched page, exactly the fetched employees whose id no accumulated
    employee has; nothing is re-sorted.  In particular employees a, b
    followed by a page b, c give a, b, c. *)
Theorem loadMoreEmployees_appends_unseen (st : ViewState.t) response :
  ViewState.currentPage st < ViewState.totalPages st ->
  ViewState.isLoading st = false ->
  searchPerson initialDomain (ViewState.currentPage st + 1) = JS.Ok response ->
  let old := ViewState.employees st in
  let fetched := mapSearchResponseToEmployees response in
  let new :=
    ViewState.employees
      (loadMoreEmployees searchPerson fetchCredits initialDomain st) in
  exists added : list Employee.t,
    new = (old ++ added)%list /\
    take (length old) new = old /\
    sublist added fetched /\
    (forall e, e ∈ added <->
               e ∈ fetched /\ Employee.id e ∉ Employee.id <$> old) /\
    added = filter (fun e => Employee.id e ∉ Employee.id <$> old) fetched /\
    (forall a b b' c : Employee.t,
        Employee.id a = "a" -> Employee.id b = "b" ->
        Employee.id b' = "b" -> Employee.id c = "c" ->
        old = [a; b] -> fetched = [b'; c] -> new = [a; b; c]).
Proof.
  intros Hpage Hidle Hfetch old fetched new.
  pose proof (loadMoreEmployees_employees st response Hpage Hidle Hfetch)
    as Hnew.
  fold old fetched new in Hnew.
  exists (filter (fun e => Employee.id e ∉ Employee.id <$> old) fetched).
  split; [exact Hnew |]. split; [by rewrite Hnew, take_app_length |].
  split; [apply sublist_filter |].
  split; [intros e; by rewrite list_elem_of_filter, (comm and) |].
  split; [reflexivity |].
  intros a b b' c Ha Hb Hb' Hc Hold Hfetched.
  rewrite Hnew, Hold, Hfetched. cbn [fmap list_fmap].
  rewrite Ha, Hb. f_equal. f_equal.
  rewrite filter_cons_False, filter_cons_True, filter_nil; [done | |].
  - rewrite Hc. compute_done.
  - rewrite Hb'. intros Hnot. apply Hnot. compute_done.
Qed.
End accumulation.

Lemma loadMoreEmployees_appends_unseen_witness :
  ViewState.employees
    (CompanyEmployees.loadMoreEmployees
       (fun _ _ => JS.Ok Sample.page2) (JS.Throw "offline") "acme.com"
       Sample.afterPage1)
  = [Sample.employee "a" ["Other"]; Sample.employee "b" ["Other"];
     Sample.employee "c" ["Other"]].
Proof.
  destruct (loadMoreEmployees_appends_unseen
              (fun _ _ => JS.Ok Sample.page2) (JS.Throw "offline") "acme.com"
              Sample.afterPage1 Sample.page2 eq_refl eq_refl eq_refl)
    as (added & _ & _ & _ & _ & _ & Hex).
  exact (Hex (Sample.employee "a" ["Other"]) (Sample.employee "b" ["Other"])
             (Sample.employee "b" ["Other"]) (Sample.employee "c" ["Other"])
             eq_refl eq_refl eq_refl eq_refl eq_refl eq_refl).
Defined.

(* ===================================================================== *)
(** ** The sort of the host                                              *)
(* ===================================================================== *)

Section sort_facts.
Context {A : Type} (comparefn : A -> A -> Z).

Lemma sort_insert_perm (x : A) (l : list A) :
  JS.sort_insert comparefn x l ≡ₚ x :: l.
Proof.
  induction l as [| y l IH]; cbn; [done |].
  destruct (comparefn x y <=? 0); [done |].
  rewrite IH. apply Permutation_swap.
Qed.

Lemma sort_perm (l : list A) : JS.sort comparefn l ≡ₚ l.
Proof.
  induction l as [| x l IH]; cbn; [done |].
  fold (JS.sort comparefn l). by rewrite sort_insert_perm, IH.
Qed.

Lemma sort_elem_of (x : A) (l : list A) : x ∈ JS.sort comparefn l <-> x ∈ l.
Proof. by rewrite sort_perm. Qed.

Lemma sort_length (l : list A) : length (JS.sort comparefn l) = length l.
Proof. by rewrite sort_perm. Qed.

(** On elements that satisfy [P], let the comparator agree with a
    transitive relation [R]: a non-positive result puts the arguments in
    [R], a positive one puts them in [R] the other way round.  Then the
    sort of a list of such elements is sorted by [R]. *)
Context (P : A -> Prop) (R : relation A).
Hypothesis R_trans : Transitive R.
Hypothesis comparefn_le : forall x y, P x -> P y -> comparefn x y <= 0 -> R x y.
Hypothesis comparefn_gt : forall x y, P x -> P y -> 0 < comparefn x y -> R y x.

Lemma sort_insert_sorted (x : A) (l : list A) :
  P x -> Forall P l -> StronglySorted R l ->
  StronglySorted R (JS.sort_insert comparefn x l).
Proof.
  intros Hx HP Hsorted. induction Hsorted as [| y l Hl IH Hy]; cbn.
  - repeat constructor.
  - apply Forall_cons in HP as [Py HPl].
    destruct (Z.leb_spec (comparefn x y) 0) as [Hle | Hgt].
    + pose proof (comparefn_le x y Hx Py Hle) as Rxy.
      constructor; [by constructor |].
      constructor; [done |].
      eapply Forall_impl; [exact Hy |]. intros z Ryz. by etrans.
    + constructor; [by apply IH |].
      rewrite sort_insert_perm. constructor; [| done].
      by apply comparefn_gt.
Qed.

Lemma sort_sorted (l : list A) :
  Forall P l -> StronglySorted R (JS.sort comparefn l).
Proof.
  induction l as [| x l IH]; cbn; intros HP; [constructor |].
  apply Forall_cons in HP as [Px HPl]. fold (JS.sort comparefn l).
  apply sort_insert_sorted; [done | by rewrite sort_perm | by apply IH].
Qed.
End sort_facts.

(* ===================================================================== *)
(** ** The insertion-ordered map                                         *)
(* ===================================================================== *)

Section map_facts.
Context {V : Type}.
Implicit Types (m : list (string * V)) (k d : string) (v : V).

Lemma map_get_set m k v d :
  JS.map_get d (JS.map_set k v m) =
  if decide (k = d) then Some v else JS.map_get d m.
Proof.
  induction m as [| [k' v'] m IH]; cbn.
  - destruct (String.eqb_spec k d); by case_decide.
  - destruct (String.eqb_spec k' k) as [-> | Hk]; cbn.
    + destruct (String.eqb_spec k d); by case_decide.
    + rewrite IH. destruct (String.eqb_spec k' d) as [-> | Hd]; [| done].
      case_decide; [by subst | done].
Qed.

Lemma map_get_is_Some m d : is_Some (JS.map_get d m) <-> d ∈ JS.map_keys m.
Proof.
  induction m as [| [k v] m IH]; cbn.
  - rewrite elem_of_nil. split; [by intros [? ?] | done].
  - rewrite elem_of_cons. destruct (String.eqb_spec k d) as [-> | Hd].
    + split; [by left | by eexists].
    + rewrite IH. unfold JS.map_keys. split; [by right |].
      by intros [-> | ?].
Qed.

Lemma map_keys_set m k v :
  JS.map_keys (JS.map_set k v m) =
  if decide (k ∈ JS.map_keys m) then JS.map_keys m
  else (JS.map_keys m ++ [k])%list.
Proof.
  unfold JS.map_keys. induction m as [| [k' v'] m IH]; cbn.
  - rewrite decide_False; [done | apply not_elem_of_nil].
  - destruct (String.eqb_spec k' k) as [-> | Hk]; cbn.
    + rewrite decide_True; [done | by left].
    + rewrite IH. destruct (decide (k ∈ map fst m)) as [Hin | Hin].
      * rewrite decide_True; [done | by right].
      * rewrite decide_False; [done |].
        intros [-> | ?]%elem_of_cons; done.
Qed.

Lemma map_keys_set_elem_of m k v d :
  d ∈ JS.map_keys (JS.map_set k v m) <-> d = k \/ d ∈ JS.map_keys m.
Proof.
  rewrite map_keys_set. case_decide.
  - split; [by right | by intros [-> | ?]].
  - rewrite elem_of_app, list_elem_of_singleton. tauto.
Qed.

Lemma map_keys_set_NoDup m k v :
  NoDup (JS.map_keys m) -> NoDup (JS.map_keys (JS.map_set k v m)).
Proof.
  intros Hnd. rewrite map_keys_set. case_decide as Hin; [done |].
  apply NoDup_app. split_and!; [done | | apply NoDup_singleton].
  intros x Hx ->%list_elem_of_singleton. done.
Qed.
End map_facts.

(* ===================================================================== *)
(** ** Grouping by department: the department map                        *)
(* ===================================================================== *)

Section department_map.
Import CompanyEmployees.
Implicit Types (m : list (string * list Employee.t)) (e : Employee.t).
Implicit Types (d : string) (es : list Employee.t).

(** The array a department maps to, empty for a missing key, and the
    copies of an employee one department receives. *)
Local Abbreviation bucket d m := (JS.nullish (JS.map_get d m) []).
Local Abbreviation copies d :=
  (fun e => (fun _ : string => e) <$> filter (fun x => x = d) (Employee.departments e)).

Lemma bucket_set m k (v : list Employee.t) d :
  bucket d (JS.map_set k v m) = if decide (k = d) then v else bucket d m.
Proof. rewrite map_get_set. by case_decide. Qed.

Lemma addEmployee_bucket m e d :
  bucket d (addEmployee m e) = (bucket d m ++ copies d e)%list.
Proof.
  unfold addEmployee. generalize m.
  induction (Employee.departments e) as [| x ds IH]; intros m0; cbn.
  - by rewrite app_nil_r.
  - rewrite IH, bucket_set.
    destruct (decide (x = d)) as [-> | Hne]; [| done].
    by rewrite <- app_assoc.
Qed.

Lemma foldl_addEmployee_bucket es m d :
  bucket d (foldl addEmployee m es) = (bucket d m ++ (es ≫= copies d))%list.
Proof.
  revert m. induction es as [| e es IH]; intros m; cbn.
  - by rewrite app_nil_r.
  - by rewrite IH, addEmployee_bucket, <- app_assoc.
Qed.

(** An employee is in the array of a department exactly when it is one
    of the grouped employees and lists that department. *)
Lemma elem_of_bucket es e d :
  e ∈ bucket d (departmentMap es) <-> e ∈ es /\ d ∈ Employee.departments e.
Proof.
  unfold departmentMap. rewrite foldl_addEmployee_bucket. cbn.
  rewrite list_elem_of_bind. split.
  - intros (e' & Hin & He').
    apply list_elem_of_fmap in Hin as (x & -> & Hx).
    by apply list_elem_of_filter in Hx as [-> Hx].
  - intros [He Hd]. exists e. split; [| done].
    apply list_elem_of_fmap. exists d. split; [done |].
    by apply list_elem_of_filter.
Qed.

Lemma addEmployee_keys m e d :
  d ∈ JS.map_keys (addEmployee m e) <->
  d ∈ JS.map_keys m \/ d ∈ Employee.departments e.
Proof.
  unfold addEmployee. generalize m.
  induction (Employee.departments e) as [| x ds IH]; intros m0; cbn.
  - rewrite elem_of_nil. tauto.
  - etrans; [apply IH |].
    rewrite map_keys_set_elem_of, elem_of_cons. tauto.
Qed.

Lemma addEmployee_NoDup m e :
  NoDup (JS.map_keys m) -> NoDup (JS.map_keys (addEmployee m e)).
Proof.
  unfold addEmployee. generalize m.
  induction (Employee.departments e) as [| x ds IH]; intros m0 Hnd; cbn.
  - done.
  - by apply IH, map_keys_set_NoDup.
Qed.

(** The keys of the map are the departments some employee lists, each
    once. *)
Lemma departmentMap_keys es d :
  d ∈ JS.map_keys (departmentMap es) <->
  exists e, e ∈ es /\ d ∈ Employee.departments e.
Proof.
  unfold departmentMap.
  assert (forall m, d ∈ JS.map_keys (foldl addEmployee m es) <->
                    d ∈ JS.map_keys m \/
                    exists e, e ∈ es /\ d ∈ Employee.departments e) as Hgen.
  { induction es as [| e es IH]; intros m; cbn.
    - split; [by left |]. intros [? | (e & []%elem_of_nil & _)]; done.
    - etrans; [apply IH |]. rewrite addEmployee_keys. split.
      + intros [[? | ?] | (e' & ? & ?)]; [by left | right | right].
        * exists e. split; [by left | done].
        * exists e'. split; [by right | done].
      + intros [? | (e' & [-> | ?]%elem_of_cons & ?)];
          [by left; left | by left; right | right; by exists e']. }
  rewrite Hgen. cbn. rewrite elem_of_nil. tauto.
Qed.

Lemma departmentMap_NoDup es : NoDup (JS.map_keys (departmentMap es)).
Proof.
  unfold departmentMap.
  assert (forall m, NoDup (JS.map_keys m) ->
                    NoDup (JS.map_keys (foldl addEmployee m es))) as Hgen.
  { induction es as [| e es IH]; intros m Hnd; cbn; [done |].
    by apply IH, addEmployee_NoDup. }
  apply Hgen. constructor.
Qed.
End department_map.

(* ===================================================================== *)
(** ** Grouping by department: membership                                *)
(* ===================================================================== *)

Lemma filter_fmap_comm {A B : Type} (f : A -> B) (P : B -> Prop)
    `{!forall y, Decision (P y)} (l : list A) :
  filter P (f <$> l) = f <$> filter (fun x => P (f x)) l.
Proof.
  induction l as [| x l IH]; [done |].
  rewrite fmap_cons, !filter_cons, IH. by destruct (decide (P (f x))).
Qed.

Section membership.
Import CompanyEmployees.
Variable localeCompare : string -> string -> Z.
Implicit Types (e : Employee.t) (es : list Employee.t) (d : string).

Local Abbreviation groups es := (groupByDepartment localeCompare es).

Lemma groupByDepartment_names es :
  DepartmentGroup.name <$> groups es =
  JS.sort (compareDepartments localeCompare)
          (JS.map_keys (departmentMap es)).
Proof.
  unfold groupByDepartment.
  change (map ?f ?l) with (f <$> l) at 1.
  rewrite <- list_fmap_compose. apply list_fmap_id.
Qed.

Lemma groupByDepartment_names_NoDup es :
  NoDup (DepartmentGroup.name <$> groups es).
Proof.
  rewrite groupByDepartment_names, sort_perm. apply departmentMap_NoDup.
Qed.

(** A group is one of the groups exactly when its name is a department
    some employee lists and it holds the array of that department. *)
Lemma elem_of_groupByDepartment es (g : DepartmentGroup.t) :
  g ∈ groups es <->
  (exists e, e ∈ es /\ DepartmentGroup.name g ∈ Employee.departments e) /\
  DepartmentGroup.employees g =
    JS.nullish (JS.map_get (DepartmentGroup.name g) (departmentMap es)) [].
Proof.
  unfold groupByDepartment.
  change (map ?f ?l) with (f <$> l).
  rewrite list_elem_of_fmap. setoid_rewrite sort_elem_of.
  setoid_rewrite departmentMap_keys. split.
  - by intros (name & -> & Hname).
  - intros [Hname Hg]. exists (DepartmentGroup.name g).
    split; [| done]. destruct g as [name members]. cbn in *. by subst.
Qed.

Lemma groupByDepartment_member es e (g : DepartmentGroup.t) :
  g ∈ groups es ->
  e ∈ DepartmentGroup.employees g <->
  e ∈ es /\ DepartmentGroup.name g ∈ Employee.departments e.
Proof.
  intros [_ ->]%elem_of_groupByDepartment. apply elem_of_bucket.
Qed.

(** C9: every employee is in the group of each department of its
    departments list, and in no other group: the groups that hold an
    employee are as many as its distinct departments, N for a list of N
    departments.  In particular an employee of Sales and Marketing is
    in both groups. *)
Theorem groupByDepartment_multi_membership es e :
  e ∈ es ->
  let grouped := groupByDepartment localeCompare es in
  (forall d, d ∈ Employee.departments e ->
     exists g, g ∈ grouped /\ DepartmentGroup.name g = d /\
               e ∈ DepartmentGroup.employees g) /\
  (forall g, g ∈ grouped ->
     (e ∈ DepartmentGroup.employees g <->
      DepartmentGroup.name g ∈ Employee.departments e)) /\
  length (filter (fun g => e ∈ DepartmentGroup.employees g) grouped) =
    length (remove_dups (Employee.departments e)) /\
  (NoDup (Employee.departments e) ->
   length (filter (fun g => e ∈ DepartmentGroup.employees g) grouped) =
     length (Employee.departments e)) /\
  (Employee.departments e = ["Sales"; "Marketing"] ->
   exists sales marketing,
     sales ∈ grouped /\ marketing ∈ grouped /\
     DepartmentGroup.name sales = "Sales" /\
     DepartmentGroup.name marketing = "Marketing" /\
     e ∈ DepartmentGroup.employees sales /\
     e ∈ DepartmentGroup.employees marketing).
Proof.
  intros He grouped. subst grouped.
  assert (forall d, d ∈ Employee.departments e ->
            exists g, g ∈ groups es /\ DepartmentGroup.name g = d /\
                      e ∈ DepartmentGroup.employees g) as Hevery.
  { intros d Hd.
    exists {| DepartmentGroup.name := d;
              DepartmentGroup.employees :=
                JS.nullish (JS.map_get d (departmentMap es)) [] |}.
    split_and!; [| done | by apply elem_of_bucket].
    apply elem_of_groupByDepartment. split; [by exists e | done]. }
  assert (length (filter (fun g => e ∈ DepartmentGroup.employees g)
                         (groups es)) =
          length (remove_dups (Employee.departments e))) as Hcount.
  { unfold groupByDepartment.
    change (map ?f ?l) with (f <$> l).
    rewrite filter_fmap_comm, length_fmap. cbn.
    apply Permutation_length, NoDup_Permutation.
    - apply NoDup_filter. rewrite sort_perm. apply departmentMap_NoDup.
    - apply NoDup_remove_dups.
    - intros d.
      rewrite list_elem_of_filter, elem_of_remove_dups, elem_of_bucket,
        sort_elem_of, departmentMap_keys.
      split; [by intros [[_ ?] _] | intros Hd].
      split; [done | by exists e]. }
  split_and!.
  - exact Hevery.
  - intros g Hg. rewrite (groupByDepartment_member es e g Hg). tauto.
  - exact Hcount.
  - intros Hnd. rewrite Hcount.
    apply Permutation_length, NoDup_Permutation;
      [apply NoDup_remove_dups | done | apply elem_of_remove_dups].
  - intros Hdeps.
    destruct (Hevery "Sales") as (sales & ? & ? & ?);
      [rewrite Hdeps; by left |].
    destruct (Hevery "Marketing") as (marketing & ? & ? & ?);
      [rewrite Hdeps; right; by left |].
    by exists sales, marketing.
Qed.
End membership.

Lemma groupByDepartment_multi_membership_witness :
  length
    (filter
       (fun g => Sample.employee "a" ["Sales"; "Marketing"]
                 ∈ DepartmentGroup.employees g)
       (CompanyEmployees.groupByDepartment ReferenceHost.ordinalCompare
          Sample.staff))
  = 2%nat.
Proof.
  destruct (groupByDepartment_multi_membership ReferenceHost.ordinalCompare
              Sample.staff (Sample.employee "a" ["Sales"; "Marketing"]))
    as (_ & _ & _ & Hcount & _).
  - by left.
  - apply Hcount. cbn. compute_done.
Defined.

(* ===================================================================== *)
(** ** Grouping by department: the order of the groups                   *)
(* ===================================================================== *)

Section reference_collation.
Import ReferenceHost.

Lemma ordinalCompare_antisym (a b : string) :
  Z.sgn (ordinalCompare b a) = - Z.sgn (ordinalCompare a b).
Proof.
  revert b. induction a as [| x a IH]; intros [| y b]; cbn; try done.
  destruct (Z.eqb_spec (Z.of_nat (nat_of_ascii y) - Z.of_nat (nat_of_ascii x)) 0),
    (Z.eqb_spec (Z.of_nat (nat_of_ascii x) - Z.of_nat (nat_of_ascii y)) 0);
    try lia.
  apply IH.
Qed.

Lemma ordinalCompare_trans (a b c : string) :
  ordinalCompare a b <= 0 -> ordinalCompare b c <= 0 ->
  ordinalCompare a c <= 0.
Proof.
  revert b c.
  induction a as [| x a IH]; intros [| y b] [| z c]; cbn; try lia.
  destruct (Z.eqb_spec (Z.of_nat (nat_of_ascii x) - Z.of_nat (nat_of_ascii y)) 0),
    (Z.eqb_spec (Z.of_nat (nat_of_ascii y) - Z.of_nat (nat_of_ascii z)) 0),
    (Z.eqb_spec (Z.of_nat (nat_of_ascii x) - Z.of_nat (nat_of_ascii z)) 0);
    try lia.
  apply IH.
Qed.
End reference_collation.

Section department_order.
Import CompanyEmployees.

(** The collation of the host is a consistent comparator: swapping the
    arguments flips the sign, and "not after" is transitive. *)
Variable localeCompare : string -> string -> Z.
Hypothesis localeCompare_antisym :
  forall a b, Z.sgn (localeCompare b a) = - Z.sgn (localeCompare a b).
Hypothesis localeCompare_trans :
  forall a b c,
    localeCompare a b <= 0 -> localeCompare b c <= 0 -> localeCompare a c <= 0.

Local Abbreviation compare := (compareDepartments localeCompare).
Local Abbreviation before := (fun a b : string => compare a b <= 0 \/ a = b).
Local Abbreviation collated := (fun a b : string => localeCompare a b <= 0).

Lemma compareDepartments_named a b :
  a <> "Other" -> b <> "Other" -> compare a b = localeCompare a b.
Proof.
  intros Ha Hb. unfold compareDepartments.
  by destruct (String.eqb_spec a "Other"), (String.eqb_spec b "Other").
Qed.

Lemma compareDepartments_Other_l b : compare "Other" b = 1.
Proof. done. Qed.

Lemma compareDepartments_Other_r a : a <> "Other" -> compare a "Other" = -1.
Proof.
  intros Ha. unfold compareDepartments.
  by destruct (String.eqb_spec a "Other").
Qed.

Lemma before_trans : Transitive before.
Proof.
  intros a b c [Hab | ->] [Hbc | ->]; [left | by left | by left | by right].
  unfold compareDepartments in *.
  destruct (String.eqb_spec a "Other"), (String.eqb_spec b "Other"),
    (String.eqb_spec c "Other"); try lia.
  by apply (localeCompare_trans a b c).
Qed.

Lemma before_total x y : 0 < compare x y -> before y x.
Proof.
  unfold compareDepartments.
  destruct (String.eqb_spec x "Other") as [-> | Hx],
    (String.eqb_spec y "Other") as [-> | Hy]; intros Hgt;
    [by right | left; lia | lia | left].
  pose proof (localeCompare_antisym x y). lia.
Qed.

Lemma groupByDepartment_names_sorted es :
  StronglySorted before
    (DepartmentGroup.name <$> groupByDepartment localeCompare es).
Proof.
  rewrite groupByDepartment_names.
  apply (sort_sorted compare (fun _ => True) before before_trans).
  - intros x y _ _ Hle. by left.
  - intros x y _ _. apply before_total.
  - by apply Forall_forall.
Qed.

(** A duplicate-free list the comparator has sorted is a collated run
    of names other than "Other", followed by "Other" when present. *)
Lemma sorted_Other_last (l : list string) :
  StronglySorted before l -> NoDup l ->
  exists sorted : list string,
    ("Other" ∉ sorted) /\ StronglySorted collated sorted /\
    l = (sorted ++ if decide ("Other" ∈ l) then ["Other"] else [])%list.
Proof.
  induction 1 as [| x l Hl IH Hx]; intros Hnd.
  - exists []. split_and!; [apply not_elem_of_nil | constructor |].
    by rewrite decide_False by apply not_elem_of_nil.
  - apply NoDup_cons in Hnd as [Hxl Hnd].
    destruct (IH Hnd) as (sorted & Hother & Hsorted & Heq).
    destruct (decide (x = "Other")) as [-> | Hnamed].
    + exists []. split_and!; [apply not_elem_of_nil | constructor |].
      rewrite decide_True by (by left). cbn. f_equal.
      destruct l as [| y l]; [done | exfalso].
      apply Forall_cons in Hx as [[Hle | Hy] _].
      * rewrite compareDepartments_Other_l in Hle. lia.
      * apply Hxl. rewrite Hy. by left.
    + exists (x :: sorted). split_and!.
      * by intros [? | ?]%elem_of_cons.
      * constructor; [done |]. apply Forall_forall. intros y Hy.
        assert (y ∈ l) as Hyl.
        { rewrite Heq. apply elem_of_app. by left. }
        assert (y <> "Other") as Hynamed by (by intros ->).
        rewrite Forall_forall in Hx.
        destruct (Hx y Hyl) as [Hle | ->]; [| done].
        by rewrite compareDepartments_named in Hle.
      * cbn. rewrite Heq at 1. f_equal.
        destruct (decide ("Other" ∈ l)) as [Hin | Hin].
        -- rewrite decide_True; [done | by right].
        -- rewrite decide_False; [done |].
           by intros [? | ?]%elem_of_cons.
Qed.

(** C2: the groups come out with distinct names, those other than
    "Other" ascending in the collation of the host, and "Other", when
    there is such a group, after all of them.  In particular groups that
    come up as Other, Zeta, Alpha are returned as Alpha, Zeta, Other. *)
Theorem groupByDepartment_sorted_Other_last (es : list Employee.t) :
  let names := DepartmentGroup.name <$> groupByDepartment localeCompare es in
  NoDup names /\
  (exists sorted : list string,
      ("Other" ∉ sorted) /\ StronglySorted collated sorted /\
      names = (sorted ++ if decide ("Other" ∈ names) then ["Other"] else [])%list) /\
  ("Other" ∈ names -> last names = Some "Other") /\
  (localeCompare "Alpha" "Zeta" < 0 ->
   forall e1 e2 e3 : Employee.t,
     Employee.departments e1 = ["Other"] ->
     Employee.departments e2 = ["Zeta"] ->
     Employee.departments e3 = ["Alpha"] ->
     es = [e1; e2; e3] ->
     names = ["Alpha"; "Zeta"; "Other"]).
Proof.
  intros names.
  pose proof (groupByDepartment_names_NoDup localeCompare es) as Hnd.
  pose proof (groupByDepartment_names_sorted es) as Hsorted.
  fold names in Hnd, Hsorted.
  destruct (sorted_Other_last names Hsorted Hnd)
    as (sorted & Hother & Hcollated & Heq).
  split_and!; [done | by exists sorted | |].
  - intros Hin. rewrite Heq, decide_True by done. apply last_snoc.
  - intros Hlt e1 e2 e3 H1 H2 H3 ->. subst names.
    rewrite groupByDepartment_names.
    unfold departmentMap, addEmployee. cbn. rewrite H1, H2, H3. cbn.
    unfold compareDepartments at 1. cbn.
    pose proof (localeCompare_antisym "Alpha" "Zeta").
    destruct (Z.leb_spec (localeCompare "Zeta" "Alpha") 0); [lia | done].
Qed.
End department_order.

Lemma groupByDepartment_sorted_Other_last_witness :
  DepartmentGroup.name
    <$> CompanyEmployees.groupByDepartment ReferenceHost.ordinalCompare
          Sample.roster
  = ["Alpha"; "Zeta"; "Other"].
Proof.
  destruct (groupByDepartment_sorted_Other_last ReferenceHost.ordinalCompare
              ordinalCompare_antisym ordinalCompare_trans Sample.roster)
    as (_ & _ & _ & Hexample).
  exact (Hexample eq_refl (Sample.employee "o" ["Other"])
           (Sample.employee "z" ["Zeta"]) (Sample.employee "al" ["Alpha"])
           eq_refl eq_refl eq_refl eq_refl).
Defined.

(* ===================================================================== *)
(** ** Pagination: the page counters                                     *)
(* ===================================================================== *)

Section page_counters.
Import CompanyEmployees.

Variable searchPerson : string -> Z -> JS.Result SearchPersonResponse.t.
Variable fetchCredits : JS.Result Z.
Variable toISOString : Z -> string.
Variables (idNow : Z) (random : string) (createdNow : Z).
Variable initialDomain : string.

Local Abbreviation search :=
  (searchCompany searchPerson fetchCredits toISOString idNow random createdNow).
Local Abbreviation loadMore :=
  (loadMoreEmployees searchPerson fetchCredits initialDomain).

(** C3 (amended): a search response overwrites both counters with its
    page and total_pages; without pagination metadata the current page
    becomes 1 and no further page can be loaded.  A load-more response
    overwrites the current page only, with its page or, without
    pagination metadata, with the page that was requested; the total
    stays the one the search set. *)
Theorem pagination_counters_after_response
    (st : ViewState.t) (store : LocalStorage.t) response :
  (forall searchDomain company,
      JS.trim searchDomain <> "" ->
      searchPerson searchDomain 1 = JS.Ok response ->
      let st' :=
        fst (searchCompany searchPerson fetchCredits toISOString idNow random
               createdNow searchDomain company st store) in
      match SearchPersonResponse.pagination response with
      | Some p =>
          ViewState.currentPage st' = Pagination.page p /\
          ViewState.totalPages st' = Pagination.total_pages p
      | None =>
          ViewState.currentPage st' = 1 /\
          ~ ViewState.currentPage st' < ViewState.totalPages st' /\
          loadMoreEmployees searchPerson fetchCredits initialDomain st' = st'
      end) /\
  (ViewState.currentPage st < ViewState.totalPages st ->
   ViewState.isLoading st = false ->
   searchPerson initialDomain (ViewState.currentPage st + 1) = JS.Ok response ->
   let st' := loadMoreEmployees searchPerson fetchCredits initialDomain st in
   ViewState.totalPages st' = ViewState.totalPages st /\
   match SearchPersonResponse.pagination response with
   | Some p => ViewState.currentPage st' = Pagination.page p
   | None => ViewState.currentPage st' = ViewState.currentPage st + 1
   end).
Proof.
  split.
  - intros searchDomain company Hdomain Hfetch. unfold searchCompany.
    destruct (JS.trim searchDomain) as [| a s] eqn:Htrim; [done |].
    cbn [JS.truthy_string negb]. rewrite Hfetch.
    assert (forall (b : bool) (x : ViewState.t) (y z : LocalStorage.t),
               fst (if b then (x, y) else (x, z)) = x) as Hfst
        by (by intros []).
    rewrite Hfst.
    destruct (SearchPersonResponse.pagination response) as [p |]; cbn;
      [done |].
    split_and!; [done | lia |]. unfold loadMoreEmployees. by cbn.
  - intros Hpage Hidle Hfetch. unfold loadMoreEmployees.
    rewrite Hidle, Hfetch, orb_false_r.
    destruct (Z.leb_spec (ViewState.totalPages st) (ViewState.currentPage st));
      [lia |].
    by destruct (SearchPersonResponse.pagination response).
Qed.
End page_counters.

Lemma pagination_counters_after_response_witness :
  let afterSearch :=
    fst (CompanyEmployees.searchCompany
           (fun _ _ => JS.Ok Sample.bare) (JS.Throw "offline")
           (fun _ => "1970-01-01T00:00:00.020Z") 20 "k3j9x2a" 20
           "acme.com" None Sample.initial Sample.emptyStore) in
  let afterMore :=
    CompanyEmployees.loadMoreEmployees
      (fun _ _ => JS.Ok Sample.bare) (JS.Throw "offline") "acme.com"
      Sample.afterPage1 in
  (ViewState.currentPage afterSearch = 1 /\
   CompanyEmployees.loadMoreEmployees
     (fun _ _ => JS.Ok Sample.bare) (JS.Throw "offline") "acme.com"
     afterSearch = afterSearch) /\
  (ViewState.currentPage afterMore = 2 /\ ViewState.totalPages afterMore = 2).
Proof.
  destruct (pagination_counters_after_response
              (fun _ _ => JS.Ok Sample.bare) (JS.Throw "offline")
              (fun _ => "1970-01-01T00:00:00.020Z") 20 "k3j9x2a" 20 "acme.com"
              Sample.afterPage1 Sample.emptyStore Sample.bare)
    as [_ Hmore].
  destruct (pagination_counters_after_response
              (fun _ _ => JS.Ok Sample.bare) (JS.Throw "offline")
              (fun _ => "1970-01-01T00:00:00.020Z") 20 "k3j9x2a" 20 "acme.com"
              Sample.initial Sample.emptyStore Sample.bare)
    as [Hsearch _].
  split.
  - destruct (Hsearch "acme.com" None) as (Hcurrent & _ & Hstop);
      [by vm_compute | reflexivity | by split].
  - destruct Hmore as [Htotal Hcurrent]; [reflexivity .. |]. by split.
Defined.

(** The claim as the specification words it fails on load-more: the
    response announces 5 pages and the view keeps the 2 it had. *)
Lemma loadMoreEmployees_overwrites_totalPages_counterexample :
  ~ (forall (searchPerson : string -> Z -> JS.Result SearchPersonResponse.t)
            (fetchCredits : JS.Result Z) (initialDomain : string)
            (st : ViewState.t) response p,
        ViewState.currentPage st < ViewState.totalPages st ->
        ViewState.isLoading st = false ->
        searchPerson initialDomain (ViewState.currentPage st + 1)
          = JS.Ok response ->
        SearchPersonResponse.pagination response = Some p ->
        let st' :=
          CompanyEmployees.loadMoreEmployees searchPerson fetchCredits
            initialDomain st in
        ViewState.currentPage st' = Pagination.page p /\
        ViewState.totalPages st' = Pagination.total_pages p).
Proof.
  intros Hclaim.
  destruct (Hclaim (fun _ _ => JS.Ok Sample.page2of5) (JS.Throw "offline")
              "acme.com" Sample.afterPage1 Sample.page2of5
              {| Pagination.total_results := 9; Pagination.page := 2;
                 Pagination.total_pages := 5 |}
              eq_refl eq_refl eq_refl eq_refl) as [_ Htotal].
  vm_compute in Htotal. discriminate Htotal.
Qed.

(* ===================================================================== *)
(** ** The bounded history logs                                          *)
(* ===================================================================== *)

Section bounded_log.
Context {A : Type}.
Implicit Types (x : A) (log : list A).

(** Prepending to a log and keeping the first [MAX_ENTRIES]. *)
Lemma prepend_slice x log :
  HistoryStorage.slice0 HistoryStorage.MAX_ENTRIES (x :: log)
  = x :: take 99 log.
Proof. reflexivity. Qed.

Lemma prepend_slice_length x log :
  (length (HistoryStorage.slice0 HistoryStorage.MAX_ENTRIES (x :: log))
   <= 100)%nat.
Proof. rewrite prepend_slice. cbn [length]. rewrite length_take. lia. Qed.

Lemma prepend_slice_room x log :
  (length log < 100)%nat ->
  HistoryStorage.slice0 HistoryStorage.MAX_ENTRIES (x :: log) = x :: log.
Proof. intros Hlen. rewrite prepend_slice, take_ge; [done | lia]. Qed.

Lemma prepend_slice_full x log :
  length log = 100%nat ->
  exists kept oldest,
    log = (kept ++ [oldest])%list /\
    HistoryStorage.slice0 HistoryStorage.MAX_ENTRIES (x :: log) = x :: kept.
Proof.
  intros Hlen. rewrite prepend_slice.
  destruct (drop 99 log) as [| oldest rest] eqn:Hdrop.
  - apply (f_equal length) in Hdrop. rewrite length_drop in Hdrop.
    cbn in Hdrop. lia.
  - exists (take 99 log), oldest. split; [| done].
    assert (rest = []) as ->.
    { apply (f_equal length) in Hdrop. rewrite length_drop in Hdrop.
      cbn in Hdrop. destruct rest; [done | cbn in Hdrop; lia]. }
    by rewrite <- Hdrop, take_drop.
Qed.
End bounded_log.

Section history_add.
Import HistoryStorage.

Variable toISOString : Z -> string.
Variables (idNow : Z) (random : string) (createdNow : Z).

Local Abbreviation addEmail :=
  (addSearchHistoryEntry toISOString idNow random createdNow).
Local Abbreviation addCompany :=
  (addCompanySearchHistoryEntry toISOString idNow random createdNow).

Lemma loadSearchHistory_save entries store :
  loadSearchHistory (saveSearchHistory entries store) = entries.
Proof. reflexivity. Qed.

Lemma loadCompanySearchHistory_save entries store :
  loadCompanySearchHistory (saveCompanySearchHistory entries store) = entries.
Proof. reflexivity. Qed.

(** C4: in any state of the store, adding to either log returns the
    entry completed with the generated id, the creation timestamp and the
    type of the log; the log then reads as that entry followed by the
    previous entries cut to 100 in all: at most 100 entries, nothing lost
    while there was room, and exactly the oldest of 100 dropped.  The
    other log is left as it was. *)
Theorem add_history_entry_bounded (store : LocalStorage.t) :
  (forall entry : SearchHistoryInput.t,
      let added :=
        addSearchHistoryEntry toISOString idNow random createdNow entry store in
      let newEntry := fst added in
      let log := loadSearchHistory store in
      let log' := loadSearchHistory (snd added) in
      (SearchHistoryEntry.id newEntry = generateId idNow random /\
       SearchHistoryEntry.createdAt newEntry = toISOString createdNow /\
       SearchHistoryEntry.type newEntry = Some "email" /\
       SearchHistoryEntry.firstName newEntry = SearchHistoryInput.firstName entry /\
       SearchHistoryEntry.lastName newEntry = SearchHistoryInput.lastName entry /\
       SearchHistoryEntry.domain newEntry = SearchHistoryInput.domain entry /\
       SearchHistoryEntry.status newEntry = SearchHistoryInput.status entry /\
       SearchHistoryEntry.email newEntry = SearchHistoryInput.email entry /\
       SearchHistoryEntry.error newEntry = SearchHistoryInput.error entry /\
       SearchHistoryEntry.enrichedData newEntry
         = SearchHistoryInput.enrichedData entry) /\
      log' = newEntry :: take 99 log /\
      (length log' <= 100)%nat /\
      ((length log < 100)%nat -> log' = newEntry :: log) /\
      (length log = 100%nat ->
       exists kept oldest,
         log = (kept ++ [oldest])%list /\ log' = newEntry :: kept) /\
      loadCompanySearchHistory (snd added) = loadCompanySearchHistory store) /\
  (forall entry : CompanySearchHistoryInput.t,
      let added :=
        addCompanySearchHistoryEntry toISOString idNow random createdNow
          entry store in
      let newEntry := fst added in
      let log := loadCompanySearchHistory store in
      let log' := loadCompanySearchHistory (snd added) in
      (CompanySearchHistoryEntry.id newEntry = generateId idNow random /\
       CompanySearchHistoryEntry.createdAt newEntry = toISOString createdNow /\
       CompanySearchHistoryEntry.type newEntry = "company" /\
       CompanySearchHistoryEntry.companyName newEntry
         = CompanySearchHistoryInput.companyName entry /\
       CompanySearchHistoryEntry.domain newEntry
         = CompanySearchHistoryInput.domain entry /\
       CompanySearchHistoryEntry.confidenceScore newEntry
         = CompanySearchHistoryInput.confidenceScore entry /\
       CompanySearchHistoryEntry.logoUrl newEntry
         = CompanySearchHistoryInput.logoUrl entry /\
       CompanySearchHistoryEntry.employees newEntry
         = CompanySearchHistoryInput.employees entry /\
       CompanySearchHistoryEntry.totalPages newEntry
         = CompanySearchHistoryInput.totalPages entry /\
       CompanySearchHistoryEntry.currentPage newEntry
         = CompanySearchHistoryInput.currentPage entry) /\
      log' = newEntry :: take 99 log /\
      (length log' <= 100)%nat /\
      ((length log < 100)%nat -> log' = newEntry :: log) /\
      (length log = 100%nat ->
       exists kept oldest,
         log = (kept ++ [oldest])%list /\ log' = newEntry :: kept) /\
      loadSearchHistory (snd added) = loadSearchHistory store).
Proof.
  split; intros entry added newEntry log log';
    assert (log' = slice0 MAX_ENTRIES (newEntry :: log)) as Hlog'
      by reflexivity;
    (split_and!; try reflexivity;
     [ rewrite Hlog'; apply prepend_slice_length
     | intros Hroom; rewrite Hlog'; by apply prepend_slice_room
     | intros Hfull; rewrite Hlog'; by apply prepend_slice_full ]).
Qed.
End history_add.

Lemma add_history_entry_bounded_witness :
  let store' :=
    snd (HistoryStorage.addSearchHistoryEntry
           (fun _ => "1970-01-01T00:00:00.030Z") 30 "k3j9x2a" 30
           Sample.failedLookup Sample.fullHistory) in
  length (HistoryStorage.loadSearchHistory store') = 100%nat /\
  (exists newEntry,
      HistoryStorage.loadSearchHistory store'
      = newEntry :: replicate 99 Sample.legacyEmailEntry).
Proof.
  destruct (add_history_entry_bounded
              (fun _ => "1970-01-01T00:00:00.030Z") 30 "k3j9x2a" 30
              Sample.fullHistory) as [Hemail _].
  destruct (Hemail Sample.failedLookup) as (_ & Hlog & _ & _ & _ & _).
  split; [by rewrite Hlog | eexists; exact Hlog].
Defined.

(* ===================================================================== *)
(** ** The merged history                                                *)
(* ===================================================================== *)

Section history_merge.
Import HistoryStorage.

Variable getTime : string -> option Z.

(** [newer a b]: both creation dates read as times and [a] is not older
    than [b]. *)
Local Abbreviation newer :=
  (fun a b : HistoryEntry.t =>
     exists ta tb : Z,
       getTime (HistoryEntry.createdAt a) = Some ta /\
       getTime (HistoryEntry.createdAt b) = Some tb /\ tb <= ta).
Local Abbreviation dated :=
  (fun a : HistoryEntry.t => is_Some (getTime (HistoryEntry.createdAt a))).

Lemma newer_trans : Transitive newer.
Proof.
  intros a b c (ta & tb & Ha & Hb & Hab) (tb' & tc & Hb' & Hc & Hbc).
  exists ta, tc. split_and!; [done | done |]. simplify_eq. lia.
Qed.

Lemma byCreatedAtDesc_le a b :
  dated a -> dated b -> byCreatedAtDesc getTime a b <= 0 -> newer a b.
Proof.
  intros [ta Ha] [tb Hb]. unfold byCreatedAtDesc. rewrite Ha, Hb.
  intros Hle. exists ta, tb. split_and!; [done | done | lia].
Qed.

Lemma byCreatedAtDesc_gt a b :
  dated a -> dated b -> 0 < byCreatedAtDesc getTime a b -> newer b a.
Proof.
  intros [ta Ha] [tb Hb]. unfold byCreatedAtDesc. rewrite Ha, Hb.
  intros Hgt. exists tb, ta. split_and!; [done | done | lia].
Qed.

(** C8: the merged history holds the entries of both logs, each once,
    every email entry carrying the email type whatever type it was stored
    with; when the creation dates of the stored entries read as times the
    sequence is in descending order of creation.  In particular an email
    entry of t = 10 and a company entry of t = 20 come out as the company
    entry, then the email entry. *)
Theorem loadAllHistory_merged_sorted (store : LocalStorage.t) :
  let emails := loadSearchHistory store in
  let companies := loadCompanySearchHistory store in
  let merged := loadAllHistory getTime store in
  merged ≡ₚ ((HistoryEntry.Email ∘ withEmailType <$> emails)
             ++ (HistoryEntry.Company <$> companies))%list /\
  (forall e, e ∈ emails -> HistoryEntry.Email (withEmailType e) ∈ merged) /\
  (forall c, c ∈ companies -> HistoryEntry.Company c ∈ merged) /\
  (forall e, HistoryEntry.Email e ∈ merged ->
             SearchHistoryEntry.type e = Some "email") /\
  ((forall e, e ∈ emails -> is_Some (getTime (SearchHistoryEntry.createdAt e))) ->
   (forall c, c ∈ companies ->
              is_Some (getTime (CompanySearchHistoryEntry.createdAt c))) ->
   StronglySorted newer merged) /\
  (forall e c,
      emails = [e] -> companies = [c] ->
      getTime (SearchHistoryEntry.createdAt e) = Some 10 ->
      getTime (CompanySearchHistoryEntry.createdAt c) = Some 20 ->
      merged = [HistoryEntry.Company c; HistoryEntry.Email (withEmailType e)]).
Proof.
  intros emails companies merged.
  assert (merged ≡ₚ ((HistoryEntry.Email ∘ withEmailType <$> emails)
                     ++ (HistoryEntry.Company <$> companies))%list) as Hperm.
  { unfold merged, loadAllHistory. rewrite sort_perm.
    change (map ?f ?l) with (f <$> l).
    by rewrite <- list_fmap_compose. }
  split_and!.
  - exact Hperm.
  - intros e He. rewrite Hperm, elem_of_app. left.
    apply list_elem_of_fmap. by exists e.
  - intros c Hc. rewrite Hperm, elem_of_app. right.
    apply list_elem_of_fmap. by exists c.
  - intros e. rewrite Hperm, elem_of_app, !list_elem_of_fmap.
    intros [(e' & [= ->] & _) | (c & [=] & _)]. done.
  - intros Hemails Hcompanies. unfold merged, loadAllHistory.
    apply (sort_sorted (byCreatedAtDesc getTime) dated newer newer_trans
             byCreatedAtDesc_le byCreatedAtDesc_gt).
    change (map ?f ?l) with (f <$> l).
    apply Forall_app. split; apply Forall_forall; intros x.
    + rewrite <- list_fmap_compose.
      intros (e & -> & He)%list_elem_of_fmap. cbn. by apply Hemails.
    + intros (c & -> & Hc)%list_elem_of_fmap. cbn. by apply Hcompanies.
  - intros e c He Hc Hte Htc. unfold merged, loadAllHistory.
    fold emails companies. rewrite He, Hc. cbn.
    unfold byCreatedAtDesc. cbn. by rewrite Hte, Htc.
Qed.
End history_merge.

Lemma loadAllHistory_merged_sorted_witness :
  HistoryStorage.loadAllHistory ReferenceHost.parseISO Sample.history
  = [HistoryEntry.Company Sample.companyEntry;
     HistoryEntry.Email
       (HistoryStorage.withEmailType Sample.legacyEmailEntry)] /\
  StronglySorted
    (fun a b =>
       exists ta tb : Z,
         ReferenceHost.parseISO (HistoryEntry.createdAt a) = Some ta /\
         ReferenceHost.parseISO (HistoryEntry.createdAt b) = Some tb /\
         tb <= ta)
    (HistoryStorage.loadAllHistory ReferenceHost.parseISO Sample.history).
Proof.
  destruct (loadAllHistory_merged_sorted ReferenceHost.parseISO Sample.history)
    as (_ & _ & _ & _ & Hsorted & Hexample).
  split.
  - exact (Hexample Sample.legacyEmailEntry Sample.companyEntry
             eq_refl eq_refl eq_refl eq_refl).
  - apply Hsorted.
    + intros e ->%list_elem_of_singleton. by eexists.
    + intros c ->%list_elem_of_singleton. by eexists.
Defined.

(* ===================================================================== *)
(** ** The enrichment mappers                                            *)
(* ===================================================================== *)

Section enrichment.
Import CompanyEmployees EmailFinder.
Implicit Types (response : EnrichPersonResponse.t) (domain : string).

(** [response.person?.email?.email]. *)
Local Abbreviation address response :=
  ((EnrichPersonResponse.person response
      ≫= EnrichPersonResponse.person.email)
     ≫= EnrichPersonResponse.email.email).

(** The mapper of the employee view and the mapper of the finder are the
    same function. *)
Lemma mappers_agree response domain :
  mapEnrichResponseToData response domain
  = mapResponseToEnrichedData response domain.
Proof. reflexivity. Qed.

(** Case analysis along the guard [!response.person?.email?.email]:
    every missing link closes the goal, the address is left. *)
Local Ltac walk_guard response :=
  destruct (EnrichPersonResponse.person response) as [?p |]; cbn; [| done];
  destruct (EnrichPersonResponse.person.email p) as [?e |]; cbn; [| done];
  destruct (EnrichPersonResponse.email.email e) as [?a |]; cbn; [| done];
  destruct (JS.truthy_string a); cbn; try done.

(** The mapper gives a record exactly for a non-empty address. *)
Lemma mapEnrichResponseToData_None response domain :
  mapEnrichResponseToData response domain = None <->
  JS.truthy (address response) = false.
Proof. unfold mapEnrichResponseToData. walk_guard response. Qed.

(** The company of a mapped record. *)
Lemma mapEnrichResponseToData_company response domain data :
  mapEnrichResponseToData response domain = Some data ->
  let company := EnrichPersonResponse.company response in
  CompanyData.name (EnrichedData.company data)
    = JS.or_string (company ≫= EnrichPersonResponse.company.name) domain /\
  CompanyData.website (EnrichedData.company data)
    = JS.or_string (company ≫= EnrichPersonResponse.company.website)
        ("https://" +:+ domain) /\
  CompanyData.domain (EnrichedData.company data)
    = JS.or_string (company ≫= EnrichPersonResponse.company.domain) domain.
Proof.
  unfold mapEnrichResponseToData. walk_guard response. by intros [= <-].
Qed.

(** C5: a response without [person.email.email], whatever else it
    holds, is mapped to [null] by both mappers. *)
Theorem enrichment_without_email_is_no_data response domain :
  address response = None ->
  mapEnrichResponseToData response domain = None /\
  mapResponseToEnrichedData response domain = None.
Proof.
  intros Habsent.
  assert (mapEnrichResponseToData response domain = None) as Hnone.
  { apply mapEnrichResponseToData_None. by rewrite Habsent. }
  split; [exact Hnone |]. by rewrite <- (mappers_agree response domain).
Qed.

(** C10: a response whose [person.email] is there with the empty string
    as address is mapped to [null] by both mappers, which is what they
    return for any response without the address. *)
Theorem enrichment_empty_email_is_no_data response domain p e :
  EnrichPersonResponse.person response = Some p ->
  EnrichPersonResponse.person.email p = Some e ->
  EnrichPersonResponse.email.email e = Some "" ->
  (mapEnrichResponseToData response domain = None /\
   mapResponseToEnrichedData response domain = None) /\
  (forall response' domain',
      address response' = None ->
      mapEnrichResponseToData response domain
        = mapEnrichResponseToData response' domain' /\
      mapResponseToEnrichedData response domain
        = mapResponseToEnrichedData response' domain').
Proof.
  intros Hp He Ha.
  assert (mapEnrichResponseToData response domain = None) as Hnone.
  { apply mapEnrichResponseToData_None.
    rewrite Hp. cbn. rewrite He. cbn. by rewrite Ha. }
  assert (mapResponseToEnrichedData response domain = None) as Hnone'
      by (by rewrite <- (mappers_agree response domain)).
  split; [done |].
  intros response' domain' Habsent.
  assert (mapEnrichResponseToData response' domain' = None) as Habsent'.
  { apply mapEnrichResponseToData_None. by rewrite Habsent. }
  rewrite <- (mappers_agree response' domain'), Habsent'. done.
Qed.

(** C6: in the record either mapper returns, a company name the response
    omits is the input domain, an omitted website is "https://" followed
    by the domain, and an omitted domain is the input domain.  In
    particular, for "acme.com" and a response without company object the
    name is "acme.com" and the website "https://acme.com". *)
Theorem enrichment_company_fallbacks response domain data :
  mapEnrichResponseToData response domain = Some data \/
  mapResponseToEnrichedData response domain = Some data ->
  let company := EnrichPersonResponse.company response in
  let mapped := EnrichedData.company data in
  (company ≫= EnrichPersonResponse.company.name = None ->
   CompanyData.name mapped = domain) /\
  (company ≫= EnrichPersonResponse.company.website = None ->
   CompanyData.website mapped = "https://" +:+ domain) /\
  (company ≫= EnrichPersonResponse.company.domain = None ->
   CompanyData.domain mapped = domain) /\
  (company = None ->
   CompanyData.name mapped = domain /\
   CompanyData.website mapped = "https://" +:+ domain /\
   CompanyData.domain mapped = domain) /\
  (company = None -> domain = "acme.com" ->
   CompanyData.name mapped = "acme.com" /\
   CompanyData.website mapped = "https://acme.com").
Proof.
  intros Hdata company mapped.
  assert (mapEnrichResponseToData response domain = Some data) as Hmapped
      by (by destruct Hdata).
  destruct (mapEnrichResponseToData_company response domain data Hmapped)
    as (Hname & Hwebsite & Hdomain).
  fold company mapped in Hname, Hwebsite, Hdomain.
  split_and!.
  - intros Hnone. by rewrite Hname, Hnone.
  - intros Hnone. by rewrite Hwebsite, Hnone.
  - intros Hnone. by rewrite Hdomain, Hnone.
  - intros Hnone. by rewrite Hname, Hwebsite, Hdomain, Hnone.
  - intros Hnone ->. by rewrite Hname, Hwebsite, Hnone.
Qed.
End enrichment.

Lemma enrichment_without_email_is_no_data_witness :
  CompanyEmployees.mapEnrichResponseToData
    (Sample.enriched (Some (Sample.rawPerson None)) (Some Sample.rawCompany))
    "acme.com" = None /\
  EmailFinder.mapResponseToEnrichedData
    (Sample.enriched (Some (Sample.rawPerson (Some (Sample.rawEmail None))))
       (Some Sample.rawCompany))
    "acme.com" = None.
Proof.
  split.
  - exact (proj1 (enrichment_without_email_is_no_data
                    (Sample.enriched (Some (Sample.rawPerson None))
                       (Some Sample.rawCompany))
                    "acme.com" eq_refl)).
  - exact (proj2 (enrichment_without_email_is_no_data
                    (Sample.enriched
                       (Some (Sample.rawPerson (Some (Sample.rawEmail None))))
                       (Some Sample.rawCompany))
                    "acme.com" eq_refl)).
Defined.

Lemma enrichment_empty_email_is_no_data_witness :
  CompanyEmployees.mapEnrichResponseToData
    (Sample.enriched (Some (Sample.rawPerson (Some (Sample.rawEmail (Some "")))))
       (Some Sample.rawCompany))
    "acme.com"
  = CompanyEmployees.mapEnrichResponseToData
      (Sample.enriched (Some (Sample.rawPerson None)) None) "acme.com".
Proof.
  destruct (enrichment_empty_email_is_no_data
              (Sample.enriched
                 (Some (Sample.rawPerson (Some (Sample.rawEmail (Some "")))))
                 (Some Sample.rawCompany))
              "acme.com" (Sample.rawPerson (Some (Sample.rawEmail (Some ""))))
              (Sample.rawEmail (Some "")) eq_refl eq_refl eq_refl)
    as [_ Hsame].
  exact (proj1 (Hsame (Sample.enriched (Some (Sample.rawPerson None)) None)
                  "acme.com" eq_refl)).
Defined.

Lemma enrichment_company_fallbacks_witness :
  exists data,
    EmailFinder.mapResponseToEnrichedData
      (Sample.enriched
         (Some (Sample.rawPerson (Some (Sample.rawEmail (Some "ada@acme.com")))))
         None)
      "acme.com" = Some data /\
    CompanyData.name (EnrichedData.company data) = "acme.com" /\
    CompanyData.website (EnrichedData.company data) = "https://acme.com".
Proof.
  eexists. split; [reflexivity |].
  refine (proj2 (proj2 (proj2 (proj2
            (enrichment_company_fallbacks
               (Sample.enriched
                  (Some (Sample.rawPerson
                           (Some (Sample.rawEmail (Some "ada@acme.com")))))
                  None)
               "acme.com" _ (or_intror eq_refl))))) eq_refl eq_refl).
Defined.

(* ===================================================================== *)
(** ** Paid lookups: the insufficient-credits error                      *)
(* ===================================================================== *)

Section paid_lookups.
Import Backend.

Variable SUPABASE_URL : string.
Variable fetch : Request.t -> JS.Result HttpResponse.t.
Variable prefs : Preferences.t.

(** An object with the distinguished error code is an insufficient
    credits error. *)
Lemma isInsufficientCreditsError_object (fields : list (string * Json.t)) :
  Json.get "error_code" fields = Some (Json.Str "INSUFFICIENT_CREDITS") ->
  isInsufficientCreditsError (Json.Obj fields) = true.
Proof.
  intros Hcode. unfold isInsufficientCreditsError. cbn. rewrite Hcode.
  by rewrite bool_decide_true by by eexists.
Qed.

(** Only an object that has the key passes the check. *)
Lemma isInsufficientCreditsError_inv (data : Json.t) :
  isInsufficientCreditsError data = true ->
  exists fields,
    data = Json.Obj fields /\
    Json.get "error_code" fields = Some (Json.Str "INSUFFICIENT_CREDITS").
Proof.
  unfold isInsufficientCreditsError.
  destruct data as [| b | n | s | items | fields]; cbn; try done.
  intros Hcheck. exists fields. split; [done |].
  destruct (Json.get "error_code" fields) as [[| | | code | |] |];
    try (by rewrite andb_false_r in Hcheck).
  apply andb_true_iff in Hcheck as [_ Hcode].
  by apply String.eqb_eq in Hcode as ->.
Qed.

(** Run a call up to the parsed body: the key is read, the request is
    sent, the body is parsed. *)
Local Ltac run_call Hkey Hfetch Hjson :=
  rewrite Hkey; cbn [bind]; rewrite Hfetch; cbn [bind];
  rewrite Hjson; cbn [bind].

(** C7: when the backend answers a paid lookup with status 402 and a
    body whose error_code is "INSUFFICIENT_CREDITS" and whose balance is
    a number, searchPerson and enrichPerson both throw the error
    "Insufficient credits. You have <balance> credits remaining.", a
    message that includes the balance; for a balance of 3 it includes
    "3". *)
Theorem insufficient_credits_error_names_balance
    (apiKey : string) (response : HttpResponse.t)
    (fields : list (string * Json.t)) (balance : Z) :
  getApiKey prefs = JS.Ok apiKey ->
  HttpResponse.status response = 402 ->
  HttpResponse.json response = JS.Ok (Json.Obj fields) ->
  Json.get "error_code" fields = Some (Json.Str "INSUFFICIENT_CREDITS") ->
  Json.get "balance" fields = Some (Json.Num balance) ->
  let message :=
    "Insufficient credits. You have " +:+ pretty balance
    +:+ " credits remaining." in
  (forall domain page,
      fetch (searchRequest SUPABASE_URL apiKey domain page) = JS.Ok response ->
      searchPerson SUPABASE_URL fetch prefs domain page = JS.Throw message) /\
  (forall firstName lastName companyWebsite,
      fetch (enrichRequest SUPABASE_URL apiKey firstName lastName companyWebsite)
        = JS.Ok response ->
      enrichPerson SUPABASE_URL fetch prefs firstName lastName companyWebsite
        = JS.Throw message) /\
  JS.includes message (pretty balance) /\
  (balance = 3 -> JS.includes message "3").
Proof.
  intros Hkey Hstatus Hjson Hcode Hbalance message.
  pose proof (isInsufficientCreditsError_object fields Hcode) as Hcheck.
  split_and!.
  - intros domain page Hfetch. unfold searchPerson.
    run_call Hkey Hfetch Hjson. rewrite Hstatus, Hcheck. cbn.
    by rewrite Hbalance.
  - intros firstName lastName companyWebsite Hfetch. unfold enrichPerson.
    run_call Hkey Hfetch Hjson. rewrite Hstatus, Hcheck. cbn.
    by rewrite Hbalance.
  - by exists "Insufficient credits. You have ", " credits remaining.".
  - intros ->. by exists "Insufficient credits. You have ", " credits remaining.".
Qed.
End paid_lookups.

Lemma insufficient_credits_error_names_balance_witness :
  Backend.searchPerson "https://project.supabase.co"
    (fun _ => JS.Ok Sample.insufficient) Sample.prefs "acme.com" 1
  = JS.Throw "Insufficient credits. You have 3 credits remaining." /\
  Backend.enrichPerson "https://project.supabase.co"
    (fun _ => JS.Ok Sample.insufficient) Sample.prefs "Ada" "Lovelace" "acme.com"
  = JS.Throw "Insufficient credits. You have 3 credits remaining." /\
  JS.includes "Insufficient credits. You have 3 credits remaining." "3".
Proof.
  destruct (insufficient_credits_error_names_balance
              "https://project.supabase.co" (fun _ => JS.Ok Sample.insufficient)
              Sample.prefs "sk-test" Sample.insufficient
              Sample.insufficientBody 3
              eq_refl eq_refl eq_refl eq_refl eq_refl)
    as (Hsearch & Henrich & _ & Hthree).
  split_and!.
  - exact (Hsearch "acme.com" 1 eq_refl).
  - exact (Henrich "Ada" "Lovelace" "acme.com" eq_refl).
  - exact (Hthree eq_refl).
Defined.

(* ===================================================================== *)
(** ** Paid lookups: what is returned and what is thrown                 *)
(* ===================================================================== *)

Section paid_lookup_outcomes.
Import Backend.

Variable SUPABASE_URL : string.
Variable fetch : Request.t -> JS.Result HttpResponse.t.
Variable prefs : Preferences.t.

(** The type guard holds exactly for an object whose [error_code] is the
    distinguished string: never for [null], an array or a primitive. *)
Theorem isInsufficientCreditsError_iff (data : Json.t) :
  isInsufficientCreditsError data = true <->
  exists fields,
    data = Json.Obj fields /\
    Json.get "error_code" fields = Some (Json.Str "INSUFFICIENT_CREDITS").
Proof.
  split; [apply isInsufficientCreditsError_inv |].
  intros (fields & -> & Hcode). by apply isInsufficientCreditsError_object.
Qed.

(** A status of 402 is not a success status. *)
Lemma status_402_not_ok (response : HttpResponse.t) :
  HttpResponse.status response = 402 -> HttpResponse.ok response = false.
Proof. unfold HttpResponse.ok. by intros ->. Qed.

(** What the lines after [response.json()] do, in both paid lookups:
    the body is returned exactly when the status is a success and
    [data.error] is falsy. *)
Lemma after_json_ok_iff (fallback : string) (response : HttpResponse.t)
    (data result : Json.t) :
  (if (HttpResponse.status response =? 402) && isInsufficientCreditsError data
   then
     balance <- Json.prop data "balance" ;;
     JS.Throw ("Insufficient credits. You have " +:+ Json.template balance
               +:+ " credits remaining.")
   else
     failed <- (if negb (HttpResponse.ok response) then JS.Ok true
                else (e <- Json.prop data "error" ;; JS.Ok (Json.truthy e))) ;;
     if (failed : bool) then
       message <- Json.prop data "message" ;;
       JS.Throw (if Json.truthy message then Json.template message
                 else fallback)
     else JS.Ok data) = JS.Ok result <->
  result = data /\ HttpResponse.ok response = true /\
  exists e, Json.prop data "error" = JS.Ok e /\ Json.truthy e = false.
Proof.
  destruct ((HttpResponse.status response =? 402)
            && isInsufficientCreditsError data) eqn:Hins.
  - apply andb_true_iff in Hins as [Hstatus%Z.eqb_eq _].
    rewrite (status_402_not_ok response Hstatus).
    destruct (Json.prop data "balance"); cbn; split; try done;
      by intros (_ & [=] & _).
  - destruct (HttpResponse.ok response); cbn.
    + destruct (Json.prop data "error") as [e | m]; cbn.
      * destruct (Json.truthy e) eqn:Htruthy.
        -- destruct (Json.prop data "message"); cbn; split; try done;
             intros (_ & _ & e' & [= <-] & He'); congruence.
        -- split; [intros [= <-]; eauto |]. by intros (-> & _).
      * split; [done |]. by intros (_ & _ & e & [=] & _).
    + destruct (Json.prop data "message"); cbn; split; try done;
        by intros (_ & [=] & _).
Qed.

(** A paid lookup returns a body only when the key is configured, the
    request went through, the status is in 200-299 and the body carries
    no truthy [error]; the body is returned as parsed. *)
Theorem paid_lookup_returns_only_clean_success (data : Json.t) :
  (forall domain page,
      searchPerson SUPABASE_URL fetch prefs domain page = JS.Ok data <->
      exists apiKey response,
        getApiKey prefs = JS.Ok apiKey /\
        fetch (searchRequest SUPABASE_URL apiKey domain page) = JS.Ok response /\
        HttpResponse.json response = JS.Ok data /\
        HttpResponse.ok response = true /\
        exists e, Json.prop data "error" = JS.Ok e /\ Json.truthy e = false) /\
  (forall firstName lastName companyWebsite,
      enrichPerson SUPABASE_URL fetch prefs firstName lastName companyWebsite
        = JS.Ok data <->
      exists apiKey response,
        getApiKey prefs = JS.Ok apiKey /\
        fetch (enrichRequest SUPABASE_URL apiKey firstName lastName
                 companyWebsite) = JS.Ok response /\
        HttpResponse.json response = JS.Ok data /\
        HttpResponse.ok response = true /\
        exists e, Json.prop data "error" = JS.Ok e /\ Json.truthy e = false).
Proof.
  split.
  - intros domain page. unfold searchPerson.
    destruct (getApiKey prefs) as [apiKey | m]; cbn [bind];
      [| split; [done | by intros (? & ? & [=] & _)]].
    destruct (fetch (searchRequest SUPABASE_URL apiKey domain page))
      as [response | m] eqn:Hfetch; cbn [bind];
      [| split; [done | intros (? & ? & [= <-] & Hfetch' & _); congruence]].
    destruct (HttpResponse.json response) as [body | m] eqn:Hjson; cbn [bind];
      [| split; [done |];
         intros (? & ? & [= <-] & Hfetch' & Hjson' & _); congruence].
    rewrite after_json_ok_iff. split.
    + intros (-> & Hok & He). by exists apiKey, response.
    + intros (? & ? & [= <-] & Hfetch' & Hjson' & Hok & He).
      rewrite Hfetch in Hfetch'. injection Hfetch' as <-.
      rewrite Hjson in Hjson'. by injection Hjson' as <-.
  - intros firstName lastName companyWebsite. unfold enrichPerson.
    destruct (getApiKey prefs) as [apiKey | m]; cbn [bind];
      [| split; [done | by intros (? & ? & [=] & _)]].
    destruct (fetch (enrichRequest SUPABASE_URL apiKey firstName lastName
                       companyWebsite))
      as [response | m] eqn:Hfetch; cbn [bind];
      [| split; [done | intros (? & ? & [= <-] & Hfetch' & _); congruence]].
    destruct (HttpResponse.json response) as [body | m] eqn:Hjson; cbn [bind];
      [| split; [done |];
         intros (? & ? & [= <-] & Hfetch' & Hjson' & _); congruence].
    rewrite after_json_ok_iff. split.
    + intros (-> & Hok & He). by exists apiKey, response.
    + intros (? & ? & [= <-] & Hfetch' & Hjson' & Hok & He).
      rewrite Hfetch in Hfetch'. injection Hfetch' as <-.
      rewrite Hjson in Hjson'. by injection Hjson' as <-.
Qed.
End paid_lookup_outcomes.

Section paid_lookup_failures.
Import Backend.

Variable SUPABASE_URL : string.
Variable fetch : Request.t -> JS.Result HttpResponse.t.

(** The gate of the commands and the key check of the calls agree: the
    gate shows its children exactly when [getApiKey] returns a key.
    Without a usable key every call throws "API key not configured",
    whatever the network would answer. *)
Theorem auth_gate_matches_api_key (prefs : Preferences.t) :
  (Auth.AuthGate prefs = true <-> exists apiKey, getApiKey prefs = JS.Ok apiKey) /\
  (Auth.AuthGate prefs = false ->
   getApiKey prefs = JS.Throw "API key not configured" /\
   (forall domain page,
       searchPerson SUPABASE_URL fetch prefs domain page
       = JS.Throw "API key not configured") /\
   (forall firstName lastName companyWebsite,
       enrichPerson SUPABASE_URL fetch prefs firstName lastName companyWebsite
       = JS.Throw "API key not configured") /\
   Credits.fetchCredits SUPABASE_URL fetch prefs
   = JS.Throw "API key not configured").
Proof.
  unfold Auth.AuthGate, getApiKey, searchPerson, enrichPerson,
    Credits.fetchCredits, getApiKey.
  destruct (Preferences.apiKey prefs) as [key |]; cbn.
  - destruct (JS.truthy_string (JS.trim key)); cbn.
    + split; [split; eauto | done].
    + split; [split; [done | by intros [? [=]]] | done].
  - split; [split; [done | by intros [? [=]]] | done].
Qed.

(** A response outside 200-299 that is not the insufficient-credits
    case makes both paid lookups throw the [message] of the body when it
    is a non-empty string, and their own fixed message when the body has
    none. *)
Theorem paid_lookup_failure_message (prefs : Preferences.t)
    (apiKey : string) (response : HttpResponse.t)
    (fields : list (string * Json.t)) :
  getApiKey prefs = JS.Ok apiKey ->
  HttpResponse.ok response = false ->
  HttpResponse.json response = JS.Ok (Json.Obj fields) ->
  Json.get "error_code" fields <> Some (Json.Str "INSUFFICIENT_CREDITS") ->
  (forall domain page,
      fetch (searchRequest SUPABASE_URL apiKey domain page) = JS.Ok response ->
      (forall message,
          Json.get "message" fields = Some (Json.Str message) ->
          message <> "" ->
          searchPerson SUPABASE_URL fetch prefs domain page = JS.Throw message) /\
      (Json.get "message" fields = None ->
       searchPerson SUPABASE_URL fetch prefs domain page
       = JS.Throw "Failed to search people")) /\
  (forall firstName lastName companyWebsite,
      fetch (enrichRequest SUPABASE_URL apiKey firstName lastName
               companyWebsite) = JS.Ok response ->
      (forall message,
          Json.get "message" fields = Some (Json.Str message) ->
          message <> "" ->
          enrichPerson SUPABASE_URL fetch prefs firstName lastName
            companyWebsite = JS.Throw message) /\
      (Json.get "message" fields = None ->
       enrichPerson SUPABASE_URL fetch prefs firstName lastName companyWebsite
       = JS.Throw "Failed to enrich person")).
Proof.
  intros Hkey Hok Hjson Hcode.
  assert (isInsufficientCreditsError (Json.Obj fields) = false) as Hcheck.
  { destruct (isInsufficientCreditsError (Json.Obj fields)) eqn:Hcheck;
      [| done].
    apply isInsufficientCreditsError_inv in Hcheck
      as (fields' & [= <-] & Hcode').
    done. }
  split.
  - intros domain page Hfetch. unfold searchPerson.
    rewrite Hkey. cbn [bind]. rewrite Hfetch. cbn [bind].
    rewrite Hjson. cbn [bind]. rewrite Hcheck, andb_false_r, Hok. cbn.
    split.
    + intros message -> Hne. cbn. by destruct message.
    + by intros ->.
  - intros firstName lastName companyWebsite Hfetch. unfold enrichPerson.
    rewrite Hkey. cbn [bind]. rewrite Hfetch. cbn [bind].
    rewrite Hjson. cbn [bind]. rewrite Hcheck, andb_false_r, Hok. cbn.
    split.
    + intros message -> Hne. cbn. by destruct message.
    + by intros ->.
Qed.
End paid_lookup_failures.

Lemma auth_gate_matches_api_key_witness :
  Backend.searchPerson "https://project.supabase.co"
    (fun _ => JS.Ok Fixture.creditsResponse) Fixture.blankPrefs "acme.com" 1
  = JS.Throw "API key not configured".
Proof.
  destruct (auth_gate_matches_api_key "https://project.supabase.co"
              (fun _ => JS.Ok Fixture.creditsResponse) Fixture.blankPrefs)
    as [_ Hclosed].
  destruct (Hclosed eq_refl) as (_ & Hsearch & _).
  exact (Hsearch "acme.com" 1).
Defined.

Lemma paid_lookup_failure_message_witness :
  Backend.searchPerson "https://project.supabase.co"
    (fun _ => JS.Ok Fixture.serverError) Sample.prefs "acme.com" 1
  = JS.Throw "Rate limit exceeded" /\
  Backend.enrichPerson "https://project.supabase.co"
    (fun _ => JS.Ok Fixture.silentError) Sample.prefs "Ada" "Lovelace" "acme.com"
  = JS.Throw "Failed to enrich person".
Proof.
  split.
  - destruct (paid_lookup_failure_message "https://project.supabase.co"
                (fun _ => JS.Ok Fixture.serverError) Sample.prefs "sk-test"
                Fixture.serverError Fixture.serverErrorBody
                eq_refl eq_refl eq_refl ltac:(discriminate))
      as [Hsearch _].
    destruct (Hsearch "acme.com" 1 eq_refl) as [Hmessage _].
    exact (Hmessage "Rate limit exceeded" eq_refl ltac:(discriminate)).
  - destruct (paid_lookup_failure_message "https://project.supabase.co"
                (fun _ => JS.Ok Fixture.silentError) Sample.prefs "sk-test"
                Fixture.silentError [] eq_refl eq_refl eq_refl
                ltac:(discriminate))
      as [_ Henrich].
    destruct (Henrich "Ada" "Lovelace" "acme.com" eq_refl) as [_ Hfallback].
    exact (Hfallback eq_refl).
Defined.

(* ===================================================================== *)
(** ** The company autocomplete                                          *)
(* ===================================================================== *)

Section autocomplete_facts.
Import Backend.

Variable encodeURIComponent : string -> string.
Variable fetchUrl : string -> JS.Result HttpResponse.t.

Lemma mapItems_null (items : list Json.t) :
  Json.Null ∈ items -> exists m, mapItems items = JS.Throw m.
Proof.
  induction items as [| item items IH]; [by intros ?%elem_of_nil |].
  intros [<- | Hin]%elem_of_cons; cbn; [by eexists |].
  destruct (toCompanySearchResult item); cbn; [| by eexists].
  destruct (IH Hin) as [m ->]. by eexists.
Qed.

Lemma mapItems_results (items : list Json.t) :
  Forall (fun item => item <> Json.Null) items ->
  exists results,
    mapItems items = JS.Ok results /\
    Forall2
      (fun item result =>
         Json.prop item "name" = JS.Ok (CompanySearchResult.name result) /\
         Json.prop item "domain" = JS.Ok (CompanySearchResult.domain result) /\
         Json.prop item "confidence_score"
           = JS.Ok (CompanySearchResult.confidence_score result) /\
         Json.prop item "logo_url"
           = JS.Ok (CompanySearchResult.logo_url result))
      items results.
Proof.
  induction 1 as [| item items Hitem _ (results & Hmap & Hall)]; cbn.
  - exists []. by split.
  - rewrite Hmap.
    destruct item as [| b | n | s | elements | fields]; [done | ..]; cbn;
      eexists; (split; [reflexivity |]); by constructor.
Qed.

(** The autocomplete is advisory: a query of fewer than 2 characters
    once trimmed gives the empty list whatever the network would answer,
    and so does every failure: a transport error, a status outside
    200-299, a body that does not parse or is [null], a [status] other
    than "success", a [data] that is not an array, a [null] item. *)
Theorem searchCompanyByName_empty_when_short_or_failed (query : string) :
  ((String.length (JS.trim query) < 2)%nat ->
   searchCompanyByName encodeURIComponent fetchUrl query = []) /\
  (forall m,
      fetchUrl (autocompleteUrl encodeURIComponent query) = JS.Throw m ->
      searchCompanyByName encodeURIComponent fetchUrl query = []) /\
  (forall response,
      fetchUrl (autocompleteUrl encodeURIComponent query) = JS.Ok response ->
      (HttpResponse.ok response = false \/
       (exists m, HttpResponse.json response = JS.Throw m) \/
       HttpResponse.json response = JS.Ok Json.Null \/
       (exists fields,
           HttpResponse.json response = JS.Ok (Json.Obj fields) /\
           (Json.get "status" fields <> Some (Json.Str "success") \/
            (forall items, Json.get "data" fields <> Some (Json.Arr items)) \/
            (exists items,
                Json.get "data" fields = Some (Json.Arr items) /\
                Json.Null ∈ items)))) ->
      searchCompanyByName encodeURIComponent fetchUrl query = []).
Proof.
  unfold searchCompanyByName. split_and!.
  - intros Hshort.
    destruct (Z.ltb_spec (Z.of_nat (String.length (JS.trim query))) 2);
      [by rewrite orb_true_r | lia].
  - intros m ->. by destruct (_ || _).
  - intros response -> Hfailed. destruct (_ || _); [done |]. cbn [bind].
    destruct (HttpResponse.ok response) eqn:Hok; cbn [negb]; [| done].
    destruct Hfailed
      as [? | [[m Hjson] | [Hjson | (fields & Hjson & Hbody)]]];
      [done | rewrite Hjson; cbn ..]; [done | done |].
    destruct (Json.get "status" fields) as [[| | | status | |] |] eqn:Hstatus;
      try done.
    destruct (String.eqb_spec status "success") as [-> | Hne]; [| done].
    cbn [bind].
    destruct Hbody as [Hbody | [Hbody | (items & -> & Hnull)]]; [done | |].
    + destruct (Json.get "data" fields) as [[| | | | items |] |] eqn:Hdata;
        try done.
      by destruct (Hbody items).
    + by destruct (mapItems_null items Hnull) as [m ->].
Qed.

(** A successful answer gives one result per item of [data], in the
    order of the answer, each with the four fields of its item. *)
Theorem searchCompanyByName_one_result_per_item
    (query : string) (response : HttpResponse.t)
    (fields : list (string * Json.t)) (items : list Json.t) :
  (2 <= String.length (JS.trim query))%nat ->
  fetchUrl (autocompleteUrl encodeURIComponent query) = JS.Ok response ->
  HttpResponse.ok response = true ->
  HttpResponse.json response = JS.Ok (Json.Obj fields) ->
  Json.get "status" fields = Some (Json.Str "success") ->
  Json.get "data" fields = Some (Json.Arr items) ->
  Forall (fun item => item <> Json.Null) items ->
  let results := searchCompanyByName encodeURIComponent fetchUrl query in
  length results = length items /\
  Forall2
    (fun item result =>
       Json.prop item "name" = JS.Ok (CompanySearchResult.name result) /\
       Json.prop item "domain" = JS.Ok (CompanySearchResult.domain result) /\
       Json.prop item "confidence_score"
         = JS.Ok (CompanySearchResult.confidence_score result) /\
       Json.prop item "logo_url"
         = JS.Ok (CompanySearchResult.logo_url result))
    items results.
Proof.
  intros Hlong Hfetch Hok Hjson Hstatus Hdata Hitems results.
  destruct (mapItems_results items Hitems) as (mapped & Hmap & Hall).
  assert (results = mapped) as ->.
  { unfold results, searchCompanyByName.
    assert (JS.truthy_string query = true) as ->.
    { destruct query; [cbn in Hlong; lia | done]. }
    destruct (Z.ltb_spec (Z.of_nat (String.length (JS.trim query))) 2);
      [lia |].
    cbn [negb orb]. rewrite Hfetch. cbn [bind]. rewrite Hok. cbn [negb].
    rewrite Hjson. cbn. rewrite Hstatus. cbn. by rewrite Hdata, Hmap. }
  split; [| done]. symmetry. by eapply Forall2_length.
Qed.
End autocomplete_facts.

Lemma searchCompanyByName_empty_when_short_or_failed_witness :
  Backend.searchCompanyByName (fun s => s)
    (fun _ => JS.Ok Fixture.autocompleteResponse) " a " = [] /\
  Backend.searchCompanyByName (fun s => s)
    (fun _ => JS.Ok Fixture.silentError) "acme" = [].
Proof.
  split.
  - destruct (searchCompanyByName_empty_when_short_or_failed (fun s => s)
                (fun _ => JS.Ok Fixture.autocompleteResponse) " a ")
      as [Hshort _].
    apply Hshort. vm_compute. lia.
  - destruct (searchCompanyByName_empty_when_short_or_failed (fun s => s)
                (fun _ => JS.Ok Fixture.silentError) "acme")
      as (_ & _ & Hfailed).
    apply (Hfailed Fixture.silentError eq_refl). by left.
Defined.

Lemma searchCompanyByName_one_result_per_item_witness :
  length (Backend.searchCompanyByName (fun s => s)
            (fun _ => JS.Ok Fixture.autocompleteResponse) "acme") = 2%nat.
Proof.
  destruct (searchCompanyByName_one_result_per_item (fun s => s)
              (fun _ => JS.Ok Fixture.autocompleteResponse) "acme"
              Fixture.autocompleteResponse
              [("status", Json.Str "success");
               ("data", Json.Arr [Fixture.acme; Fixture.acmeLabs])]
              [Fixture.acme; Fixture.acmeLabs])
    as [Hlength _];
    [vm_compute; lia | reflexivity .. | | exact Hlength].
  repeat constructor; discriminate.
Defined.

(* ===================================================================== *)
(** ** The credit balance                                                *)
(* ===================================================================== *)

Section credits_facts.
Import Backend.

Variable SUPABASE_URL : string.
Variable fetch : Request.t -> JS.Result HttpResponse.t.
Variable prefs : Preferences.t.

(** [fetchCredits] returns a balance only as the [balance] of a body
    that came with a status in 200-299 and no truthy [error], asked for
    with the trimmed key; in every other case it throws. *)
Theorem fetchCredits_returns_balance_of_clean_success
    (balance : option Json.t) :
  Credits.fetchCredits SUPABASE_URL fetch prefs = JS.Ok balance <->
  exists key response data,
    Preferences.apiKey prefs = Some key /\ JS.trim key <> "" /\
    fetch (Credits.creditsRequest SUPABASE_URL (JS.trim key)) = JS.Ok response /\
    HttpResponse.json response = JS.Ok data /\
    HttpResponse.ok response = true /\
    (exists e, Json.prop data "error" = JS.Ok e /\ Json.truthy e = false) /\
    Json.prop data "balance" = JS.Ok balance.
Proof.
  unfold Credits.fetchCredits.
  destruct (Preferences.apiKey prefs) as [key |];
    [| split; [done | by intros (? & ? & ? & [=] & _)]].
  destruct (JS.trim key) as [| a trimmed] eqn:Htrim; cbn [JS.truthy_string].
  { split; [done | intros (? & ? & ? & [= <-] & Hne & _); congruence]. }
  rewrite <- Htrim.
  destruct (fetch (Credits.creditsRequest SUPABASE_URL (JS.trim key)))
    as [response | m] eqn:Hfetch; cbn [bind];
    [| split; [done |];
       intros (? & ? & ? & [= <-] & _ & Hfetch' & _); congruence].
  destruct (HttpResponse.json response) as [data | m] eqn:Hjson; cbn [bind];
    [| split; [done |];
       intros (? & ? & ? & [= <-] & _ & Hfetch' & Hjson' & _); congruence].
  assert (JS.trim key <> "") as Hne by (by rewrite Htrim).
  destruct (HttpResponse.ok response) eqn:Hok; cbn [negb bind].
  - destruct (Json.prop data "error") as [e | m] eqn:He; cbn [bind].
    + destruct (Json.truthy e) eqn:Htruthy.
      * destruct (Json.prop data "message"); cbn; split; try done;
          intros (? & ? & ? & [= <-] & _ & Hfetch' & Hjson' & _
                  & (e' & He' & Hfalsy) & _);
          rewrite Hfetch in Hfetch'; injection Hfetch' as <-;
          rewrite Hjson in Hjson'; injection Hjson' as <-; congruence.
      * split.
        -- intros Hbalance. exists key, response, data.
           split_and!; eauto.
        -- intros (? & ? & ? & [= <-] & _ & Hfetch' & Hjson' & _ & _ & Hb).
           rewrite Hfetch in Hfetch'. injection Hfetch' as <-.
           rewrite Hjson in Hjson'. by injection Hjson' as <-.
    + split; [done |].
      intros (? & ? & ? & [= <-] & _ & Hfetch' & Hjson' & _
              & (e' & He' & _) & _).
      rewrite Hfetch in Hfetch'. injection Hfetch' as <-.
      rewrite Hjson in Hjson'. injection Hjson' as <-. congruence.
  - destruct (Json.prop data "message"); cbn; split; try done;
      intros (? & ? & ? & [= <-] & _ & Hfetch' & _ & Hok' & _);
      rewrite Hfetch in Hfetch'; injection Hfetch' as <-; congruence.
Qed.
End credits_facts.

(* ===================================================================== *)
(** ** The history logs: remove, update, and add followed by remove      *)
(* ===================================================================== *)

Section history_maintenance.
Import HistoryStorage.

Lemma filter_all {A : Type} (P : A -> Prop) `{!forall x, Decision (P x)}
    (l : list A) :
  Forall P l -> filter P l = l.
Proof.
  induction 1 as [| x l Hx _ IH]; [done |].
  by rewrite filter_cons_True, IH.
Qed.

(** Removing by id drops exactly the entries of that id from the log it
    addresses: the others stay, in their order; an id the log does not
    hold changes nothing in what is read back; the other log is not
    touched. *)
Theorem remove_history_entry_drops_id (id : string) (store : LocalStorage.t) :
  (let log := loadSearchHistory store in
   let log' := loadSearchHistory (removeSearchHistoryEntry id store) in
   (forall e, e ∈ log' <-> e ∈ log /\ SearchHistoryEntry.id e <> id) /\
   sublist log' log /\
   (id ∉ SearchHistoryEntry.id <$> log -> log' = log) /\
   loadCompanySearchHistory (removeSearchHistoryEntry id store)
   = loadCompanySearchHistory store) /\
  (let log := loadCompanySearchHistory store in
   let log' :=
     loadCompanySearchHistory (removeCompanySearchHistoryEntry id store) in
   (forall c, c ∈ log' <-> c ∈ log /\ CompanySearchHistoryEntry.id c <> id) /\
   sublist log' log /\
   (id ∉ CompanySearchHistoryEntry.id <$> log -> log' = log) /\
   loadSearchHistory (removeCompanySearchHistoryEntry id store)
   = loadSearchHistory store).
Proof.
  split; intros log log'.
  - assert (log' = filter (fun e => SearchHistoryEntry.id e <> id) log)
      as -> by reflexivity.
    split_and!; [| apply sublist_filter | | reflexivity].
    + intros e. rewrite list_elem_of_filter. tauto.
    + intros Hfresh. apply filter_all, Forall_forall. intros e He <-.
      apply Hfresh, list_elem_of_fmap. by exists e.
  - assert (log' = filter (fun c => CompanySearchHistoryEntry.id c <> id) log)
      as -> by reflexivity.
    split_and!; [| apply sublist_filter | | reflexivity].
    + intros c. rewrite list_elem_of_filter. tauto.
    + intros Hfresh. apply filter_all, Forall_forall. intros c Hc <-.
      apply Hfresh, list_elem_of_fmap. by exists c.
Qed.

(** An update leaves the log as long as it was and every entry at its
    place with its id, type and creation time; entries of another id are
    untouched, so an id the log does not hold changes nothing; an entry
    of the id reads back with the keys of the update; the email log is
    not touched. *)
Theorem updateCompanySearchHistoryEntry_merges_in_place
    (id : string) (updates : CompanySearchHistoryUpdate.t)
    (store : LocalStorage.t) :
  let log := loadCompanySearchHistory store in
  let store' := updateCompanySearchHistoryEntry id updates store in
  let log' := loadCompanySearchHistory store' in
  length log' = length log /\
  CompanySearchHistoryEntry.id <$> log' = CompanySearchHistoryEntry.id <$> log /\
  CompanySearchHistoryEntry.type <$> log'
  = CompanySearchHistoryEntry.type <$> log /\
  CompanySearchHistoryEntry.createdAt <$> log'
  = CompanySearchHistoryEntry.createdAt <$> log /\
  (forall i c, log !! i = Some c ->
     log' !! i = Some (if decide (CompanySearchHistoryEntry.id c = id)
                       then mergeUpdates c updates else c)) /\
  (id ∉ CompanySearchHistoryEntry.id <$> log -> log' = log) /\
  (forall employees totalPages currentPage c,
      CompanySearchHistoryUpdate.employees updates = Some employees ->
      CompanySearchHistoryUpdate.totalPages updates = Some totalPages ->
      CompanySearchHistoryUpdate.currentPage updates = Some currentPage ->
      c ∈ log' -> CompanySearchHistoryEntry.id c = id ->
      CompanySearchHistoryEntry.employees c = employees /\
      CompanySearchHistoryEntry.totalPages c = totalPages /\
      CompanySearchHistoryEntry.currentPage c = currentPage) /\
  loadSearchHistory store' = loadSearchHistory store.
Proof.
  intros log store' log'.
  set (step := fun c =>
         if String.eqb (CompanySearchHistoryEntry.id c) id
         then mergeUpdates c updates else c).
  assert (log' = step <$> log) as -> by reflexivity.
  assert (forall c, step c = if decide (CompanySearchHistoryEntry.id c = id)
                             then mergeUpdates c updates else c) as Hstep.
  { intros c. unfold step.
    destruct (String.eqb_spec (CompanySearchHistoryEntry.id c) id);
      by case_decide. }
  assert (forall (B : Type) (f : CompanySearchHistoryEntry.t -> B),
             (forall c, f (mergeUpdates c updates) = f c) ->
             f <$> (step <$> log) = f <$> log) as Hkept.
  { intros B f Hf. rewrite <- list_fmap_compose. apply list_fmap_ext.
    intros i c _. cbn. rewrite Hstep. by case_decide. }
  split_and!.
  - apply length_fmap.
  - by apply Hkept.
  - by apply Hkept.
  - by apply Hkept.
  - intros i c Hi. by rewrite list_lookup_fmap, Hi, <- Hstep.
  - intros Hfresh. rewrite <- (list_fmap_id log) at 2. apply list_fmap_ext.
    intros i c Hi. rewrite Hstep, decide_False; [done |].
    intros <-. apply Hfresh, list_elem_of_fmap. exists c. split; [done |].
    by eapply list_elem_of_lookup_2.
  - intros employees totalPages currentPage c He Ht Hc
      (c0 & -> & Hc0)%list_elem_of_fmap.
    rewrite !Hstep. case_decide as Hid; [| done]. intros _. cbn.
    by rewrite He, Ht, Hc.
  - reflexivity.
Qed.

Variable toISOString : Z -> string.
Variables (idNow : Z) (random : string) (createdNow : Z).

(** Adding an entry to a log with room whose ids differ from the new id
    and then removing the returned id reads back the log as it was. *)
Theorem add_then_remove_restores_log (store : LocalStorage.t) :
  (forall entry : SearchHistoryInput.t,
      let added :=
        addSearchHistoryEntry toISOString idNow random createdNow entry store in
      let log := loadSearchHistory store in
      (length log < 100)%nat ->
      generateId idNow random ∉ SearchHistoryEntry.id <$> log ->
      loadSearchHistory
        (removeSearchHistoryEntry (SearchHistoryEntry.id (fst added))
           (snd added)) = log) /\
  (forall entry : CompanySearchHistoryInput.t,
      let added :=
        addCompanySearchHistoryEntry toISOString idNow random createdNow
          entry store in
      let log := loadCompanySearchHistory store in
      (length log < 100)%nat ->
      generateId idNow random ∉ CompanySearchHistoryEntry.id <$> log ->
      loadCompanySearchHistory
        (removeCompanySearchHistoryEntry
           (CompanySearchHistoryEntry.id (fst added)) (snd added)) = log).
Proof.
  split; intros entry added log Hroom Hfresh.
  - set (newEntry := fst added).
    assert (loadSearchHistory (snd added) = newEntry :: log) as Hlog.
    { change (loadSearchHistory (snd added))
        with (slice0 MAX_ENTRIES (newEntry :: log)).
      by apply prepend_slice_room. }
    change (filter (fun e => SearchHistoryEntry.id e
                             <> SearchHistoryEntry.id newEntry)
                   (loadSearchHistory (snd added)) = log).
    rewrite Hlog, filter_cons_False by (by intros Hne; apply Hne).
    apply filter_all, Forall_forall. intros e He Heq.
    apply Hfresh, list_elem_of_fmap. by exists e.
  - set (newEntry := fst added).
    assert (loadCompanySearchHistory (snd added) = newEntry :: log) as Hlog.
    { change (loadCompanySearchHistory (snd added))
        with (slice0 MAX_ENTRIES (newEntry :: log)).
      by apply prepend_slice_room. }
    change (filter (fun c => CompanySearchHistoryEntry.id c
                             <> CompanySearchHistoryEntry.id newEntry)
                   (loadCompanySearchHistory (snd added)) = log).
    rewrite Hlog, filter_cons_False by (by intros Hne; apply Hne).
    apply filter_all, Forall_forall. intros c Hc Heq.
    apply Hfresh, list_elem_of_fmap. by exists c.
Qed.
End history_maintenance.

Lemma remove_history_entry_drops_id_witness :
  HistoryStorage.loadCompanySearchHistory
    (HistoryStorage.removeCompanySearchHistoryEntry "no-such-id"
       Fixture.twoCompanies)
  = [Sample.companyEntry; Fixture.otherCompanyEntry].
Proof.
  destruct (remove_history_entry_drops_id "no-such-id" Fixture.twoCompanies)
    as [_ (_ & _ & Hfresh & _)].
  apply Hfresh. cbn. compute_done.
Defined.

Lemma updateCompanySearchHistoryEntry_merges_in_place_witness :
  HistoryStorage.loadCompanySearchHistory
    (HistoryStorage.updateCompanySearchHistoryEntry "no-such-id"
       Fixture.snapshot Fixture.twoCompanies)
  = [Sample.companyEntry; Fixture.otherCompanyEntry].
Proof.
  destruct (updateCompanySearchHistoryEntry_merges_in_place "no-such-id"
              Fixture.snapshot Fixture.twoCompanies)
    as (_ & _ & _ & _ & _ & Hfresh & _).
  apply Hfresh. cbn. compute_done.
Defined.

Lemma add_then_remove_restores_log_witness :
  HistoryStorage.loadSearchHistory
    (HistoryStorage.removeSearchHistoryEntry "30-k3j9x2a"
       (snd (HistoryStorage.addSearchHistoryEntry
               (fun _ => "1970-01-01T00:00:00.030Z") 30 "k3j9x2a" 30
               Sample.failedLookup Sample.history)))
  = [Sample.legacyEmailEntry].
Proof.
  destruct (add_then_remove_restores_log
              (fun _ => "1970-01-01T00:00:00.030Z") 30 "k3j9x2a" 30
              Sample.history) as [Hemail _].
  apply (Hemail Sample.failedLookup); [cbn; lia | cbn; compute_done].
Defined.

(* ===================================================================== *)
(** ** The merged history: order kept, newest on top                     *)
(* ===================================================================== *)

Section sort_order.
Context {A : Type} (comparefn : A -> A -> Z).

(** A list in which the comparator puts no element after its successor
    is returned as it is. *)
Lemma sort_Sorted_id (l : list A) :
  Sorted (fun x y => comparefn x y <= 0) l -> JS.sort comparefn l = l.
Proof.
  induction 1 as [| x l _ IH Hhd]; [done |].
  cbn. fold (JS.sort comparefn l). rewrite IH.
  destruct Hhd as [| y l Hxy]; [done |]. cbn.
  by destruct (Z.leb_spec (comparefn x y) 0); [| lia].
Qed.

(** An element the comparator puts before all the others comes out
    first. *)
Lemma sort_head_top (top : A) (l1 l2 : list A) :
  (forall y, y ∈ l1 -> 0 < comparefn y top) ->
  (forall y, y ∈ l2 -> comparefn top y <= 0) ->
  head (JS.sort comparefn (l1 ++ top :: l2)) = Some top.
Proof.
  intros Hl1 Hl2. induction l1 as [| a l1 IH]; cbn.
  - fold (JS.sort comparefn l2).
    destruct (JS.sort comparefn l2) as [| y sorted] eqn:Hsorted; [done |].
    assert (y ∈ l2) as Hy.
    { apply (sort_elem_of comparefn). rewrite Hsorted. by left. }
    cbn. by destruct (Z.leb_spec (comparefn top y) 0);
      [| specialize (Hl2 y Hy); lia].
  - fold (JS.sort comparefn (l1 ++ top :: l2)).
    assert (head (JS.sort comparefn (l1 ++ top :: l2)) = Some top) as Hhead.
    { apply IH. intros y Hy. apply Hl1. by right. }
    destruct (JS.sort comparefn (l1 ++ top :: l2)) as [| z sorted];
      [done |].
    injection Hhead as ->. cbn.
    destruct (Z.leb_spec (comparefn a top) 0); [| done].
    specialize (Hl1 a ltac:(by left)). lia.
Qed.
End sort_order.

Section merged_history_order.
Import HistoryStorage.

Variable getTime : string -> option Z.

(** When every entry of the two logs, email log first, is dated and not
    older than the one after it, the merged history is that sequence:
    nothing moves, and entries of one creation time keep the order they
    were stored in. *)
Theorem loadAllHistory_keeps_descending_sequence (store : LocalStorage.t) :
  let combined :=
    ((HistoryEntry.Email ∘ withEmailType <$> loadSearchHistory store)
     ++ (HistoryEntry.Company <$> loadCompanySearchHistory store))%list in
  Sorted
    (fun a b =>
       exists ta tb : Z,
         getTime (HistoryEntry.createdAt a) = Some ta /\
         getTime (HistoryEntry.createdAt b) = Some tb /\ tb <= ta)
    combined ->
  loadAllHistory getTime store = combined.
Proof.
  intros combined Hsorted. unfold loadAllHistory.
  change (map ?f ?l) with (f <$> l). rewrite <- list_fmap_compose.
  fold combined. apply sort_Sorted_id.
  induction Hsorted as [| x l _ IH Hhd]; constructor; [done |].
  destruct Hhd as [| y l (ta & tb & Ha & Hb & Hle)]; constructor.
  unfold byCreatedAtDesc. rewrite Ha, Hb. lia.
Qed.

Variable toISOString : Z -> string.
Variables (idNow : Z) (random : string) (createdNow : Z).

(** The merged history is as long as the two logs together; and an entry
    added at a time later than that of every stored entry is the first
    of the merged history read after the addition. *)
Theorem added_entry_tops_merged_history (store : LocalStorage.t) (t : Z) :
  getTime (toISOString createdNow) = Some t ->
  (forall e, e ∈ loadSearchHistory store ->
     exists te, getTime (SearchHistoryEntry.createdAt e) = Some te /\ te < t) ->
  (forall c, c ∈ loadCompanySearchHistory store ->
     exists tc,
       getTime (CompanySearchHistoryEntry.createdAt c) = Some tc /\ tc < t) ->
  length (loadAllHistory getTime store)
  = (length (loadSearchHistory store)
     + length (loadCompanySearchHistory store))%nat /\
  (forall entry,
      let added :=
        addSearchHistoryEntry toISOString idNow random createdNow entry store in
      head (loadAllHistory getTime (snd added))
      = Some (HistoryEntry.Email (fst added))) /\
  (forall entry,
      let added :=
        addCompanySearchHistoryEntry toISOString idNow random createdNow
          entry store in
      head (loadAllHistory getTime (snd added))
      = Some (HistoryEntry.Company (fst added))).
Proof.
  intros Hnow Hemails Hcompanies.
  split_and!.
  - unfold loadAllHistory. by rewrite sort_length, length_app, !length_map.
  - intros entry added. unfold loadAllHistory.
    change (loadSearchHistory (snd added))
      with (slice0 MAX_ENTRIES (fst added :: loadSearchHistory store)).
    change (loadCompanySearchHistory (snd added))
      with (loadCompanySearchHistory store).
    rewrite prepend_slice. cbn [map app].
    change (withEmailType (fst added)) with (fst added).
    apply (sort_head_top _ _ []); [by intros y ?%elem_of_nil |].
    intros y Hy. unfold byCreatedAtDesc. cbn [HistoryEntry.createdAt].
    change (SearchHistoryEntry.createdAt (fst added))
      with (toISOString createdNow).
    rewrite Hnow.
    change (map ?f ?l) with (f <$> l) in Hy.
    apply elem_of_app in Hy as [Hy | Hy].
    + rewrite <- list_fmap_compose in Hy.
      apply list_elem_of_fmap in Hy as (e & -> & He).
      apply elem_of_take in He as (i & He & _).
      apply list_elem_of_lookup_2 in He.
      change (HistoryEntry.createdAt ((HistoryEntry.Email ∘ withEmailType) e))
        with (SearchHistoryEntry.createdAt e).
      destruct (Hemails e He) as (te & -> & Hlt). lia.
    + apply list_elem_of_fmap in Hy as (c & -> & Hc).
      destruct (Hcompanies c Hc) as (tc & Htc & Hlt). cbn. rewrite Htc. lia.
  - intros entry added. unfold loadAllHistory.
    change (loadCompanySearchHistory (snd added))
      with (slice0 MAX_ENTRIES (fst added :: loadCompanySearchHistory store)).
    change (loadSearchHistory (snd added)) with (loadSearchHistory store).
    rewrite prepend_slice. cbn [map].
    apply sort_head_top.
    + intros y Hy. change (map ?f ?l) with (f <$> l) in Hy.
      rewrite <- list_fmap_compose in Hy.
      apply list_elem_of_fmap in Hy as (e & -> & He).
      unfold byCreatedAtDesc. cbn [HistoryEntry.createdAt].
      change (CompanySearchHistoryEntry.createdAt (fst added))
        with (toISOString createdNow).
      rewrite Hnow.
      change (HistoryEntry.createdAt ((HistoryEntry.Email ∘ withEmailType) e))
        with (SearchHistoryEntry.createdAt e).
      destruct (Hemails e He) as (te & -> & Hlt). lia.
    + intros y Hy. change (map ?f ?l) with (f <$> l) in Hy.
      apply list_elem_of_fmap in Hy as (c & -> & Hc).
      apply elem_of_take in Hc as (i & Hc & _).
      apply list_elem_of_lookup_2 in Hc.
      unfold byCreatedAtDesc. cbn [HistoryEntry.createdAt].
      change (CompanySearchHistoryEntry.createdAt (fst added))
        with (toISOString createdNow).
      rewrite Hnow. destruct (Hcompanies c Hc) as (tc & -> & Hlt). lia.
Qed.
End merged_history_order.

Lemma loadAllHistory_keeps_descending_sequence_witness :
  HistoryStorage.loadAllHistory ReferenceHost.parseISO Fixture.tiedHistory
  = [HistoryEntry.Email (HistoryStorage.withEmailType Sample.legacyEmailEntry);
     HistoryEntry.Company Fixture.sameTimeCompanyEntry].
Proof.
  apply (loadAllHistory_keeps_descending_sequence ReferenceHost.parseISO
           Fixture.tiedHistory).
  repeat constructor. exists 10, 10. by split_and!.
Defined.

Lemma added_entry_tops_merged_history_witness :
  head (HistoryStorage.loadAllHistory ReferenceHost.parseISO
          (snd (HistoryStorage.addCompanySearchHistoryEntry
                  (fun _ => "1970-01-01T00:00:00.030Z") 30 "k3j9x2a" 30
                  Sample.companyLookup Sample.history)))
  = Some (HistoryEntry.Company
            (fst (HistoryStorage.addCompanySearchHistoryEntry
                    (fun _ => "1970-01-01T00:00:00.030Z") 30 "k3j9x2a" 30
                    Sample.companyLookup Sample.history))).
Proof.
  destruct (added_entry_tops_merged_history ReferenceHost.parseISO
              (fun _ => "1970-01-01T00:00:00.030Z") 30 "k3j9x2a" 30
              Sample.history 30) as (_ & _ & Hcompany).
  - reflexivity.
  - intros e ->%list_elem_of_singleton. exists 10. by split.
  - intros c ->%list_elem_of_singleton. exists 20. by split.
  - exact (Hcompany Sample.companyLookup).
Defined.

(* ===================================================================== *)
(** ** From a search response to the groups on screen                    *)
(* ===================================================================== *)

Section response_to_groups.
Import CompanyEmployees.
Variable localeCompare : string -> string -> Z.

Lemma find_first (jobs before after : list SearchPersonJob.t)
    (job : SearchPersonJob.t) :
  jobs = (before ++ job :: after)%list ->
  Forall (fun j => SearchPersonJob.current j = false) before ->
  SearchPersonJob.current job = true ->
  List.find SearchPersonJob.current jobs = Some job.
Proof.
  intros -> Hbefore Hjob.
  induction Hbefore as [| j before Hj _ IH]; cbn; [by rewrite Hjob |].
  by rewrite Hj.
Qed.

(** The arrow function [mapSearchResponseToEmployees] maps over the
    results. *)
Local Abbreviation toEmployee :=
  (fun item : SearchResultItem.t =>
     let person := SearchResultItem.person item in
     let currentJob :=
       SearchPersonResult.job_history person
         ≫= List.find SearchPersonJob.current in
     let departments :=
       JS.nullish (currentJob ≫= SearchPersonJob.departments) [] in
     {| Employee.id := SearchPersonResult.person_id person;
        Employee.firstName := SearchPersonResult.first_name person;
        Employee.lastName := SearchPersonResult.last_name person;
        Employee.fullName := SearchPersonResult.full_name person;
        Employee.jobTitle :=
          JS.or_string (SearchPersonResult.current_job_title person)
            (JS.or_string (SearchPersonJob.title <$> currentJob) "");
        Employee.departments :=
          if (0 <? Z.of_nat (length departments)) then departments
          else ["Other"];
        Employee.linkedinUrl := SearchPersonResult.linkedin_url person;
        Employee.location :=
          match SearchPersonResult.location person with
          | Some location =>
              Some (Location.city location +:+ ", "
                    +:+ Location.country location)
          | None => None
          end;
        Employee.seniority := currentJob ≫= SearchPersonJob.seniority |}).

Lemma mapSearchResponseToEmployees_fmap (response : SearchPersonResponse.t) :
  mapSearchResponseToEmployees response
  = toEmployee <$> JS.nullish (SearchPersonResponse.results response) [].
Proof.
  unfold mapSearchResponseToEmployees.
  by destruct (SearchPersonResponse.results response) as [[| item rest] |].
Qed.

Lemma mapped_departments_nonempty (response : SearchPersonResponse.t) :
  Forall (fun e => Employee.departments e <> [])
         (mapSearchResponseToEmployees response).
Proof.
  rewrite mapSearchResponseToEmployees_fmap.
  apply Forall_fmap, Forall_forall. intros item _. cbn.
  destruct (JS.nullish _ _) as [| d ds]; [done |]. by destruct (0 <? _).
Qed.

(** The mapping gives one employee per result, in the order of the
    response and with the id of the person; no employee is left without
    a department; the departments and the seniority are those of the
    first job flagged current, "Other" standing in when there is no such
    job or it lists no department. *)
Theorem mapSearchResponseToEmployees_one_per_result
    (response : SearchPersonResponse.t) :
  let items := JS.nullish (SearchPersonResponse.results response) [] in
  let employees := mapSearchResponseToEmployees response in
  Employee.id <$> employees
  = (SearchPersonResult.person_id ∘ SearchResultItem.person) <$> items /\
  Forall (fun e => Employee.departments e <> []) employees /\
  Forall2
    (fun item e =>
       let person := SearchResultItem.person item in
       (SearchPersonResult.job_history person = None ->
        Employee.departments e = ["Other"]) /\
       (forall jobs,
           SearchPersonResult.job_history person = Some jobs ->
           Forall (fun j => SearchPersonJob.current j = false) jobs ->
           Employee.departments e = ["Other"] /\ Employee.seniority e = None) /\
       (forall before job after,
           SearchPersonResult.job_history person
           = Some (before ++ job :: after)%list ->
           Forall (fun j => SearchPersonJob.current j = false) before ->
           SearchPersonJob.current job = true ->
           Employee.seniority e = SearchPersonJob.seniority job /\
           Employee.departments e
           = match SearchPersonJob.departments job with
             | Some (d :: ds) => d :: ds
             | _ => ["Other"]
             end))
    items employees.
Proof.
  intros items employees.
  split; [| split; [apply mapped_departments_nonempty |]];
    unfold employees; rewrite mapSearchResponseToEmployees_fmap; fold items.
  - by rewrite <- list_fmap_compose.
  - apply Forall2_fmap_r, Forall_Forall2_diag, Forall_forall.
    intros item _. cbn. split_and!.
    + by intros ->.
    + intros jobs -> Hnone. cbn.
      assert (List.find SearchPersonJob.current jobs = None) as ->; [| done].
      induction Hnone as [| j jobs Hj _ IH]; cbn; [done | by rewrite Hj].
    + intros before job after -> Hbefore Hjob. cbn.
      rewrite (find_first _ before after job eq_refl Hbefore Hjob). cbn.
      destruct (SearchPersonJob.departments job) as [[| d ds] |];
        [done | | done].
      split; [done |]. cbn [JS.nullish length].
      by destruct (Z.ltb_spec 0 (Z.of_nat (S (length ds)))); [| lia].
Qed.

(** Every group holds at least one employee and only employees of the
    list; every employee with a department is in some group; so every
    employee mapped from a search response is on screen. *)
Theorem groupByDepartment_covers_without_empty_groups
    (es : list Employee.t) :
  let grouped := groupByDepartment localeCompare es in
  (forall g, g ∈ grouped -> DepartmentGroup.employees g <> []) /\
  (forall g e, g ∈ grouped -> e ∈ DepartmentGroup.employees g -> e ∈ es) /\
  (forall e, e ∈ es -> Employee.departments e <> [] ->
     exists g, g ∈ grouped /\ e ∈ DepartmentGroup.employees g) /\
  (forall response e,
      e ∈ mapSearchResponseToEmployees response ->
      exists g,
        g ∈ groupByDepartment localeCompare
              (mapSearchResponseToEmployees response) /\
        e ∈ DepartmentGroup.employees g).
Proof.
  intros grouped.
  assert (forall es' e, e ∈ es' -> Employee.departments e <> [] ->
            exists g, g ∈ groupByDepartment localeCompare es' /\
                      e ∈ DepartmentGroup.employees g) as Hcover.
  { intros es' e He Hdeps.
    destruct (Employee.departments e) as [| d ds] eqn:Hd; [done |].
    exists {| DepartmentGroup.name := d;
              DepartmentGroup.employees :=
                JS.nullish (JS.map_get d (departmentMap es')) [] |}.
    assert (d ∈ Employee.departments e) as Hin by (rewrite Hd; by left).
    split; [| by apply elem_of_bucket].
    apply elem_of_groupByDepartment. split; [by exists e | done]. }
  split_and!.
  - intros g Hg Hempty.
    pose proof Hg as [(e & He & Hd) _]%elem_of_groupByDepartment.
    assert (e ∈ DepartmentGroup.employees g) as Hin
        by (by apply (groupByDepartment_member localeCompare es e g Hg)).
    rewrite Hempty in Hin. by apply elem_of_nil in Hin.
  - intros g e Hg He.
    by apply (groupByDepartment_member localeCompare es e g Hg) in He as [? _].
  - apply Hcover.
  - intros response e He. apply Hcover; [done |].
    pose proof (mapped_departments_nonempty response) as Hdeps.
    rewrite Forall_forall in Hdeps. by apply Hdeps.
Qed.
End response_to_groups.

Lemma mapSearchResponseToEmployees_one_per_result_witness :
  Employee.id <$> CompanyEmployees.mapSearchResponseToEmployees Fixture.busyPage
  = ["d"; "e"] /\
  Employee.departments
  <$> CompanyEmployees.mapSearchResponseToEmployees Fixture.busyPage
  = [["Sales"; "Marketing"]; ["Other"]].
Proof.
  destruct (mapSearchResponseToEmployees_one_per_result Fixture.busyPage)
    as (Hids & _ & Hjobs).
  split; [exact Hids |].
  apply Forall2_cons_inv_l in Hjobs as (d & rest & (_ & _ & Hfirst) & Hjobs & Heq).
  apply Forall2_cons_inv_l in Hjobs as (e & rest' & (_ & Hnone & _) & Hnil & ->).
  apply Forall2_nil_inv_l in Hnil as ->. rewrite Heq. cbn.
  destruct (Hfirst [Fixture.pastJob] Fixture.salesJob [Fixture.boardJob])
    as [_ ->]; [reflexivity | by repeat constructor | reflexivity |].
  destruct (Hnone [Fixture.pastJob]) as [-> _];
    [reflexivity | by repeat constructor | reflexivity].
Defined.

Lemma groupByDepartment_covers_without_empty_groups_witness :
  exists g,
    g ∈ CompanyEmployees.groupByDepartment ReferenceHost.ordinalCompare
          (CompanyEmployees.mapSearchResponseToEmployees Fixture.busyPage) /\
    Sample.employee "e" ["Other"] ∈ DepartmentGroup.employees g.
Proof.
  destruct (groupByDepartment_covers_without_empty_groups
              ReferenceHost.ordinalCompare [])
    as (_ & _ & _ & Hmapped).
  apply (Hmapped Fixture.busyPage). cbn. right. by left.
Defined.

(* ===================================================================== *)
(** ** Grouping by department: order and size of the groups              *)
(* ===================================================================== *)

Section group_contents.
Import CompanyEmployees.
Variable localeCompare : string -> string -> Z.
Implicit Types (m : list (string * list Employee.t)) (e : Employee.t).
Implicit Types (d : string) (es : list Employee.t).

Lemma copies_NoDup (ds : list string) d e :
  NoDup ds ->
  (fun _ : string => e) <$> filter (fun x => x = d) ds
  = if decide (d ∈ ds) then [e] else [].
Proof.
  induction 1 as [| x ds Hx Hnd IH].
  - by rewrite decide_False by apply not_elem_of_nil.
  - rewrite filter_cons. destruct (decide (x = d)) as [-> | Hne].
    + rewrite decide_True by (by left). cbn. f_equal.
      rewrite IH. by rewrite decide_False.
    + rewrite IH. destruct (decide (d ∈ ds)) as [Hin | Hin].
      * rewrite decide_True; [done | by right].
      * rewrite decide_False; [done |]. by intros [-> | ?]%elem_of_cons.
Qed.

(** When no employee lists a department twice, a group holds the
    employees of its department in the order of the list, each once. *)
Theorem groupByDepartment_members_in_list_order es (g : DepartmentGroup.t) :
  Forall (fun e => NoDup (Employee.departments e)) es ->
  g ∈ groupByDepartment localeCompare es ->
  DepartmentGroup.employees g
  = filter (fun e => DepartmentGroup.name g ∈ Employee.departments e) es.
Proof.
  intros Hnd [_ ->]%elem_of_groupByDepartment.
  unfold departmentMap. rewrite foldl_addEmployee_bucket. cbn.
  induction Hnd as [| e es He _ IH]; [done |].
  rewrite filter_cons, <- IH.
  change ((e :: es) ≫= ?f) with (f e ++ (es ≫= f))%list.
  cbv beta. rewrite (copies_NoDup _ _ _ He).
  by destruct (decide (DepartmentGroup.name g ∈ Employee.departments e)).
Qed.

(** The sizes of the arrays of a department map. *)
Local Abbreviation total m := (sum_list_with (fun kv => length (snd kv)) m).

Lemma total_set m d e :
  total (JS.map_set d (JS.nullish (JS.map_get d m) [] ++ [e])%list m)
  = S (total m).
Proof.
  induction m as [| [k v] m IH]; cbn; [done |].
  destruct (String.eqb_spec k d) as [-> | Hne]; cbn.
  - rewrite length_app. cbn. lia.
  - rewrite IH. lia.
Qed.

Lemma total_addEmployee m e :
  total (addEmployee m e) = (total m + length (Employee.departments e))%nat.
Proof.
  unfold addEmployee. generalize m.
  induction (Employee.departments e) as [| d ds IH]; intros m0; cbn;
    [lia |].
  rewrite IH, total_set. lia.
Qed.

Lemma total_departmentMap es :
  total (departmentMap es)
  = sum_list_with (fun e => length (Employee.departments e)) es.
Proof.
  unfold departmentMap.
  assert (forall m, total (foldl addEmployee m es)
                    = (total m + sum_list_with
                                   (fun e => length (Employee.departments e))
                                   es)%nat) as Hgen.
  { induction es as [| e es IH]; intros m; cbn; [lia |].
    rewrite IH, total_addEmployee. lia. }
  by rewrite Hgen.
Qed.

Lemma total_by_keys m :
  NoDup (JS.map_keys m) ->
  sum_list_with (fun k => length (JS.nullish (JS.map_get k m) []))
                (JS.map_keys m)
  = total m.
Proof.
  induction m as [| [k v] m IH]; [done |].
  intros [Hk Hnd]%NoDup_cons. cbn. rewrite String.eqb_refl. cbn.
  f_equal. rewrite <- (IH Hnd).
  assert (forall keys : list string,
             k ∉ keys ->
             sum_list_with
               (fun k0 => length (JS.nullish
                                    (if String.eqb k k0 then Some v
                                     else JS.map_get k0 m) []))
               keys
             = sum_list_with
                 (fun k0 => length (JS.nullish (JS.map_get k0 m) [])) keys)
    as Hother.
  { induction keys as [| k0 keys IHkeys]; [done |].
    intros Hnot. cbn.
    destruct (String.eqb_spec k k0) as [-> | Hne];
      [exfalso; apply Hnot; by left |].
    rewrite IHkeys; [done |]. intros Hin. apply Hnot. by right. }
  by apply Hother.
Qed.

(** The sizes of the groups add up to the number of department labels
    of the employees: each label of each employee is one place in one
    group. *)
Theorem groupByDepartment_sizes_add_up es :
  sum_list_with (fun g => length (DepartmentGroup.employees g))
                (groupByDepartment localeCompare es)
  = sum_list_with (fun e => length (Employee.departments e)) es.
Proof.
  unfold groupByDepartment. change (map ?f ?l) with (f <$> l).
  rewrite <- total_departmentMap,
    <- (total_by_keys _ (departmentMap_NoDup es)).
  transitivity
    (sum_list_with
       (fun k => length (JS.nullish (JS.map_get k (departmentMap es)) []))
       (JS.sort (compareDepartments localeCompare)
          (JS.map_keys (departmentMap es)))).
  - generalize (JS.sort (compareDepartments localeCompare)
                  (JS.map_keys (departmentMap es))).
    intros names. induction names as [| name names IH]; [done |].
    cbn. by rewrite IH.
  - apply sum_list_with_Permutation_proper, sort_perm.
Qed.
End group_contents.

Lemma groupByDepartment_members_in_list_order_witness :
  Forall
    (fun g =>
       DepartmentGroup.employees g
       = filter (fun e => DepartmentGroup.name g ∈ Employee.departments e)
                Sample.staff)
    (CompanyEmployees.groupByDepartment ReferenceHost.ordinalCompare
       Sample.staff).
Proof.
  apply Forall_forall. intros g Hg.
  apply (groupByDepartment_members_in_list_order
           ReferenceHost.ordinalCompare Sample.staff g); [| exact Hg].
  repeat constructor; cbn; compute_done.
Defined.

(* ===================================================================== *)
(** ** The employee view: load-more and search                           *)
(* ===================================================================== *)

Section view_transitions.
Import CompanyEmployees.

Variable searchPerson : string -> Z -> JS.Result SearchPersonResponse.t.
Variable fetchCredits : JS.Result Z.
Variable toISOString : Z -> string.
Variables (idNow : Z) (random : string) (createdNow : Z).
Variable initialDomain : string.

(** The three ways a load-more ends. *)
Lemma loadMoreEmployees_cases (st : ViewState.t) :
  loadMoreEmployees searchPerson fetchCredits initialDomain st = st \/
  (exists response,
      ViewState.currentPage st < ViewState.totalPages st /\
      ViewState.isLoading st = false /\
      searchPerson initialDomain (ViewState.currentPage st + 1)
      = JS.Ok response /\
      ViewState.employees
        (loadMoreEmployees searchPerson fetchCredits initialDomain st)
      = (ViewState.employees st ++
         filter (fun e => Employee.id e ∉ Employee.id <$> ViewState.employees st)
                (mapSearchResponseToEmployees response))%list) \/
  (exists m,
      searchPerson initialDomain (ViewState.currentPage st + 1) = JS.Throw m /\
      ViewState.employees
        (loadMoreEmployees searchPerson fetchCredits initialDomain st)
      = ViewState.employees st).
Proof.
  destruct (Z.leb_spec (ViewState.totalPages st) (ViewState.currentPage st))
    as [Hlast | Hmore].
  { left. unfold loadMoreEmployees.
    by destruct (Z.leb_spec (ViewState.totalPages st)
                   (ViewState.currentPage st)); [| lia]. }
  destruct (ViewState.isLoading st) eqn:Hloading.
  { left. unfold loadMoreEmployees. by rewrite Hloading, orb_true_r. }
  destruct (searchPerson initialDomain (ViewState.currentPage st + 1))
    as [response | m] eqn:Hfetch.
  - right. left. exists response. split_and!; try done.
    by apply loadMoreEmployees_employees.
  - right. right. exists m. split; [done |]. unfold loadMoreEmployees.
    rewrite Hloading, Hfetch, orb_false_r.
    by destruct (Z.leb_spec (ViewState.totalPages st)
                   (ViewState.currentPage st)); [lia |].
Qed.

(** On the last page, or while a request is in flight, load-more leaves
    the view as it is whatever the backend would answer; and a request
    that fails keeps the employees and both counters, ends the loading
    and takes the balance from the refresh when that succeeds. *)
Theorem loadMoreEmployees_idle_or_failed (st : ViewState.t) :
  (ViewState.totalPages st <= ViewState.currentPage st \/
   ViewState.isLoading st = true ->
   loadMoreEmployees searchPerson fetchCredits initialDomain st = st) /\
  (forall m,
      ViewState.currentPage st < ViewState.totalPages st ->
      ViewState.isLoading st = false ->
      searchPerson initialDomain (ViewState.currentPage st + 1) = JS.Throw m ->
      let st' := loadMoreEmployees searchPerson fetchCredits initialDomain st in
      ViewState.employees st' = ViewState.employees st /\
      ViewState.currentPage st' = ViewState.currentPage st /\
      ViewState.totalPages st' = ViewState.totalPages st /\
      ViewState.isLoading st' = false /\
      ViewState.credits st'
      = match fetchCredits with
        | JS.Ok balance => Some balance
        | JS.Throw _ => ViewState.credits st
        end).
Proof.
  split.
  - intros [Hlast | Hloading]; unfold loadMoreEmployees.
    + by destruct (Z.leb_spec (ViewState.totalPages st)
                     (ViewState.currentPage st)); [| lia].
    + by rewrite Hloading, orb_true_r.
  - intros m Hmore Hidle Hfetch. unfold loadMoreEmployees.
    rewrite Hidle, Hfetch, orb_false_r.
    by destruct (Z.leb_spec (ViewState.totalPages st)
                   (ViewState.currentPage st)); [lia |].
Qed.

(** Whatever way a load-more ends, the employees already accumulated
    stay at the start of the list in their order; and when their ids
    are distinct and those of the fetched page are, the ids of the list
    are distinct afterwards. *)
Theorem loadMoreEmployees_keeps_prefix_and_unique_ids (st : ViewState.t) :
  let st' := loadMoreEmployees searchPerson fetchCredits initialDomain st in
  ViewState.employees st `prefix_of` ViewState.employees st' /\
  (NoDup (Employee.id <$> ViewState.employees st) ->
   (forall response,
       searchPerson initialDomain (ViewState.currentPage st + 1)
       = JS.Ok response ->
       NoDup (Employee.id <$> mapSearchResponseToEmployees response)) ->
   NoDup (Employee.id <$> ViewState.employees st')).
Proof.
  intros st'. unfold st'.
  destruct (loadMoreEmployees_cases st)
    as [-> | [(response & _ & _ & Hfetch & ->) | (m & _ & ->)]];
    [by split | | by split].
  split; [by apply prefix_app_r |].
  intros Hold Hpage. rewrite fmap_app. apply NoDup_app. split_and!.
  - done.
  - intros id Hid (e & -> & He)%list_elem_of_fmap.
    by apply list_elem_of_filter in He as [Hfresh _].
  - apply (sublist_NoDup _
             (Employee.id <$> mapSearchResponseToEmployees response));
      [by apply Hpage | apply fmap_sublist, sublist_filter].
Qed.

(** A search for a blank domain leaves the view and the store as they
    are whatever the backend would answer.  A search that fails empties
    the list, zeroes both counters and leaves the store.  A search that
    succeeds replaces the list by the mapped employees, whatever was
    accumulated; it leaves the store when no employee was found, and
    otherwise puts at the head of the company log an entry for the
    searched domain with the snapshot of these employees. *)
Theorem searchCompany_outcomes
    (searchDomain : string) (company : option CompanyInfo.t)
    (st : ViewState.t) (store : LocalStorage.t) :
  let settled :=
    searchCompany searchPerson fetchCredits toISOString idNow random
      createdNow searchDomain company st store in
  (JS.trim searchDomain = "" -> settled = (st, store)) /\
  (JS.trim searchDomain <> "" ->
   (forall m,
       searchPerson searchDomain 1 = JS.Throw m ->
       ViewState.employees (fst settled) = [] /\
       ViewState.currentPage (fst settled) = 0 /\
       ViewState.totalPages (fst settled) = 0 /\
       ViewState.hasSearched (fst settled) = true /\
       ViewState.isLoading (fst settled) = false /\
       snd settled = store) /\
   (forall response,
       searchPerson searchDomain 1 = JS.Ok response ->
       let mapped := mapSearchResponseToEmployees response in
       ViewState.employees (fst settled) = mapped /\
       ViewState.hasSearched (fst settled) = true /\
       ViewState.isLoading (fst settled) = false /\
       HistoryStorage.loadSearchHistory (snd settled)
       = HistoryStorage.loadSearchHistory store /\
       (mapped = [] -> snd settled = store) /\
       (mapped <> [] ->
        exists entry,
          HistoryStorage.loadCompanySearchHistory (snd settled)
          = entry :: take 99 (HistoryStorage.loadCompanySearchHistory store) /\
          CompanySearchHistoryEntry.domain entry = searchDomain /\
          CompanySearchHistoryEntry.employees entry
          = Some (toCachedEmployee <$> mapped) /\
          CompanySearchHistoryEntry.id entry
          = HistoryStorage.generateId idNow random))).
Proof.
  intros settled. unfold settled, searchCompany. split.
  { by intros ->. }
  intros Hdomain.
  destruct (JS.trim searchDomain) as [| a trimmed]; [done |].
  cbn [JS.truthy_string negb]. split.
  - by intros m ->.
  - intros response ->.
    set (mapped := mapSearchResponseToEmployees response).
    destruct mapped as [| e rest] eqn:Hmapped.
    + cbn. by split_and!.
    + assert ((0 <? Z.of_nat (length (e :: rest))) = true) as ->
          by (apply Z.ltb_lt; cbn; lia).
      split_and!; try done.
      eexists. split; [reflexivity |]. by split_and!.
Qed.
End view_transitions.

Lemma loadMoreEmployees_idle_or_failed_witness :
  CompanyEmployees.loadMoreEmployees
    (fun _ _ => JS.Ok Sample.page2) (JS.Throw "offline") "acme.com"
    Sample.initial = Sample.initial /\
  ViewState.employees
    (CompanyEmployees.loadMoreEmployees
       (fun _ _ => JS.Throw "Rate limit exceeded") (JS.Ok 40) "acme.com"
       Sample.afterPage1)
  = ViewState.employees Sample.afterPage1.
Proof.
  split.
  - apply (loadMoreEmployees_idle_or_failed
             (fun _ _ => JS.Ok Sample.page2) (JS.Throw "offline") "acme.com"
             Sample.initial).
    left. cbn. lia.
  - destruct (loadMoreEmployees_idle_or_failed
                (fun _ _ => JS.Throw "Rate limit exceeded") (JS.Ok 40)
                "acme.com" Sample.afterPage1) as [_ Hfailed].
    by destruct (Hfailed "Rate limit exceeded" eq_refl eq_refl eq_refl)
      as [Hemployees _].
Defined.

Lemma loadMoreEmployees_keeps_prefix_and_unique_ids_witness :
  NoDup (Employee.id
         <$> ViewState.employees
               (CompanyEmployees.loadMoreEmployees
                  (fun _ _ => JS.Ok Sample.page2) (JS.Throw "offline")
                  "acme.com" Sample.afterPage1)).
Proof.
  destruct (loadMoreEmployees_keeps_prefix_and_unique_ids
              (fun _ _ => JS.Ok Sample.page2) (JS.Throw "offline")
              "acme.com" Sample.afterPage1) as [_ Hunique].
  apply Hunique.
  - cbn. compute_done.
  - intros response [= <-]. cbn. compute_done.
Defined.

Lemma searchCompany_outcomes_witness :
  CompanyEmployees.searchCompany
    (fun _ _ => JS.Ok Sample.page2) (JS.Throw "offline")
    (fun _ => "1970-01-01T00:00:00.030Z") 30 "k3j9x2a" 30
    "   " None Sample.afterPage1 Sample.history
  = (Sample.afterPage1, Sample.history).
Proof.
  destruct (searchCompany_outcomes
              (fun _ _ => JS.Ok Sample.page2) (JS.Throw "offline")
              (fun _ => "1970-01-01T00:00:00.030Z") 30 "k3j9x2a" 30
              "   " None Sample.afterPage1 Sample.history) as [Hblank _].
  exact (Hblank eq_refl).
Defined.

(* ===================================================================== *)
(** ** The enrichment record and the lookups that record it              *)
(* ===================================================================== *)

Lemma or_null_not_empty (o : option string) : JS.or_null o <> Some "".
Proof. by destruct o as [[| a s] |]. Qed.

Section enrichment_record.
Import CompanyEmployees EmailFinder.

(** A record either mapper returns carries the address of the response,
    which is not empty, and the names of the person; and none of its
    optional texts is the empty string: an empty string of the response
    is mapped to [null]. *)
Theorem enrichment_record_has_email_and_no_empty_text
    (response : EnrichPersonResponse.t) (domain : string)
    (data : EnrichedData.t) :
  mapEnrichResponseToData response domain = Some data \/
  mapResponseToEnrichedData response domain = Some data ->
  let person := EnrichedData.person data in
  let company := EnrichedData.company data in
  let email := PersonData.email.email (PersonData.email person) in
  email <> "" /\
  (EnrichPersonResponse.person response
     ≫= EnrichPersonResponse.person.email)
    ≫= EnrichPersonResponse.email.email = Some email /\
  (exists p,
      EnrichPersonResponse.person response = Some p /\
      PersonData.first_name person = EnrichPersonResponse.person.first_name p /\
      PersonData.last_name person = EnrichPersonResponse.person.last_name p /\
      PersonData.full_name person = EnrichPersonResponse.person.full_name p) /\
  (PersonData.headline person <> Some "" /\
   PersonData.linkedin_url person <> Some "" /\
   PersonData.current_job_title person <> Some "" /\
   (forall mobile, PersonData.mobile person = Some mobile ->
      Mobile.mobile_international mobile <> Some "")) /\
  (CompanyData.type company <> Some "" /\
   CompanyData.description_ai company <> Some "" /\
   CompanyData.linkedin_url company <> Some "" /\
   CompanyData.twitter_url company <> Some "" /\
   CompanyData.logo_url company <> Some "" /\
   CompanyData.revenue_range_printed company <> Some "").
Proof.
  intros Hdata.
  assert (mapEnrichResponseToData response domain = Some data) as Hmapped
      by (by destruct Hdata).
  clear Hdata. unfold mapEnrichResponseToData in Hmapped.
  destruct (EnrichPersonResponse.person response) as [p |]; [| done].
  destruct (EnrichPersonResponse.person.email p) as [e |] eqn:He; [| done].
  destruct (EnrichPersonResponse.email.email e) as [a |] eqn:Ha; [| done].
  destruct a as [| c a]; [done |]. cbn [JS.truthy_string negb] in Hmapped.
  injection Hmapped as <-. cbn. rewrite He. cbn. rewrite Ha.
  split_and!; try done; try apply or_null_not_empty.
  - by exists p.
  - intros mobile Hmobile.
    destruct (EnrichPersonResponse.person.mobile p) as [raw |]; [| done].
    injection Hmobile as <-. apply or_null_not_empty.
Qed.
End enrichment_record.

Section lookup_flows.
Import LookupFlows.

Variable enrichPerson :
  string -> string -> string -> JS.Result EnrichPersonResponse.t.
Variable fetchCredits : JS.Result Z.
Variable toISOString : Z -> string.
Variables (idNow : Z) (random : string) (createdNow : Z).

(** Every submit of the form that settles puts exactly one entry at the
    head of the email log, for the submitted names and domain: a success
    entry with the email and the record when a record is pushed, an
    error entry with the message shown in the form otherwise; a response
    without email counts as an error with a fixed message.  The company
    log is not touched. *)
Theorem handleSubmit_records_every_lookup
    (firstName lastName domain : string)
    (st : FormState.t) (store : LocalStorage.t) :
  let settled :=
    handleSubmit enrichPerson fetchCredits toISOString idNow random createdNow
      firstName lastName domain st store in
  let st' := fst (fst settled) in
  let store' := snd (fst settled) in
  let pushed := snd settled in
  exists recorded,
    HistoryStorage.loadSearchHistory store'
    = recorded :: take 99 (HistoryStorage.loadSearchHistory store) /\
    HistoryStorage.loadCompanySearchHistory store'
    = HistoryStorage.loadCompanySearchHistory store /\
    SearchHistoryEntry.firstName recorded = firstName /\
    SearchHistoryEntry.lastName recorded = lastName /\
    SearchHistoryEntry.domain recorded = domain /\
    FormState.isLoading st' = false /\
    match pushed with
    | Some data =>
        SearchHistoryEntry.status recorded = Status.success /\
        SearchHistoryEntry.enrichedData recorded = Some data /\
        SearchHistoryEntry.email recorded
        = Some (PersonData.email.email
                  (PersonData.email (EnrichedData.person data))) /\
        FormState.error st' = None /\
        exists response,
          enrichPerson firstName lastName domain = JS.Ok response /\
          EmailFinder.mapResponseToEnrichedData response domain = Some data
    | None =>
        SearchHistoryEntry.status recorded = Status.error /\
        SearchHistoryEntry.email recorded = None /\
        SearchHistoryEntry.enrichedData recorded = None /\
        is_Some (SearchHistoryEntry.error recorded) /\
        SearchHistoryEntry.error recorded = FormState.error st' /\
        ((exists m, enrichPerson firstName lastName domain = JS.Throw m /\
                    FormState.error st' = Some m) \/
         (exists response,
             enrichPerson firstName lastName domain = JS.Ok response /\
             EmailFinder.mapResponseToEnrichedData response domain = None /\
             FormState.error st' = Some "No email found for this person"))
    end.
Proof.
  intros settled st' store' pushed.
  unfold pushed, store', st', settled, handleSubmit.
  destruct (enrichPerson firstName lastName domain) as [response | m].
  - destruct (EmailFinder.mapResponseToEnrichedData response domain)
      as [data |] eqn:Hdata; cbn [fst snd].
    + eexists. split; [reflexivity |].
      split_and!; try reflexivity. by exists response.
    + eexists. split; [reflexivity |].
      split_and!; try reflexivity; [by eexists |].
      right. by exists response.
  - cbn [fst snd]. eexists. split; [reflexivity |].
    split_and!; try reflexivity; [by eexists |].
    left. by exists m.
Qed.

(** The reveal of an employee's email writes nothing once its view was
    torn down; otherwise it puts exactly one entry at the head of the
    email log, for the names of the employee and the domain: a success
    entry with the record shown, or an error entry with the message
    shown. *)
Theorem fetchEnrichedData_records_unless_cancelled
    (employee : Employee.t) (domain : string)
    (st : RevealState.t) (store : LocalStorage.t) :
  fetchEnrichedData enrichPerson fetchCredits toISOString idNow random
    createdNow true employee domain st store = (st, store) /\
  (let settled :=
     fetchEnrichedData enrichPerson fetchCredits toISOString idNow random
       createdNow false employee domain st store in
   exists recorded,
     HistoryStorage.loadSearchHistory (snd settled)
     = recorded :: take 99 (HistoryStorage.loadSearchHistory store) /\
     HistoryStorage.loadCompanySearchHistory (snd settled)
     = HistoryStorage.loadCompanySearchHistory store /\
     SearchHistoryEntry.firstName recorded = Employee.firstName employee /\
     SearchHistoryEntry.lastName recorded = Employee.lastName employee /\
     SearchHistoryEntry.domain recorded = domain /\
     RevealState.isLoading (fst settled) = false /\
     ((SearchHistoryEntry.status recorded = Status.success /\
       is_Some (RevealState.enrichedData (fst settled)) /\
       SearchHistoryEntry.enrichedData recorded
       = RevealState.enrichedData (fst settled) /\
       RevealState.error (fst settled) = RevealState.error st) \/
      (SearchHistoryEntry.status recorded = Status.error /\
       is_Some (RevealState.error (fst settled)) /\
       SearchHistoryEntry.error recorded = RevealState.error (fst settled) /\
       RevealState.enrichedData (fst settled) = RevealState.enrichedData st))).
Proof.
  split; [reflexivity |].
  intros settled. unfold settled, fetchEnrichedData.
  destruct (enrichPerson (Employee.firstName employee)
              (Employee.lastName employee) domain) as [response | m].
  - destruct (CompanyEmployees.mapEnrichResponseToData response domain)
      as [data |]; cbn [fst snd].
    + eexists. split; [reflexivity |].
      split_and!; try reflexivity. left. by split_and!.
    + eexists. split; [reflexivity |].
      split_and!; try reflexivity. right. by split_and!.
  - cbn [fst snd]. eexists. split; [reflexivity |].
    split_and!; try reflexivity. right. by split_and!.
Qed.
End lookup_flows.

Lemma enrichment_record_has_email_and_no_empty_text_witness :
  exists data,
    EmailFinder.mapResponseToEnrichedData
      (Sample.enriched
         (Some (Sample.rawPerson (Some (Sample.rawEmail (Some "ada@acme.com")))))
         (Some Sample.rawCompany))
      "acme.com" = Some data /\
    PersonData.email.email (PersonData.email (EnrichedData.person data))
    <> "".
Proof.
  eexists. split; [reflexivity |].
  refine (proj1 (enrichment_record_has_email_and_no_empty_text
                   (Sample.enriched
                      (Some (Sample.rawPerson
                               (Some (Sample.rawEmail (Some "ada@acme.com")))))
                      (Some Sample.rawCompany))
                   "acme.com" _ (or_intror eq_refl))).
Defined.

(* ===================================================================== *)
(** ** Display helpers                                                   *)
(* ===================================================================== *)

(** [resolveLogoUrl] gives no URL exactly for a missing or empty logo;
    a URL it gives is absolute (it starts with http:// or https://), and
    resolving it again leaves it as it is. *)
Theorem resolveLogoUrl_absolute_and_stable (logo : option string) :
  (EmailFinder.resolveLogoUrl logo = None <-> logo = None \/ logo = Some "") /\
  (forall url,
      EmailFinder.resolveLogoUrl logo = Some url ->
      String.prefix "http://" url || String.prefix "https://" url = true /\
      EmailFinder.resolveLogoUrl (Some url) = Some url /\
      (url = JS.nullish logo "" \/
       url = EmailFinder.COMPANY_LOGO_BASE +:+ JS.nullish logo "")).
Proof.
  unfold EmailFinder.resolveLogoUrl.
  destruct logo as [[| c s] |]; cbn [JS.truthy_string negb JS.nullish].
  - split; [split; [by right | done] | done].
  - destruct (String.prefix "http://" (String c s)
              || String.prefix "https://" (String c s)) eqn:Habsolute.
    + split; [split; [done | by intros [|]] |].
      intros url [= <-]. cbn [JS.truthy_string negb].
      rewrite Habsolute. split_and!; [done | done | by left].
    + split; [split; [done | by intros [|]] |].
      intros url [= <-]. split_and!; [done | done | by right].
  - split; [split; [by left | done] | done].
Qed.

Lemma resolveLogoUrl_absolute_and_stable_witness :
  EmailFinder.resolveLogoUrl (Some "acme.png")
  = Some (EmailFinder.COMPANY_LOGO_BASE +:+ "acme.png") /\
  EmailFinder.resolveLogoUrl
    (Some (EmailFinder.COMPANY_LOGO_BASE +:+ "acme.png"))
  = Some (EmailFinder.COMPANY_LOGO_BASE +:+ "acme.png").
Proof.
  split; [reflexivity |].
  exact (proj1 (proj2 (proj2 (resolveLogoUrl_absolute_and_stable
                                (Some "acme.png")) _ eq_refl))).
Defined.

(** [formatMonthYear] prints nothing for the year 0, and otherwise the
    year, preceded by the name of the month exactly when the month is
    between 1 and 12: the index into the twelve names is never out of
    range. *)
Theorem formatMonthYear_month_in_range (year month : Z) :
  (year = 0 -> EmailFinder.formatMonthYear year month = "") /\
  (year <> 0 -> 1 <= month <= 12 ->
   exists name,
     EmailFinder.monthNames !! Z.to_nat (month - 1) = Some name /\
     EmailFinder.formatMonthYear year month = name +:+ " " +:+ pretty year) /\
  (year <> 0 -> ~ 1 <= month <= 12 ->
   EmailFinder.formatMonthYear year month = pretty year).
Proof.
  unfold EmailFinder.formatMonthYear, EmailFinder.element.
  split_and!.
  - by intros ->.
  - intros Hyear Hmonth.
    destruct (Z.eqb_spec year 0) as [| _]; [done |].
    destruct (Z.eqb_spec month 0) as [| _]; [lia |].
    destruct (Z.leb_spec 1 month); [| lia].
    destruct (Z.leb_spec month 12); [| lia]. cbn [negb andb].
    assert (Z.to_nat (month - 1) < length EmailFinder.monthNames)%nat
      as Hbound by (cbn; lia).
    apply lookup_lt_is_Some_2 in Hbound as [name Hname].
    exists name. by rewrite Hname.
  - intros Hyear Hmonth.
    destruct (Z.eqb_spec year 0) as [| _]; [done |].
    destruct (Z.eqb_spec month 0) as [| _]; [done |].
    destruct (Z.leb_spec 1 month); [| done].
    destruct (Z.leb_spec month 12); [lia | done].
Qed.

Lemma formatMonthYear_month_in_range_witness :
  EmailFinder.formatMonthYear 2024 3 = "Mar 2024" /\
  EmailFinder.formatMonthYear 2024 13 = "2024".
Proof.
  split; [reflexivity |].
  apply (proj2 (proj2 (formatMonthYear_month_in_range 2024 13))); lia.
Defined.

Section relative_time.
Import SearchHistory.

Variable getTime : string -> option Z.
Variable now : Z.
Variables getMonth getDate getFullYear : Z -> Z.

(** The age shown for a history entry: "Just now" below one minute (and
    for a date in the future), whole minutes from 1 to 59 below one
    hour, whole hours from 1 to 23 below one day, whole days from 1 to 6
    below one week, and the calendar date from one week on. *)
Theorem formatRelativeTime_brackets (isoString : string) (date : Z) :
  getTime isoString = Some date ->
  let elapsed := now - date in
  let shown :=
    formatRelativeTime getTime now getMonth getDate getFullYear isoString in
  (elapsed < 60000 -> shown = "Just now") /\
  (60000 <= elapsed < 3600000 ->
   1 <= elapsed / 60000 <= 59 /\
   shown = pretty (elapsed / 60000) +:+ "m ago") /\
  (3600000 <= elapsed < 86400000 ->
   1 <= elapsed / 3600000 <= 23 /\
   shown = pretty (elapsed / 3600000) +:+ "h ago") /\
  (86400000 <= elapsed < 604800000 ->
   1 <= elapsed / 86400000 <= 6 /\
   shown = pretty (elapsed / 86400000) +:+ "d ago") /\
  (604800000 <= elapsed ->
   shown = padStart2 (pretty (getMonth date + 1)) +:+ "/" +:+
           padStart2 (pretty (getDate date)) +:+ "/" +:+
           pretty (getFullYear date)).
Proof.
  intros Hdate elapsed shown. unfold shown, formatRelativeTime.
  rewrite Hdate. fold elapsed. cbv zeta.
  split_and!; intros Helapsed;
    repeat match goal with
           | |- context [?a <? ?b] => destruct (Z.ltb_spec a b)
           end;
    try (split; [| reflexivity]); try reflexivity;
    Z.div_mod_to_equations; lia.
Qed.
End relative_time.

Lemma formatRelativeTime_brackets_witness :
  SearchHistory.formatRelativeTime ReferenceHost.parseISO 7200000
    (fun _ => 0) (fun _ => 1) (fun _ => 1970) "1970-01-01T00:00:00.000Z"
  = "2h ago".
Proof.
  apply (proj2 (proj1 (proj2 (proj2
    (formatRelativeTime_brackets ReferenceHost.parseISO 7200000
       (fun _ => 0) (fun _ => 1) (fun _ => 1970)
       "1970-01-01T00:00:00.000Z" 0 eq_refl))) ltac:(lia))).
Defined.

(* ===================================================================== *)
(** ** The history list: filters and removal                             *)
(* ===================================================================== *)

Lemma List_filter_true {A : Type} (p : A -> bool) (l : list A) :
  (forall x, x ∈ l -> p x = true) -> List.filter p l = l.
Proof.
  induction l as [| x l IH]; intros Hp; cbn; [done |].
  rewrite (Hp x) by left. f_equal. apply IH. intros y Hy. apply Hp. by right.
Qed.

Lemma List_filter_false {A : Type} (p : A -> bool) (l : list A) :
  (forall x, x ∈ l -> p x = false) -> List.filter p l = [].
Proof.
  induction l as [| x l IH]; intros Hp; cbn; [done |].
  rewrite (Hp x) by left. apply IH. intros y Hy. apply Hp. by right.
Qed.

Lemma List_filter_Permutation {A : Type} (p : A -> bool) (l l' : list A) :
  l ≡ₚ l' -> List.filter p l ≡ₚ List.filter p l'.
Proof.
  induction 1 as [| x l l' _ IH | x y l | l l' l'' _ IH _ IH']; cbn.
  - done.
  - destruct (p x); by rewrite IH.
  - destruct (p x), (p y); try done. apply perm_swap.
  - by etrans.
Qed.

Lemma List_filter_split {A : Type} (p q r : A -> bool) (l : list A) :
  (forall x, x ∈ l -> r x = p x || q x /\ p x && q x = false) ->
  (List.filter p l ++ List.filter q l)%list ≡ₚ List.filter r l.
Proof.
  induction l as [| x l IH]; intros Hpq; cbn; [done |].
  destruct (Hpq x) as [-> Hdisjoint]; [left |].
  assert ((List.filter p l ++ List.filter q l)%list ≡ₚ List.filter r l)
    as IH' by (apply IH; intros y Hy; apply Hpq; by right).
  destruct (p x), (q x); cbn in *; try done.
  - by apply perm_skip.
  - rewrite <- Permutation_middle. by apply perm_skip.
Qed.

Section history_view.
Import HistoryStorage SearchHistory.

Variable getTime : string -> option Z.

Lemma elem_of_loadAllHistory (store : LocalStorage.t)
    (other : HistoryEntry.t) :
  other ∈ loadAllHistory getTime store <->
  (exists e, e ∈ loadSearchHistory store /\
             other = HistoryEntry.Email (withEmailType e)) \/
  (exists c, c ∈ loadCompanySearchHistory store /\
             other = HistoryEntry.Company c).
Proof.
  unfold loadAllHistory. rewrite sort_elem_of, elem_of_app.
  change (map HistoryEntry.Email (map withEmailType ?l))
    with (HistoryEntry.Email <$> (withEmailType <$> l)).
  change (map HistoryEntry.Company ?l) with (HistoryEntry.Company <$> l).
  rewrite <- list_fmap_compose, !list_elem_of_fmap.
  split; (intros [(x & Hx & Hx') | (x & Hx & Hx')]; [left | right]);
    by exists x.
Qed.

(** On the merged history, where the company entries carry the type
    "company" the log writes: the filter "all" keeps the list, the
    filters "email" and "company" select the entries of the two logs,
    and the filters "success" and "error" split the email entries
    between them. *)
Theorem history_filters_partition (store : LocalStorage.t) :
  (forall c, c ∈ loadCompanySearchHistory store ->
             CompanySearchHistoryEntry.type c = "company") ->
  let entries := loadAllHistory getTime store in
  filteredEntries FilterType.all entries = entries /\
  filteredEntries FilterType.email entries
    ≡ₚ map HistoryEntry.Email (map withEmailType (loadSearchHistory store)) /\
  filteredEntries FilterType.company entries
    ≡ₚ map HistoryEntry.Company (loadCompanySearchHistory store) /\
  (filteredEntries FilterType.success entries
   ++ filteredEntries FilterType.error entries)%list
    ≡ₚ filteredEntries FilterType.email entries.
Proof.
  intros Htyped entries.
  assert (forall e, isEmailEntry (HistoryEntry.Email (withEmailType e)) = true
                    /\ isCompanyEntry (HistoryEntry.Email (withEmailType e))
                       = false) as Hemail by done.
  assert (forall c, c ∈ loadCompanySearchHistory store ->
                    isEmailEntry (HistoryEntry.Company c) = false /\
                    isCompanyEntry (HistoryEntry.Company c) = true)
    as Hcompany.
  { intros c Hc. unfold isEmailEntry, isCompanyEntry. cbn.
    by rewrite (Htyped c Hc). }
  unfold filteredEntries. split_and!.
  - by apply List_filter_true.
  - unfold entries, loadAllHistory.
    rewrite (List_filter_Permutation _ _ _ (sort_perm _ _)), List.filter_app.
    rewrite List_filter_true, List_filter_false; [by rewrite app_nil_r | |].
    + intros x [c [-> Hc]]%list_elem_of_fmap. by apply Hcompany.
    + intros x Hx.
      change (map HistoryEntry.Email (map withEmailType ?l))
        with (HistoryEntry.Email <$> (withEmailType <$> l)) in Hx.
      rewrite <- list_fmap_compose in Hx.
      apply list_elem_of_fmap in Hx as [e [-> He]]. apply Hemail.
  - unfold entries, loadAllHistory.
    rewrite (List_filter_Permutation _ _ _ (sort_perm _ _)), List.filter_app.
    rewrite List_filter_false, List_filter_true; [done | |].
    + intros x [c [-> Hc]]%list_elem_of_fmap. by apply Hcompany.
    + intros x Hx.
      change (map HistoryEntry.Email (map withEmailType ?l))
        with (HistoryEntry.Email <$> (withEmailType <$> l)) in Hx.
      rewrite <- list_fmap_compose in Hx.
      apply list_elem_of_fmap in Hx as [e [-> He]]. apply Hemail.
  - apply List_filter_split. intros x Hx.
    apply elem_of_loadAllHistory in Hx as [(e & He & ->) | (c & Hc & ->)].
    + cbn. by destruct (SearchHistoryEntry.status e).
    + by rewrite (proj1 (Hcompany c Hc)).
Qed.

(** Removing an entry from the history list takes out of the merged
    history exactly the entries of the same kind (email or company) with
    the id of that entry, the removed entry among them; every other
    entry stays. *)
Theorem handleRemove_drops_entry_of_kind_and_id
    (entry : HistoryEntry.t) (store : LocalStorage.t) :
  (forall c, c ∈ loadCompanySearchHistory store ->
             CompanySearchHistoryEntry.type c = "company") ->
  (entry ∉ loadAllHistory getTime (handleRemove entry store)) /\
  forall other,
    other ∈ loadAllHistory getTime (handleRemove entry store) <->
    other ∈ loadAllHistory getTime store /\
    ~ (isCompanyEntry other = isCompanyEntry entry /\
       entryId other = entryId entry).
Proof.
  intros Htyped.
  assert (forall other,
    other ∈ loadAllHistory getTime (handleRemove entry store) <->
    other ∈ loadAllHistory getTime store /\
    ~ (isCompanyEntry other = isCompanyEntry entry /\
       entryId other = entryId entry)) as Hafter.
  { intros other. rewrite !elem_of_loadAllHistory. unfold handleRemove.
    assert (forall c, c ∈ loadCompanySearchHistory store ->
                      isCompanyEntry (HistoryEntry.Company c) = true)
      as Hcompany.
    { intros c Hc. unfold isCompanyEntry. cbn. by rewrite (Htyped c Hc). }
    destruct (isCompanyEntry entry) eqn:Hkind.
    - change (loadSearchHistory
                (removeCompanySearchHistoryEntry (entryId entry) store))
        with (loadSearchHistory store).
      change (loadCompanySearchHistory
                (removeCompanySearchHistoryEntry (entryId entry) store))
        with (filter (fun c => CompanySearchHistoryEntry.id c ≠ entryId entry)
                (loadCompanySearchHistory store)).
      split.
      + intros [(e & He & ->) | (c & [Hid Hc]%list_elem_of_filter & ->)].
        * split; [left; by exists e | by intros [? _]].
        * split; [right; by exists c | by intros [_ ?]].
      + intros [[(e & He & ->) | (c & Hc & ->)] Hnot].
        * left. by exists e.
        * right. exists c. split; [| done].
          apply list_elem_of_filter. split; [| done].
          intros Hid. apply Hnot. split; [by apply Hcompany | done].
    - change (loadCompanySearchHistory
                (removeSearchHistoryEntry (entryId entry) store))
        with (loadCompanySearchHistory store).
      change (loadSearchHistory
                (removeSearchHistoryEntry (entryId entry) store))
        with (filter (fun e => SearchHistoryEntry.id e ≠ entryId entry)
                (loadSearchHistory store)).
      split.
      + intros [(e & [Hid He]%list_elem_of_filter & ->) | (c & Hc & ->)].
        * split; [left; by exists e | by intros [_ ?]].
        * split; [right; by exists c |].
          intros [Hsame _]. rewrite (Hcompany c Hc) in Hsame. done.
      + intros [[(e & He & ->) | (c & Hc & ->)] Hnot].
        * left. exists e. split; [| done].
          apply list_elem_of_filter. split; [| done].
          intros Hid. by apply Hnot.
        * right. by exists c.
  }
  split; [| done].
  intros Hentry. apply Hafter in Hentry as [_ Hnot]. by apply Hnot.
Qed.
End history_view.

Lemma history_filters_partition_witness :
  SearchHistory.filteredEntries FilterType.company
    (HistoryStorage.loadAllHistory ReferenceHost.parseISO Fixture.twoCompanies)
  ≡ₚ map HistoryEntry.Company [Sample.companyEntry; Fixture.otherCompanyEntry].
Proof.
  destruct (history_filters_partition ReferenceHost.parseISO
              Fixture.twoCompanies) as (_ & _ & Hcompany & _).
  - intros c Hc. cbn in Hc.
    apply elem_of_cons in Hc as [-> | ->%list_elem_of_singleton];
      reflexivity.
  - exact Hcompany.
Defined.

Lemma handleRemove_drops_entry_of_kind_and_id_witness :
  HistoryEntry.Company Fixture.otherCompanyEntry
  ∉ HistoryStorage.loadAllHistory ReferenceHost.parseISO
      (SearchHistory.handleRemove
         (HistoryEntry.Company Fixture.otherCompanyEntry)
         Fixture.twoCompanies).
Proof.
  destruct (handleRemove_drops_entry_of_kind_and_id ReferenceHost.parseISO
              (HistoryEntry.Company Fixture.otherCompanyEntry)
              Fixture.twoCompanies) as [Hgone _].
  - intros c Hc. cbn in Hc.
    apply elem_of_cons in Hc as [-> | ->%list_elem_of_singleton];
      reflexivity.
  - exact Hgone.
Defined.

(* ===================================================================== *)
(** ** The cached view groups as the live view does                      *)
(* ===================================================================== *)

Section cached_groups.
Variable localeCompare : string -> string -> Z.

Local Abbreviation toCachedBucket :=
  (prod_map (@id string)
     (@fmap list _ Employee.t CachedEmployee.t
        CompanyEmployees.toCachedEmployee)).

Lemma map_get_fmap {V W : Type} (f : V -> W) (key : string)
    (m : list (string * V)) :
  JS.map_get key (prod_map id f <$> m) = f <$> JS.map_get key m.
Proof.
  induction m as [| [k v] m IH]; [done |].
  cbn. by destruct (String.eqb k key).
Qed.

Lemma map_set_fmap {V W : Type} (f : V -> W) (key : string) (v : V)
    (m : list (string * V)) :
  JS.map_set key (f v) (prod_map id f <$> m)
  = prod_map id f <$> JS.map_set key v m.
Proof.
  induction m as [| [k v'] m IH]; [done |].
  cbn. destruct (String.eqb k key); [done |]. cbn. by f_equal.
Qed.

Lemma map_keys_fmap {V W : Type} (f : V -> W) (m : list (string * V)) :
  JS.map_keys (prod_map id f <$> m) = JS.map_keys m.
Proof.
  unfold JS.map_keys. change (map fst ?l) with (fst <$> l).
  rewrite <- list_fmap_compose. by apply list_fmap_ext; intros ? [].
Qed.

Lemma addEmployee_cached (m : list (string * list Employee.t))
    (e : Employee.t) :
  SearchHistory.addEmployee (toCachedBucket <$> m)
    (CompanyEmployees.toCachedEmployee e)
  = toCachedBucket <$> CompanyEmployees.addEmployee m e.
Proof.
  unfold SearchHistory.addEmployee, CompanyEmployees.addEmployee.
  cbn [CompanyEmployees.toCachedEmployee CachedEmployee.departments].
  generalize (Employee.departments e) as ds. intros ds. revert m.
  induction ds as [| d ds IH]; intros m; [done |].
  cbn [foldl]. rewrite <- IH. f_equal.
  rewrite map_get_fmap, <- map_set_fmap. f_equal.
  destruct (JS.map_get d m) as [bucket |]; cbn; [| done].
  by rewrite fmap_app.
Qed.

Lemma departmentMap_cached (es : list Employee.t) :
  SearchHistory.departmentMap (CompanyEmployees.toCachedEmployee <$> es)
  = toCachedBucket <$> CompanyEmployees.departmentMap es.
Proof.
  unfold SearchHistory.departmentMap, CompanyEmployees.departmentMap.
  change (@nil (string * list CachedEmployee.t))
    with (toCachedBucket <$> @nil (string * list Employee.t)).
  generalize (@nil (string * list Employee.t)) as m. revert es.
  induction es as [| e es IH]; intros m; [done |].
  cbn [fmap list_fmap foldl].
  change (list_fmap _ _ ?f ?l) with (f <$> l).
  by rewrite addEmployee_cached, IH.
Qed.

(** The history view groups a cached snapshot of a list of employees
    into the groups the live view shows for that list: the same
    department names in the same order, each with the snapshots of the
    same employees in the same order. *)
Theorem cached_groups_match_live_groups (employees : list Employee.t) :
  SearchHistory.groupByDepartment localeCompare
    (map CompanyEmployees.toCachedEmployee employees)
  = map (fun group =>
           {| CachedDepartmentGroup.name := DepartmentGroup.name group;
              CachedDepartmentGroup.employees :=
                map CompanyEmployees.toCachedEmployee
                  (DepartmentGroup.employees group) |})
      (CompanyEmployees.groupByDepartment localeCompare employees).
Proof.
  unfold SearchHistory.groupByDepartment, CompanyEmployees.groupByDepartment.
  change (map CompanyEmployees.toCachedEmployee employees)
    with (CompanyEmployees.toCachedEmployee <$> employees).
  rewrite departmentMap_cached, map_keys_fmap, map_map.
  apply map_ext. intros name. cbn. f_equal.
  rewrite map_get_fmap.
  by destruct (JS.map_get name (CompanyEmployees.departmentMap employees)).
Qed.
End cached_groups.

(* ===================================================================== *)
(** ** The API key the calls send                                        *)
(* ===================================================================== *)












